(** * Capital gains comparator: FIFO, LIFO and average-cost realisation

    A shallow embedding of [theInternCalc/calculator.py]: the lot
    inventories, the average-cost totals, the three gain ledgers, the list of
    enhanced sales, the two handlers [process_buy] and [process_sell], the
    driver loop of [process_transactions] and [generate_report_df].

    Numbers.  The program computes with Python floats, and it is embedded
    twice.  The first embedding computes with exact rationals [Q]: every
    arithmetic step and every comparison is the exact one, and the only
    arithmetic failure kept is the one Python raises on its own,
    [ZeroDivisionError] for a division by a zero float.  It carries the
    properties that hold however a result is rounded: what is raised and
    when, the formulas the code evaluates, the turns the loops can take, the
    signs of the totals, the keys of the stores and where the lots of an
    inventory come from.
    Rationals are compared with [==] ([Qeq]); a statement written with [=]
    holds syntactically.  The second embedding, [Binary64], is the same code
    on IEEE 754 binary64 floats, with their rounding, infinities and NaN.
    It carries the properties in which quantities or gains are added up and
    compared for equality: there the two embeddings differ, and a statement
    that holds in exact arithmetic is stated for the float run together with
    the condition that the stores it speaks of carry no rounding error.

    Dictionaries.  The stores are [defaultdict]s keyed by the asset name: a
    read of an absent key yields the default and creates the entry.  They are
    embedded as [gmap string _]; a read is a lookup with a default and every
    block that reads a store writes its entry back, which is where the key
    gets created.

    Loops.  The two [while] loops are embedded by their test and their body,
    run by [while_do] under an iteration budget; [while_do] answers [None]
    when the budget is used up before the test fails. *)

From Stdlib Require Import QArith Qminmax Lqa Lia ZArith String List OrderedTypeEx.
From Stdlib Require Floats.
From stdpp Require Import gmap strings list fin_maps sorting.

(** ** Python's comparisons, [min] and [max] on numbers *)

(** [x > y]. *)
Definition Qgtb (x y : Q) : bool := negb (Qle_bool x y).

(** [min(a, b)]: the first argument unless the second is smaller. *)
Definition py_min (a b : Q) : Q := if Qgtb a b then b else a.

(** [max(a, b)]: the first argument unless the second is larger. *)
Definition py_max (a b : Q) : Q := if Qgtb b a then b else a.

(** ** Exceptions and outcomes *)

Inductive Exception : Type :=
  | ZeroDivisionError
  | InvalidDataError.

(** What running a piece of the program gives: a value, a raised exception,
    or [OutOfFuel] when a loop used up its iteration budget. *)
Inductive outcome (A : Type) : Type :=
  | Return (a : A)
  | Raise (e : Exception)
  | OutOfFuel.
Arguments Return {A} a.
Arguments Raise {A} e.
Arguments OutOfFuel {A}.

Definition bind {A B : Type} (m : outcome A) (k : A -> outcome B) : outcome B :=
  match m with
  | Return a => k a
  | Raise e => Raise e
  | OutOfFuel => OutOfFuel
  end.

(** [a / b] on floats: raises on a zero divisor. *)
Definition py_div (a b : Q) : outcome Q :=
  if Qeq_bool b 0 then Raise ZeroDivisionError else Return (a / b)%Q.

(** ** The [while] loop *)

(** [while cond(s): s = body(s)], with the number of times the body ran. *)
Fixpoint while_do {S : Type} (cond : S -> bool) (body : S -> S) (fuel : nat) (s : S)
  : option (S * nat) :=
  if cond s then
    match fuel with
    | O => None
    | Datatypes.S fuel' =>
        match while_do cond body fuel' (body s) with
        | Some (s', n) => Some (s', Datatypes.S n)
        | None => None
        end
    end
  else Some (s, O).

(** ** Data *)

(** A timestamp: the code reads its calendar year only. *)
Record Timestamp : Type := mkTimestamp {
  year : Z;
  instant : Z
}.

(** A row of the transaction frame.  [Transaction_Type] is the cell as the
    frame holds it, which is what the enhanced-sales row copies; [ttype] is
    the value the driver dispatches on,
    [row["Transaction Type"].strip().upper()].  The two are kept as two
    fields: a statement about every row holds for the rows whose [ttype] is
    the normalised cell. *)
Record Row : Type := mkRow {
  UTC_Timestamp : Timestamp;
  Transaction_Type : string;
  ttype : string;
  Asset : string;
  Quantity : Q;
  Asset_Price_in_CAD : Q;
  Transaction_Value_in_CAD : Q
}.

(** A purchase lot, [{"quantity": .., "price": .., "timestamp": ..}]. *)
Record Lot : Type := mkLot {
  quantity : Q;
  price : Q;
  timestamp : Timestamp
}.

(** [lot["quantity"] = q]. *)
Definition set_quantity (lot : Lot) (q : Q) : Lot :=
  {| quantity := q; price := price lot; timestamp := timestamp lot |}.

(** An entry of [avg_totals], [{"quantity": .., "total_cost": ..}]. *)
Record AvgTotals : Type := mkAvg {
  avg_quantity : Q;
  total_cost : Q
}.

(** A row of the enhanced-sales list. *)
Record Enhanced : Type := mkEnhanced {
  e_UTC_Timestamp : Timestamp;
  e_Asset : string;
  e_Transaction_Type : string;
  e_Quantity : Q;
  e_Matched_Quantity : Q;
  e_Enhanced_Quantity : Q;
  e_Sale_Price_in_CAD : Q;
  e_Enhanced_Transaction_Value_in_CAD : Q;
  e_Data_Status : string
}.

(** A gain ledger, [defaultdict(lambda: defaultdict(float))]:
    asset, then year, then the running gain. *)
Abbreviation Ledger := (gmap string (gmap Z Q)).

(** Everything [process_transactions] creates before its loop. *)
Record State : Type := mkState {
  buy_lots_fifo : gmap string (list Lot);
  buy_lots_lifo : gmap string (list Lot);
  avg_totals : gmap string AvgTotals;
  fifo_gains : Ledger;
  lifo_gains : Ledger;
  avg_cost_gains : Ledger;
  enhanced_transactions : list Enhanced
}.

Definition initial_state : State :=
  {| buy_lots_fifo := ∅; buy_lots_lifo := ∅; avg_totals := ∅;
     fifo_gains := ∅; lifo_gains := ∅; avg_cost_gains := ∅;
     enhanced_transactions := [] |}.

(** ** Reads of the default dictionaries *)

(** [buy_lots[asset]], default [[]]. *)
Definition lots_of (m : gmap string (list Lot)) (asset : string) : list Lot :=
  default [] (m !! asset).

(** [avg_totals[asset]], default [{"quantity": 0.0, "total_cost": 0.0}]. *)
Definition avg_of (m : gmap string AvgTotals) (asset : string) : AvgTotals :=
  default {| avg_quantity := 0; total_cost := 0 |} (m !! asset).

(** [gains[asset]], default an empty inner dictionary. *)
Definition years_of (g : Ledger) (asset : string) : gmap Z Q :=
  default ∅ (g !! asset).

(** [gains[asset][year]], default [0.0]. *)
Definition gain_of (g : Ledger) (asset : string) (y : Z) : Q :=
  default 0%Q (years_of g asset !! y).

(** [gains[asset][year] += amount]. *)
Definition add_gain (g : Ledger) (asset : string) (y : Z) (amount : Q) : Ledger :=
  <[asset := <[y := (gain_of g asset y + amount)%Q]> (years_of g asset)]> g.

(** [sum(lot["quantity"] for lot in lots)]: from 0, left to right. *)
Definition available (lots : list Lot) : Q :=
  fold_left (fun acc lot => (acc + quantity lot)%Q) lots 0%Q.

(** ** BUY *)

Definition process_buy (row : Row) (st : State) : State :=
  let ts := UTC_Timestamp row in
  let asset := Asset row in
  let qty := Quantity row in
  let unit_price := Asset_Price_in_CAD row in
  let total_value := Transaction_Value_in_CAD row in
  let lot := {| quantity := qty; price := unit_price; timestamp := ts |} in
  let avg := avg_of (avg_totals st) asset in
  {| buy_lots_fifo := <[asset := lots_of (buy_lots_fifo st) asset ++ [lot]]> (buy_lots_fifo st);
     buy_lots_lifo := <[asset := lots_of (buy_lots_lifo st) asset ++ [lot]]> (buy_lots_lifo st);
     avg_totals := <[asset := {| avg_quantity := (avg_quantity avg + qty)%Q;
                                 total_cost := (total_cost avg + total_value)%Q |}]>
                     (avg_totals st);
     fifo_gains := fifo_gains st;
     lifo_gains := lifo_gains st;
     avg_cost_gains := avg_cost_gains st;
     enhanced_transactions := enhanced_transactions st |}.

(** ** SELL: the two matching loops *)

(** What a matching loop reads and writes: the asset's lots, the quantity
    still to match, and the method's gain ledger. *)
Record Matching : Type := mkMatching {
  m_lots : list Lot;
  m_remaining : Q;
  m_gains : Ledger
}.

(** [remaining > 0 and buy_lots[asset]]. *)
Definition match_cond (s : Matching) : bool :=
  Qgtb (m_remaining s) 0 && negb (bool_decide (m_lots s = [])).

(** One turn of the FIFO loop: the lot is [buy_lots_fifo[asset][0]]. *)
Definition fifo_body (asset : string) (y : Z) (sale_price : Q) (s : Matching) : Matching :=
  match m_lots s with
  | [] => s
  | lot :: rest =>
      let remaining := m_remaining s in
      if Qgtb (quantity lot) remaining then
        let cost_basis := (remaining * price lot)%Q in
        {| m_lots := set_quantity lot (quantity lot - remaining)%Q :: rest;
           m_remaining := 0;
           m_gains := add_gain (m_gains s) asset y (remaining * sale_price - cost_basis)%Q |}
      else
        let cost_basis := (quantity lot * price lot)%Q in
        {| m_lots := rest;
           m_remaining := (remaining - quantity lot)%Q;
           m_gains := add_gain (m_gains s) asset y (quantity lot * sale_price - cost_basis)%Q |}
  end.

(** One turn of the LIFO loop: the lot is [buy_lots_lifo[asset][-1]]. *)
Definition lifo_body (asset : string) (y : Z) (sale_price : Q) (s : Matching) : Matching :=
  match last (m_lots s) with
  | None => s
  | Some lot =>
      let remaining := m_remaining s in
      if Qgtb (quantity lot) remaining then
        let cost_basis := (remaining * price lot)%Q in
        {| m_lots := removelast (m_lots s) ++ [set_quantity lot (quantity lot - remaining)%Q];
           m_remaining := 0;
           m_gains := add_gain (m_gains s) asset y (remaining * sale_price - cost_basis)%Q |}
      else
        let cost_basis := (quantity lot * price lot)%Q in
        {| m_lots := removelast (m_lots s);
           m_remaining := (remaining - quantity lot)%Q;
           m_gains := add_gain (m_gains s) asset y (quantity lot * sale_price - cost_basis)%Q |}
  end.

(** The loop with its budget: one turn per lot of the inventory. *)
Definition run_matching (body : Matching -> Matching) (s : Matching) : outcome Matching :=
  match while_do match_cond body (length (m_lots s)) s with
  | Some (s', _) => Return s'
  | None => OutOfFuel
  end.

(** ** SELL *)

Definition process_sell (row : Row) (st : State) : outcome State :=
  let ts := UTC_Timestamp row in
  let y := year ts in
  let asset := Asset row in
  let qty := Quantity row in
  let total_value := Transaction_Value_in_CAD row in
  bind (py_div total_value qty) (fun sale_price =>
  (* For FIFO: determine available matched quantity. *)
  let available_fifo := available (lots_of (buy_lots_fifo st) asset) in
  let matched_fifo := py_min qty available_fifo in
  bind (run_matching (fifo_body asset y sale_price)
          {| m_lots := lots_of (buy_lots_fifo st) asset;
             m_remaining := matched_fifo;
             m_gains := fifo_gains st |}) (fun f =>
  (* Enhanced portion for FIFO. *)
  let enhanced_qty := (qty - matched_fifo)%Q in
  let enhanced := Qgtb enhanced_qty 0 in
  let fifo_gains' :=
    if enhanced then add_gain (m_gains f) asset y (enhanced_qty * sale_price)%Q
    else m_gains f in
  let enhanced_transactions' :=
    if enhanced then
      enhanced_transactions st ++
        [{| e_UTC_Timestamp := UTC_Timestamp row;
            e_Asset := asset;
            e_Transaction_Type := Transaction_Type row;
            e_Quantity := qty;
            e_Matched_Quantity := matched_fifo;
            e_Enhanced_Quantity := enhanced_qty;
            e_Sale_Price_in_CAD := sale_price;
            e_Enhanced_Transaction_Value_in_CAD := (enhanced_qty * sale_price)%Q;
            e_Data_Status := "enhanced" |}]
    else enhanced_transactions st in
  (* For LIFO: process similarly. *)
  let available_lifo := available (lots_of (buy_lots_lifo st) asset) in
  let matched_lifo := py_min qty available_lifo in
  bind (run_matching (lifo_body asset y sale_price)
          {| m_lots := lots_of (buy_lots_lifo st) asset;
             m_remaining := matched_lifo;
             m_gains := lifo_gains st |}) (fun l =>
  let lifo_gains' :=
    if Qgtb (qty - matched_lifo) 0
    then add_gain (m_gains l) asset y ((qty - matched_lifo) * sale_price)%Q
    else m_gains l in
  (* For Average Cost. *)
  let avg := avg_of (avg_totals st) asset in
  let available_avg := avg_quantity avg in
  let matched_avg := py_min qty available_avg in
  let avg_cost := if Qgtb available_avg 0 then (total_cost avg / available_avg)%Q else 0%Q in
  Return
    {| buy_lots_fifo := <[asset := m_lots f]> (buy_lots_fifo st);
       buy_lots_lifo := <[asset := m_lots l]> (buy_lots_lifo st);
       avg_totals :=
         <[asset := {| avg_quantity := py_max 0 (avg_quantity avg - qty);
                       total_cost := py_max 0 (total_cost avg - matched_avg * avg_cost) |}]>
           (avg_totals st);
       fifo_gains := fifo_gains';
       lifo_gains := lifo_gains';
       avg_cost_gains := add_gain (avg_cost_gains st) asset y (qty * (sale_price - avg_cost))%Q;
       enhanced_transactions := enhanced_transactions' |}))).

(** ** The driver *)

(** The body of the [for] loop: dispatch on the normalised type; any other
    type is skipped. *)
Definition process_row (row : Row) (st : State) : outcome State :=
  if String.eqb (ttype row) "BUY" then Return (process_buy row st)
  else if String.eqb (ttype row) "SELL" then process_sell row st
  else Return st.

(** The [for] loop over the rows, taken in the order the sorted frame yields
    them. *)
Fixpoint process_rows (rows : list Row) (st : State) : outcome State :=
  match rows with
  | [] => Return st
  | row :: rows' => bind (process_row row st) (process_rows rows')
  end.

(** [process_transactions]: [validate_dataframe] rejects the empty frame,
    then the loop runs from the empty stores.  [rows] is the frame after
    [sort_values("UTC Timestamp")]. *)
Definition process_transactions (rows : list Row) : outcome State :=
  match rows with
  | [] => Raise InvalidDataError
  | _ => process_rows rows initial_state
  end.

(** ** The report *)

(** A row of the report, its fields in the order of the frame's columns. *)
Record ReportRow : Type := mkReportRow {
  Year : Z;
  r_Asset : string;
  LIFO_GL : Q;
  FIFO_GL : Q;
  ACB_GL : Q
}.

(** A frame: the column labels and the rows. *)
Record DataFrame : Type := mkDataFrame {
  columns : list string;
  data : list ReportRow
}.

(** The order of Python on strings, by code point; on the bytes of a UTF-8
    string it is the lexicographic order on the bytes. *)
Definition string_le (s1 s2 : string) : Prop := String.leb s1 s2 = true.

#[global] Instance string_le_dec : RelDecision string_le.
Proof. intros s1 s2. unfold string_le. apply _. Defined.

(** [sort_values(by=["Year", "Asset"], ascending=[False, True])]: a later
    year first, and within a year the smaller asset name first. *)
Definition report_order (r1 r2 : ReportRow) : Prop :=
  (Year r2 < Year r1)%Z \/ (Year r1 = Year r2 /\ string_le (r_Asset r1) (r_Asset r2)).

#[global] Instance report_order_dec : RelDecision report_order.
Proof. intros r1 r2. unfold report_order. apply _. Defined.

(** The years under which one of the three ledgers holds the asset. *)
Definition report_years (fifo lifo acb : Ledger) (asset : string) : gset Z :=
  dom (years_of fifo asset) ∪ dom (years_of lifo asset) ∪ dom (years_of acb asset).

(** The row built for an asset and a year: [.get(year, 0.0)] on each ledger. *)
Definition report_row (fifo lifo acb : Ledger) (asset : string) (y : Z) : ReportRow :=
  {| Year := y;
     r_Asset := asset;
     LIFO_GL := gain_of lifo asset y;
     FIFO_GL := gain_of fifo asset y;
     ACB_GL := gain_of acb asset y |}.

(** [generate_report_df].  The reads [gains[asset]] of the loop create the
    missing entries of the ledgers as empty dictionaries; the frame does not
    depend on it. *)
Definition generate_report_df (fifo_gains lifo_gains avg_cost_gains : Ledger) : DataFrame :=
  let assets :=
    merge_sort string_le
      (elements (dom fifo_gains ∪ dom lifo_gains ∪ dom avg_cost_gains)) in
  let rows :=
    assets ≫= (fun asset =>
      report_row fifo_gains lifo_gains avg_cost_gains asset <$>
        merge_sort Z.le
          (elements (report_years fifo_gains lifo_gains avg_cost_gains asset))) in
  {| columns := ["Year"; "Asset"; "LIFO G&L"; "FIFO G&L"; "ACB G&L"];
     data := merge_sort report_order rows |}.

(** A read [g[asset]] of a ledger: the entry is created, empty, when the
    asset is absent. *)
Definition read_entry (g : Ledger) (asset : string) : Ledger :=
  match g !! asset with
  | Some _ => g
  | None => <[asset := ∅]> g
  end.

(** A ledger after the loop of [generate_report_df], which reads it at every
    asset of the report. *)
Definition ledger_after_report (g : Ledger) (assets : list string) : Ledger :=
  fold_left read_entry assets g.

(** The assets the loop of [generate_report_df] goes through. *)
Definition report_assets (fifo_gains lifo_gains avg_cost_gains : Ledger) : list string :=
  merge_sort string_le (elements (dom fifo_gains ∪ dom lifo_gains ∪ dom avg_cost_gains)).

(** ** Validation of the input frame *)

Definition REQUIRED_COLUMNS : list string :=
  ["UTC Timestamp"; "Transaction Type"; "Asset"; "Quantity";
   "Asset Price in CAD"; "Transaction Value in CAD"].

(** [col in df.columns]. *)
Definition has_column (cols : list string) (col : string) : bool :=
  existsb (String.eqb col) cols.

(** [[col for col in REQUIRED_COLUMNS if col not in df.columns]]. *)
Definition missing_columns (cols : list string) : list string :=
  List.filter (fun col => negb (has_column cols col)) REQUIRED_COLUMNS.

(** [df.empty]: one of the two axes of the frame has length zero. *)
Definition frame_empty (cols : list string) (rows : list Row) : bool :=
  (length cols =? 0)%nat || (length rows =? 0)%nat.

(** What [validate_dataframe] does on a frame given by its column labels and
    its rows: it returns, or it raises [InvalidDataError] with a message. *)
Inductive Validation : Type :=
  | Validated
  | Invalid (message : string).

Definition validate_dataframe (cols : list string) (rows : list Row) : Validation :=
  let missing_cols := missing_columns cols in
  match missing_cols with
  | _ :: _ =>
      Invalid ("Missing required columns: " ++ String.concat ", " missing_cols)
  | [] =>
      if frame_empty cols rows then Invalid "Input file contains no data"
      else Validated
  end.

(** [process_transactions] on a frame with its column labels: the validation,
    then the loop over the rows. *)
Definition process_frame (cols : list string) (rows : list Row) : outcome State :=
  match validate_dataframe cols rows with
  | Invalid _ => Raise InvalidDataError
  | Validated => process_rows rows initial_state
  end.

(** * The program in binary floating point *)

Module Binary64.
Import PrimFloat.

(** ** Python's comparisons, [min], [max] and [/] on floats *)

(** [x > y]; false when one of them is NaN. *)
Definition py_gt (x y : float) : bool := (y <? x)%float.

(** [min(a, b)]: the first argument unless the second is smaller. *)
Definition py_min (a b : float) : float := if (b <? a)%float then b else a.

(** [max(a, b)]: the first argument unless the second is larger. *)
Definition py_max (a b : float) : float := if py_gt b a then b else a.

(** [a / b]: raises on a zero divisor, of either sign. *)
Definition py_div (a b : float) : outcome float :=
  if (b =? 0)%float then Raise ZeroDivisionError else Return (a / b)%float.

(** ** The built-in [sum] on a list of floats *)

(** Up to CPython 3.11: the additions from 0, left to right. *)
Definition sum_left (xs : list float) : float :=
  fold_left (fun acc x => (acc + x)%float) xs 0%float.

(** From CPython 3.12 on: the same additions with a running compensation
    (Neumaier), which is added at the end when it is finite and not zero. *)
Definition sum_compensated (xs : list float) : float :=
  let step (s : float * float) (x : float) :=
    let '(total, c) := s in
    let t := (total + x)%float in
    if (abs x <=? abs total)%float
    then (t, (c + ((total - t) + x))%float)
    else (t, (c + ((x - t) + total))%float) in
  let '(total, c) := fold_left step xs (0%float, 0%float) in
  if negb (c =? 0)%float && (abs c <? infinity)%float then (total + c)%float else total.

(** ** Data *)

Record Row : Type := mkRow {
  UTC_Timestamp : Timestamp;
  Transaction_Type : string;
  ttype : string;
  Asset : string;
  Quantity : float;
  Asset_Price_in_CAD : float;
  Transaction_Value_in_CAD : float
}.

Record Lot : Type := mkLot {
  quantity : float;
  price : float;
  timestamp : Timestamp
}.

Definition set_quantity (lot : Lot) (q : float) : Lot :=
  {| quantity := q; price := price lot; timestamp := timestamp lot |}.

Record AvgTotals : Type := mkAvg {
  avg_quantity : float;
  total_cost : float
}.

Record Enhanced : Type := mkEnhanced {
  e_UTC_Timestamp : Timestamp;
  e_Asset : string;
  e_Transaction_Type : string;
  e_Quantity : float;
  e_Matched_Quantity : float;
  e_Enhanced_Quantity : float;
  e_Sale_Price_in_CAD : float;
  e_Enhanced_Transaction_Value_in_CAD : float;
  e_Data_Status : string
}.

Abbreviation Ledger := (gmap string (gmap Z float)).

Record State : Type := mkState {
  buy_lots_fifo : gmap string (list Lot);
  buy_lots_lifo : gmap string (list Lot);
  avg_totals : gmap string AvgTotals;
  fifo_gains : Ledger;
  lifo_gains : Ledger;
  avg_cost_gains : Ledger;
  enhanced_transactions : list Enhanced
}.

Definition initial_state : State :=
  {| buy_lots_fifo := ∅; buy_lots_lifo := ∅; avg_totals := ∅;
     fifo_gains := ∅; lifo_gains := ∅; avg_cost_gains := ∅;
     enhanced_transactions := [] |}.

Definition lots_of (m : gmap string (list Lot)) (asset : string) : list Lot :=
  default [] (m !! asset).

Definition avg_of (m : gmap string AvgTotals) (asset : string) : AvgTotals :=
  default {| avg_quantity := 0; total_cost := 0 |} (m !! asset).

Definition years_of (g : Ledger) (asset : string) : gmap Z float :=
  default ∅ (g !! asset).

Definition gain_of (g : Ledger) (asset : string) (y : Z) : float :=
  default 0%float (years_of g asset !! y).

Definition add_gain (g : Ledger) (asset : string) (y : Z) (amount : float) : Ledger :=
  <[asset := <[y := (gain_of g asset y + amount)%float]> (years_of g asset)]> g.

(** ** BUY *)

Definition process_buy (row : Row) (st : State) : State :=
  let ts := UTC_Timestamp row in
  let asset := Asset row in
  let qty := Quantity row in
  let unit_price := Asset_Price_in_CAD row in
  let total_value := Transaction_Value_in_CAD row in
  let lot := {| quantity := qty; price := unit_price; timestamp := ts |} in
  let avg := avg_of (avg_totals st) asset in
  {| buy_lots_fifo := <[asset := lots_of (buy_lots_fifo st) asset ++ [lot]]> (buy_lots_fifo st);
     buy_lots_lifo := <[asset := lots_of (buy_lots_lifo st) asset ++ [lot]]> (buy_lots_lifo st);
     avg_totals := <[asset := {| avg_quantity := (avg_quantity avg + qty)%float;
                                 total_cost := (total_cost avg + total_value)%float |}]>
                     (avg_totals st);
     fifo_gains := fifo_gains st;
     lifo_gains := lifo_gains st;
     avg_cost_gains := avg_cost_gains st;
     enhanced_transactions := enhanced_transactions st |}.

(** ** SELL: the two matching loops *)

Record Matching : Type := mkMatching {
  m_lots : list Lot;
  m_remaining : float;
  m_gains : Ledger
}.

(** [remaining > 0 and buy_lots[asset]]. *)
Definition match_cond (s : Matching) : bool :=
  py_gt (m_remaining s) 0 && match m_lots s with [] => false | _ :: _ => true end.

Definition fifo_body (asset : string) (y : Z) (sale_price : float) (s : Matching) : Matching :=
  match m_lots s with
  | [] => s
  | lot :: rest =>
      let remaining := m_remaining s in
      if py_gt (quantity lot) remaining then
        let cost_basis := (remaining * price lot)%float in
        {| m_lots := set_quantity lot (quantity lot - remaining)%float :: rest;
           m_remaining := 0;
           m_gains := add_gain (m_gains s) asset y (remaining * sale_price - cost_basis)%float |}
      else
        let cost_basis := (quantity lot * price lot)%float in
        {| m_lots := rest;
           m_remaining := (remaining - quantity lot)%float;
           m_gains := add_gain (m_gains s) asset y (quantity lot * sale_price - cost_basis)%float |}
  end.

Definition lifo_body (asset : string) (y : Z) (sale_price : float) (s : Matching) : Matching :=
  match last (m_lots s) with
  | None => s
  | Some lot =>
      let remaining := m_remaining s in
      if py_gt (quantity lot) remaining then
        let cost_basis := (remaining * price lot)%float in
        {| m_lots := removelast (m_lots s) ++ [set_quantity lot (quantity lot - remaining)%float];
           m_remaining := 0;
           m_gains := add_gain (m_gains s) asset y (remaining * sale_price - cost_basis)%float |}
      else
        let cost_basis := (quantity lot * price lot)%float in
        {| m_lots := removelast (m_lots s);
           m_remaining := (remaining - quantity lot)%float;
           m_gains := add_gain (m_gains s) asset y (quantity lot * sale_price - cost_basis)%float |}
  end.

Definition run_matching (body : Matching -> Matching) (s : Matching) : outcome Matching :=
  match while_do match_cond body (length (m_lots s)) s with
  | Some (s', _) => Return s'
  | None => OutOfFuel
  end.


(** ** What a matching loop does, in closed form *)

(** The lots in the order the LIFO loop takes them, newest first. *)
Definition newest_first (s : Matching) : Matching :=
  {| m_lots := rev (m_lots s); m_remaining := m_remaining s; m_gains := m_gains s |}.

(** What is still to consume once the lots [consumed] were taken whole. *)
Definition remaining_after (m : float) (consumed : list Lot) : float :=
  fold_left (fun r lot => (r - quantity lot)%float) consumed m.

(** Each of the lots, in turn, found a positive amount still to consume and
    did not exceed it. *)
Fixpoint taken_whole (m : float) (consumed : list Lot) : Prop :=
  match consumed with
  | [] => True
  | lot :: more =>
      py_gt m 0 = true /\ py_gt (quantity lot) m = false /\
      taken_whole (m - quantity lot)%float more
  end.

(** The ledger once the lots [consumed] were matched whole at [sale_price]. *)
Definition booked (asset : string) (y : Z) (sale_price : float) (g : Ledger)
    (consumed : list Lot) : Ledger :=
  fold_left
    (fun g lot =>
       add_gain g asset y (quantity lot * sale_price - quantity lot * price lot)%float)
    consumed g.

(** [takes asset y sale_price s t]: from [s] the loop takes a run of lots
    whole from the front of the inventory, then stops at [t]: either nothing
    is left to consume or no lot is left, or the next lot exceeds what is left
    to consume and is split. *)
Definition takes (asset : string) (y : Z) (sale_price : float) (s t : Matching) : Prop :=
  exists consumed rest,
    m_lots s = consumed ++ rest /\ taken_whole (m_remaining s) consumed /\
    let r := remaining_after (m_remaining s) consumed in
    let g := booked asset y sale_price (m_gains s) consumed in
    ((py_gt r 0 = false \/ rest = []) /\
     t = {| m_lots := rest; m_remaining := r; m_gains := g |}) \/
    (exists lot rest',
       rest = lot :: rest' /\ py_gt r 0 = true /\ py_gt (quantity lot) r = true /\
       t = {| m_lots := set_quantity lot (quantity lot - r)%float :: rest';
              m_remaining := 0;
              m_gains := add_gain g asset y (r * sale_price - r * price lot)%float |}).

(** The ledger after the unmatched part of a sell of [qty], of which
    [matched] was to be matched: booked at the sale price, nothing deducted. *)
Definition unmatched (asset : string) (y : Z) (sale_price qty matched : float)
    (g : Ledger) : Ledger :=
  if py_gt (qty - matched)%float 0
  then add_gain g asset y ((qty - matched) * sale_price)%float
  else g.

(** ** SELL, the driver *)

Section Sum.

(** The built-in [sum] of the interpreter that runs the program. *)
Variable py_sum : list float -> float.

(** [sum(lot["quantity"] for lot in lots)]. *)
Definition available (lots : list Lot) : float := py_sum (quantity <$> lots).

Definition process_sell (row : Row) (st : State) : outcome State :=
  let ts := UTC_Timestamp row in
  let y := year ts in
  let asset := Asset row in
  let qty := Quantity row in
  let total_value := Transaction_Value_in_CAD row in
  bind (py_div total_value qty) (fun sale_price =>
  let available_fifo := available (lots_of (buy_lots_fifo st) asset) in
  let matched_fifo := py_min qty available_fifo in
  bind (run_matching (fifo_body asset y sale_price)
          {| m_lots := lots_of (buy_lots_fifo st) asset;
             m_remaining := matched_fifo;
             m_gains := fifo_gains st |}) (fun f =>
  let enhanced_qty := (qty - matched_fifo)%float in
  let enhanced := py_gt enhanced_qty 0 in
  let fifo_gains' :=
    if enhanced then add_gain (m_gains f) asset y (enhanced_qty * sale_price)%float
    else m_gains f in
  let enhanced_transactions' :=
    if enhanced then
      enhanced_transactions st ++
        [{| e_UTC_Timestamp := UTC_Timestamp row;
            e_Asset := asset;
            e_Transaction_Type := Transaction_Type row;
            e_Quantity := qty;
            e_Matched_Quantity := matched_fifo;
            e_Enhanced_Quantity := enhanced_qty;
            e_Sale_Price_in_CAD := sale_price;
            e_Enhanced_Transaction_Value_in_CAD := (enhanced_qty * sale_price)%float;
            e_Data_Status := "enhanced" |}]
    else enhanced_transactions st in
  let available_lifo := available (lots_of (buy_lots_lifo st) asset) in
  let matched_lifo := py_min qty available_lifo in
  bind (run_matching (lifo_body asset y sale_price)
          {| m_lots := lots_of (buy_lots_lifo st) asset;
             m_remaining := matched_lifo;
             m_gains := lifo_gains st |}) (fun l =>
  let lifo_gains' :=
    if py_gt (qty - matched_lifo)%float 0
    then add_gain (m_gains l) asset y ((qty - matched_lifo) * sale_price)%float
    else m_gains l in
  let avg := avg_of (avg_totals st) asset in
  let available_avg := avg_quantity avg in
  let matched_avg := py_min qty available_avg in
  let avg_cost :=
    if py_gt available_avg 0 then (total_cost avg / available_avg)%float else 0%float in
  Return
    {| buy_lots_fifo := <[asset := m_lots f]> (buy_lots_fifo st);
       buy_lots_lifo := <[asset := m_lots l]> (buy_lots_lifo st);
       avg_totals :=
         <[asset := {| avg_quantity := py_max 0 (avg_quantity avg - qty)%float;
                       total_cost := py_max 0 (total_cost avg - matched_avg * avg_cost)%float |}]>
           (avg_totals st);
       fifo_gains := fifo_gains';
       lifo_gains := lifo_gains';
       avg_cost_gains :=
         add_gain (avg_cost_gains st) asset y (qty * (sale_price - avg_cost))%float;
       enhanced_transactions := enhanced_transactions' |}))).

Definition process_row (row : Row) (st : State) : outcome State :=
  if String.eqb (ttype row) "BUY" then Return (process_buy row st)
  else if String.eqb (ttype row) "SELL" then process_sell row st
  else Return st.

Fixpoint process_rows (rows : list Row) (st : State) : outcome State :=
  match rows with
  | [] => Return st
  | row :: rows' => bind (process_row row st) (process_rows rows')
  end.

End Sum.

End Binary64.

(** * Properties *)

(** ** Comparisons, [min] and [max] *)

Lemma Qgtb_true (x y : Q) : Qgtb x y = true <-> (y < x)%Q.
Proof.
  unfold Qgtb. rewrite negb_true_iff. split.
  - intros E. destruct (Qlt_le_dec y x) as [Hlt | Hle]; [exact Hlt |].
    apply Qle_bool_iff in Hle. congruence.
  - intros Hlt. destruct (Qle_bool x y) eqn:E; [| reflexivity].
    apply Qle_bool_iff in E. lra.
Qed.

Lemma Qgtb_false (x y : Q) : Qgtb x y = false <-> (x <= y)%Q.
Proof.
  unfold Qgtb. rewrite negb_false_iff. apply Qle_bool_iff.
Qed.

(** Case analysis on a comparison of the program, leaving the order fact. *)
Ltac case_gt x y :=
  let E := fresh "Hgt" in
  destruct (Qgtb x y) eqn:E;
  [ apply Qgtb_true in E | apply Qgtb_false in E ].

Lemma py_min_spec (a b : Q) :
  ((b < a)%Q /\ py_min a b = b) \/ ((a <= b)%Q /\ py_min a b = a).
Proof.
  unfold py_min. case_gt a b; [left | right]; split; auto.
Qed.

Lemma py_max_spec (a b : Q) :
  ((a < b)%Q /\ py_max a b = b) \/ ((b <= a)%Q /\ py_max a b = a).
Proof.
  unfold py_max. case_gt b a; [left | right]; split; auto.
Qed.

Lemma py_min_le_r (a b : Q) : (py_min a b <= b)%Q.
Proof. destruct (py_min_spec a b) as [[? ->] | [? ->]]; lra. Qed.

Lemma py_min_le_l (a b : Q) : (py_min a b <= a)%Q.
Proof. destruct (py_min_spec a b) as [[? ->] | [? ->]]; lra. Qed.

Lemma py_min_Qmin (a b : Q) : (py_min a b == Qmin a b)%Q.
Proof.
  destruct (py_min_spec a b) as [[H ->] | [H ->]].
  - symmetry. apply Q.min_r. lra.
  - symmetry. apply Q.min_l. exact H.
Qed.

Lemma py_max_Qmax (a b : Q) : (py_max a b == Qmax a b)%Q.
Proof.
  destruct (py_max_spec a b) as [[H ->] | [H ->]].
  - symmetry. apply Q.max_r. lra.
  - symmetry. apply Q.max_l. exact H.
Qed.

Lemma py_max_0_nonneg (x : Q) : (0 <= py_max 0 x)%Q.
Proof. destruct (py_max_spec 0 x) as [[? ->] | [? ->]]; lra. Qed.


Lemma py_div_Return (a b q : Q) : py_div a b = Return q -> ~ (b == 0)%Q /\ q = (a / b)%Q.
Proof.
  unfold py_div. destruct (Qeq_bool b 0) eqn:E; [discriminate |].
  intros [= <-]. split; [| reflexivity]. now apply Qeq_bool_neq.
Qed.

Lemma py_div_nonzero (a b : Q) : ~ (b == 0)%Q -> py_div a b = Return (a / b)%Q.
Proof.
  intros Hb. unfold py_div. destruct (Qeq_bool b 0) eqn:E; [| reflexivity].
  apply Qeq_bool_iff in E. contradiction.
Qed.

Lemma py_div_zero (a b : Q) : (b == 0)%Q -> py_div a b = Raise ZeroDivisionError.
Proof.
  intros Hb. unfold py_div. apply Qeq_bool_iff in Hb. now rewrite Hb.
Qed.

(** ** The [while] loop: invariants and termination by a measure *)

Section While.
Context {S : Type} (cond : S -> bool) (body : S -> S).

Lemma while_do_exit (fuel : nat) (s s' : S) (n : nat) :
  while_do cond body fuel s = Some (s', n) -> cond s' = false.
Proof.
  revert s s' n. induction fuel as [| fuel IH]; intros s s' n; simpl.
  - destruct (cond s) eqn:E; [discriminate |]. now intros [= <- <-].
  - destruct (cond s) eqn:E; [| now intros [= <- <-]].
    destruct (while_do cond body fuel (body s)) as [[s1 n1] |] eqn:W; [| discriminate].
    intros [= <- <-]. eapply IH, W.
Qed.

Lemma while_do_invariant (P : S -> Prop) :
  (forall s, cond s = true -> P s -> P (body s)) ->
  forall fuel s s' n, while_do cond body fuel s = Some (s', n) -> P s -> P s'.
Proof.
  intros Hstep fuel. induction fuel as [| fuel IH]; intros s s' n; simpl.
  - destruct (cond s) eqn:E; [discriminate |]. now intros [= <- <-].
  - destruct (cond s) eqn:E; [| now intros [= <- <-]].
    destruct (while_do cond body fuel (body s)) as [[s1 n1] |] eqn:W; [| discriminate].
    intros [= <- <-] HP. eapply IH; eauto.
Qed.

(** A relation that every turn respects holds between entry and exit. *)
Lemma while_do_relates (R : S -> S -> Prop) :
  (forall s, R s s) ->
  (forall s t, cond s = true -> R (body s) t -> R s t) ->
  forall fuel s s' n, while_do cond body fuel s = Some (s', n) -> R s s'.
Proof.
  intros Hrefl Hstep fuel. induction fuel as [| fuel IH]; intros s s' n; simpl.
  - destruct (cond s) eqn:E; [discriminate |]. intros [= <- <-]. apply Hrefl.
  - destruct (cond s) eqn:E; [| intros [= <- <-]; apply Hrefl].
    destruct (while_do cond body fuel (body s)) as [[s1 n1] |] eqn:W; [| discriminate].
    intros [= <- <-]. apply Hstep; [exact E |]. eapply IH, W.
Qed.

Lemma while_do_measure (m : S -> nat) :
  (forall s, cond s = true -> (m (body s) < m s)%nat) ->
  forall fuel s, (m s <= fuel)%nat ->
    exists s' n, while_do cond body fuel s = Some (s', n) /\ (n <= m s)%nat.
Proof.
  intros Hdec fuel. induction fuel as [| fuel IH]; intros s Hm; simpl.
  - destruct (cond s) eqn:E.
    + specialize (Hdec s E). lia.
    + exists s, O. split; [reflexivity | lia].
  - destruct (cond s) eqn:E.
    + specialize (Hdec s E).
      destruct (IH (body s)) as (s' & n & W & Hn); [lia |].
      rewrite W. exists s', (Datatypes.S n). split; [reflexivity | lia].
    + exists s, O. split; [reflexivity | lia].
Qed.
End While.

(** ** The matching loops terminate *)

(** Turns the loop can still take: none once its test fails, otherwise at
    most one per lot. *)
Definition turns_left (s : Matching) : nat :=
  if match_cond s then length (m_lots s) else O.

Lemma match_cond_true (s : Matching) :
  match_cond s = true <-> (0 < m_remaining s)%Q /\ m_lots s <> [].
Proof.
  unfold match_cond. rewrite andb_true_iff, Qgtb_true, negb_true_iff, bool_decide_eq_false.
  reflexivity.
Qed.

Lemma match_cond_zero (lots : list Lot) (g : Ledger) :
  match_cond {| m_lots := lots; m_remaining := 0; m_gains := g |} = false.
Proof. reflexivity. Qed.

Lemma last_removelast (lots : list Lot) (lot : Lot) :
  last lots = Some lot -> lots = removelast lots ++ [lot].
Proof.
  intros H. apply last_Some in H as [l' ->]. now rewrite removelast_last.
Qed.

Lemma last_nonempty (lots : list Lot) : lots <> [] -> exists lot, last lots = Some lot.
Proof.
  intros H. destruct (last lots) as [lot |] eqn:E; [eauto |].
  apply last_None in E. contradiction.
Qed.

(** A turn of the FIFO loop either splits the first lot and zeroes what
    remains to match, or pops the first lot. *)
Lemma fifo_body_step asset y sp (s : Matching) :
  match_cond s = true ->
  (exists lot rest, m_lots s = lot :: rest /\ (m_remaining s < quantity lot)%Q /\
     m_remaining (fifo_body asset y sp s) = 0%Q /\
     m_lots (fifo_body asset y sp s) =
       set_quantity lot (quantity lot - m_remaining s) :: rest) \/
  (exists lot rest, m_lots s = lot :: rest /\ (quantity lot <= m_remaining s)%Q /\
     m_remaining (fifo_body asset y sp s) = (m_remaining s - quantity lot)%Q /\
     m_lots (fifo_body asset y sp s) = rest).
Proof.
  intros Hc. apply match_cond_true in Hc as [_ Hne].
  destruct s as [lots rem g]; simpl in *.
  destruct lots as [| lot rest]; [contradiction |].
  unfold fifo_body; simpl. case_gt (quantity lot) rem; [left | right];
    exists lot, rest; simpl; auto.
Qed.

(** A turn of the LIFO loop either splits the last lot and zeroes what
    remains to match, or pops the last lot. *)
Lemma lifo_body_step asset y sp (s : Matching) :
  match_cond s = true ->
  (exists lot rest, m_lots s = rest ++ [lot] /\ (m_remaining s < quantity lot)%Q /\
     m_remaining (lifo_body asset y sp s) = 0%Q /\
     m_lots (lifo_body asset y sp s) =
       rest ++ [set_quantity lot (quantity lot - m_remaining s)]) \/
  (exists lot rest, m_lots s = rest ++ [lot] /\ (quantity lot <= m_remaining s)%Q /\
     m_remaining (lifo_body asset y sp s) = (m_remaining s - quantity lot)%Q /\
     m_lots (lifo_body asset y sp s) = rest).
Proof.
  intros Hc. apply match_cond_true in Hc as [_ Hne].
  destruct s as [lots rem g]; simpl in *.
  destruct (last_nonempty lots Hne) as [lot Hl].
  pose proof (last_removelast lots lot Hl) as Hsplit.
  unfold lifo_body; simpl. rewrite Hl.
  case_gt (quantity lot) rem; [left | right];
    exists lot, (removelast lots); simpl; auto.
Qed.

Lemma fifo_turns_decrease asset y sp (s : Matching) :
  match_cond s = true ->
  (turns_left (fifo_body asset y sp s) < turns_left s)%nat.
Proof.
  intros Hc. unfold turns_left at 2. rewrite Hc.
  destruct (fifo_body_step asset y sp s Hc)
    as [(lot & rest & Hl & _ & Hr & Hl') | (lot & rest & Hl & _ & _ & Hl')].
  - assert (E : match_cond (fifo_body asset y sp s) = false)
      by (unfold match_cond; rewrite Hr; reflexivity).
    unfold turns_left. rewrite E, Hl. simpl. lia.
  - unfold turns_left. rewrite Hl', Hl.
    destruct (match_cond (fifo_body asset y sp s)); simpl; lia.
Qed.

Lemma lifo_turns_decrease asset y sp (s : Matching) :
  match_cond s = true ->
  (turns_left (lifo_body asset y sp s) < turns_left s)%nat.
Proof.
  intros Hc. unfold turns_left at 2. rewrite Hc.
  destruct (lifo_body_step asset y sp s Hc)
    as [(lot & rest & Hl & _ & Hr & Hl') | (lot & rest & Hl & _ & _ & Hl')].
  - assert (E : match_cond (lifo_body asset y sp s) = false)
      by (unfold match_cond; rewrite Hr; reflexivity).
    unfold turns_left. rewrite E, Hl, length_app. simpl. lia.
  - unfold turns_left. rewrite Hl', Hl, length_app.
    destruct (match_cond (lifo_body asset y sp s)); simpl; lia.
Qed.

Lemma turns_left_le (s : Matching) : (turns_left s <= length (m_lots s))%nat.
Proof. unfold turns_left. destruct (match_cond s); lia. Qed.

Lemma run_matching_fifo_returns asset y sp (s : Matching) :
  exists s', run_matching (fifo_body asset y sp) s = Return s' /\
    exists n, while_do match_cond (fifo_body asset y sp) (length (m_lots s)) s = Some (s', n).
Proof.
  destruct (while_do_measure match_cond (fifo_body asset y sp) turns_left
              (fifo_turns_decrease asset y sp) (length (m_lots s)) s (turns_left_le s))
    as (s' & n & W & _).
  exists s'. unfold run_matching. rewrite W. eauto.
Qed.

Lemma run_matching_lifo_returns asset y sp (s : Matching) :
  exists s', run_matching (lifo_body asset y sp) s = Return s' /\
    exists n, while_do match_cond (lifo_body asset y sp) (length (m_lots s)) s = Some (s', n).
Proof.
  destruct (while_do_measure match_cond (lifo_body asset y sp) turns_left
              (lifo_turns_decrease asset y sp) (length (m_lots s)) s (turns_left_le s))
    as (s' & n & W & _).
  exists s'. unfold run_matching. rewrite W. eauto.
Qed.

Lemma run_matching_inv (body : Matching -> Matching) (s s' : Matching) :
  run_matching body s = Return s' ->
  exists n, while_do match_cond body (length (m_lots s)) s = Some (s', n).
Proof.
  unfold run_matching.
  destruct (while_do match_cond body (length (m_lots s)) s) as [[s1 n] |]; [| discriminate].
  intros [= <-]. eauto.
Qed.

(** ** Quantities and cost of an inventory *)

(** The cost basis still carried by an inventory: quantity times unit price,
    summed over its lots. *)
Definition lots_cost (lots : list Lot) : Q :=
  fold_right (fun lot acc => (quantity lot * price lot + acc)%Q) 0%Q lots.

(** Every lot of the inventory holds a non-negative quantity. *)
Definition lots_nonneg (lots : list Lot) : Prop :=
  Forall (fun lot => (0 <= quantity lot)%Q) lots.

Lemma fold_left_quantity (lots : list Lot) (a : Q) :
  (fold_left (fun acc lot => acc + quantity lot) lots a ==
   a + fold_left (fun acc lot => acc + quantity lot) lots 0)%Q.
Proof.
  revert a. induction lots as [| lot lots IH]; intros a; simpl.
  - lra.
  - rewrite (IH (a + quantity lot)%Q), (IH (0 + quantity lot)%Q). lra.
Qed.

Lemma available_nil : available [] = 0%Q.
Proof. reflexivity. Qed.

Lemma available_cons (lot : Lot) (lots : list Lot) :
  (available (lot :: lots) == quantity lot + available lots)%Q.
Proof.
  unfold available. simpl. rewrite fold_left_quantity. lra.
Qed.

Lemma available_app (xs ys : list Lot) :
  (available (xs ++ ys) == available xs + available ys)%Q.
Proof.
  induction xs as [| x xs IH]; simpl.
  - rewrite available_nil. lra.
  - rewrite !available_cons, IH. lra.
Qed.

Lemma available_snoc (xs : list Lot) (lot : Lot) :
  (available (xs ++ [lot]) == available xs + quantity lot)%Q.
Proof.
  rewrite available_app, available_cons, available_nil. lra.
Qed.


Lemma lots_cost_app (xs ys : list Lot) :
  (lots_cost (xs ++ ys) == lots_cost xs + lots_cost ys)%Q.
Proof.
  induction xs as [| x xs IH]; simpl.
  - lra.
  - rewrite IH. lra.
Qed.

Lemma lots_cost_snoc (xs : list Lot) (lot : Lot) :
  (lots_cost (xs ++ [lot]) == lots_cost xs + quantity lot * price lot)%Q.
Proof.
  rewrite lots_cost_app. simpl. lra.
Qed.

Lemma available_nonneg (lots : list Lot) : lots_nonneg lots -> (0 <= available lots)%Q.
Proof.
  induction 1 as [| lot lots Hq _ IH].
  - rewrite available_nil. lra.
  - rewrite available_cons. lra.
Qed.


(** ** Ledgers *)

(** The gain of an asset over all years. *)
Definition ledger_total (g : Ledger) (asset : string) : Q :=
  map_fold (fun (_ : Z) (v acc : Q) => (v + acc)%Q) 0%Q (years_of g asset).

Lemma years_of_add_gain (g : Ledger) (asset : string) (y : Z) (x : Q) :
  years_of (add_gain g asset y x) asset =
  <[y := (gain_of g asset y + x)%Q]> (years_of g asset).
Proof.
  unfold add_gain, years_of at 1. now rewrite lookup_insert_eq.
Qed.

Lemma years_of_add_gain_ne (g : Ledger) (asset asset' : string) (y : Z) (x : Q) :
  asset' <> asset -> years_of (add_gain g asset y x) asset' = years_of g asset'.
Proof.
  intros Hne. unfold add_gain, years_of. rewrite lookup_insert_ne; [reflexivity | congruence].
Qed.

Lemma gain_of_add_gain (g : Ledger) (asset : string) (y : Z) (x : Q) :
  gain_of (add_gain g asset y x) asset y = (gain_of g asset y + x)%Q.
Proof.
  unfold gain_of at 1. now rewrite years_of_add_gain, lookup_insert_eq.
Qed.

Lemma gain_of_add_gain_other (g : Ledger) (asset asset' : string) (y y' : Z) (x : Q) :
  asset' <> asset \/ y' <> y ->
  gain_of (add_gain g asset y x) asset' y' = gain_of g asset' y'.
Proof.
  intros Hne. unfold gain_of.
  destruct (decide (asset' = asset)) as [-> | Ha].
  - destruct Hne as [Hne | Hne]; [contradiction |].
    rewrite years_of_add_gain, lookup_insert_ne; [reflexivity | congruence].
  - now rewrite years_of_add_gain_ne.
Qed.

Lemma sum_years_insert_fresh (m : gmap Z Q) (y : Z) (v : Q) :
  m !! y = None ->
  (map_fold (fun (_ : Z) (v acc : Q) => v + acc) 0 (<[y := v]> m) ==
   v + map_fold (fun (_ : Z) (v acc : Q) => v + acc) 0 m)%Q.
Proof.
  intros Hy.
  apply (map_fold_insert Qeq (fun (_ : Z) (v acc : Q) => (v + acc)%Q)); [| | exact Hy].
  - intros j z a b E. simpl. rewrite E. reflexivity.
  - intros. simpl. lra.
Qed.

Lemma sum_years_delete (m : gmap Z Q) (y : Z) (v : Q) :
  m !! y = Some v ->
  (map_fold (fun (_ : Z) (v acc : Q) => v + acc) 0 m ==
   v + map_fold (fun (_ : Z) (v acc : Q) => v + acc) 0 (delete y m))%Q.
Proof.
  intros Hy.
  apply (map_fold_delete Qeq (fun (_ : Z) (v acc : Q) => (v + acc)%Q)); [| | exact Hy].
  - intros j z a b E. simpl. rewrite E. reflexivity.
  - intros. simpl. lra.
Qed.

Lemma ledger_total_add_gain (g : Ledger) (asset : string) (y : Z) (x : Q) :
  (ledger_total (add_gain g asset y x) asset == ledger_total g asset + x)%Q.
Proof.
  unfold ledger_total. rewrite years_of_add_gain. unfold gain_of.
  destruct (years_of g asset !! y) as [v |] eqn:Hy; simpl.
  - rewrite <- (insert_delete_eq (years_of g asset)).
    rewrite sum_years_insert_fresh by apply lookup_delete_eq.
    rewrite (sum_years_delete _ y v Hy). lra.
  - rewrite sum_years_insert_fresh by exact Hy. lra.
Qed.

Lemma ledger_total_add_gain_ne (g : Ledger) (asset asset' : string) (y : Z) (x : Q) :
  asset' <> asset -> ledger_total (add_gain g asset y x) asset' = ledger_total g asset'.
Proof.
  intros Hne. unfold ledger_total. now rewrite years_of_add_gain_ne.
Qed.

(** [gained g g' asset y d]: ledger [g'] is [g] with [d] more booked for
    [asset] in year [y], and nothing else changed. *)
Definition gained (g g' : Ledger) (asset : string) (y : Z) (d : Q) : Prop :=
  (gain_of g' asset y == gain_of g asset y + d)%Q /\
  (ledger_total g' asset == ledger_total g asset + d)%Q /\
  (forall asset' y', asset' <> asset \/ y' <> y ->
     gain_of g' asset' y' = gain_of g asset' y') /\
  (forall asset', asset' <> asset -> years_of g' asset' = years_of g asset').

Lemma gained_refl (g : Ledger) (asset : string) (y : Z) (d : Q) :
  (d == 0)%Q -> gained g g asset y d.
Proof.
  intros Hd. repeat split; auto; rewrite Hd; lra.
Qed.

Lemma gained_add_gain (g : Ledger) (asset : string) (y : Z) (x : Q) :
  gained g (add_gain g asset y x) asset y x.
Proof.
  repeat split.
  - rewrite gain_of_add_gain. reflexivity.
  - apply ledger_total_add_gain.
  - intros. now apply gain_of_add_gain_other.
  - intros. now apply years_of_add_gain_ne.
Qed.

Lemma gained_trans (g1 g2 g3 : Ledger) (asset : string) (y : Z) (d1 d2 d : Q) :
  gained g1 g2 asset y d1 -> gained g2 g3 asset y d2 -> (d == d1 + d2)%Q ->
  gained g1 g3 asset y d.
Proof.
  intros (A1 & B1 & C1 & D1) (A2 & B2 & C2 & D2) Hd. repeat split.
  - rewrite A2, A1, Hd. lra.
  - rewrite B2, B1, Hd. lra.
  - intros a' y' Hne. rewrite C2, C1; auto.
  - intros a' Hne. rewrite D2, D1; auto.
Qed.

Lemma gained_compat (g g' : Ledger) (asset : string) (y : Z) (d d' : Q) :
  gained g g' asset y d -> (d == d')%Q -> gained g g' asset y d'.
Proof.
  intros H Hd. eapply gained_trans; [apply (gained_refl g asset y 0); reflexivity | exact H |].
  rewrite Hd. lra.
Qed.

(** ** What a matching loop does to quantities, cost and gains *)

Lemma while_do_stop {S : Type} (cond : S -> bool) (body : S -> S) (fuel : nat) (s : S) :
  cond s = false -> while_do cond body fuel s = Some (s, O).
Proof. intros E. destruct fuel; simpl; now rewrite E. Qed.

Lemma while_do_turn {S : Type} (cond : S -> bool) (body : S -> S)
    (fuel : nat) (s t : S) (n : nat) :
  cond s = true -> while_do cond body fuel s = Some (t, n) ->
  exists fuel' n', fuel = Datatypes.S fuel' /\ n = Datatypes.S n' /\
                   while_do cond body fuel' (body s) = Some (t, n').
Proof.
  intros E. destruct fuel as [| fuel']; simpl; rewrite E; [discriminate |].
  destruct (while_do cond body fuel' (body s)) as [[s1 n1] |] eqn:W; [| discriminate].
  intros [= <- <-]. eauto.
Qed.

(** [matched_through asset y sp s t]: from [s] to [t] the loop matched
    [m_remaining s - m_remaining t] units of the asset, took them out of the
    lots and booked their gain at unit price [sp]. *)
Definition matched_through (asset : string) (y : Z) (sp : Q) (s t : Matching) : Prop :=
  ((m_remaining s <= 0)%Q -> t = s) /\
  ((0 <= m_remaining s)%Q -> (0 <= m_remaining t)%Q) /\
  (available (m_lots t) - m_remaining t == available (m_lots s) - m_remaining s)%Q /\
  gained (m_gains s) (m_gains t) asset y
    ((m_remaining s - m_remaining t) * sp - (lots_cost (m_lots s) - lots_cost (m_lots t)))%Q /\
  (lots_nonneg (m_lots s) -> lots_nonneg (m_lots t)).

Lemma matched_through_refl asset y sp (s : Matching) : matched_through asset y sp s s.
Proof.
  split; [auto |]. split; [auto |]. split; [lra |]. split; [| auto].
  apply gained_refl. ring.
Qed.

Lemma matched_through_turn asset y sp (s u t : Matching) :
  (0 < m_remaining s)%Q ->
  matched_through asset y sp s u -> matched_through asset y sp u t ->
  matched_through asset y sp s t.
Proof.
  intros Hpos (_ & P1 & A1 & G1 & N1) (_ & P2 & A2 & G2 & N2).
  split; [intros; lra |]. split; [auto |]. split; [lra |]. split; [| auto].
  eapply gained_trans; [exact G1 | exact G2 | ring].
Qed.

Lemma fifo_body_matched asset y sp (s : Matching) :
  match_cond s = true -> matched_through asset y sp s (fifo_body asset y sp s).
Proof.
  intros Hc. pose proof Hc as Hc'. apply match_cond_true in Hc' as [Hpos Hne].
  destruct s as [lots rem g]; simpl in *.
  destruct lots as [| lot rest]; [contradiction |].
  unfold fifo_body; simpl. case_gt (quantity lot) rem.
  - split; [simpl; intros; lra |]. split; [simpl; intros; lra |].
    split; [simpl; rewrite !available_cons; simpl; lra |].
    split; simpl.
    + eapply gained_compat; [apply gained_add_gain | ring].
    + intros Hn. inversion Hn as [| ? ? Hq Hrest]; subst.
      constructor; [simpl; lra | exact Hrest].
  - split; [simpl; intros; lra |]. split; [simpl; intros; lra |].
    split; [simpl; rewrite !available_cons; lra |].
    split; simpl.
    + eapply gained_compat; [apply gained_add_gain | ring].
    + intros Hn. now inversion Hn.
Qed.

Lemma lots_nonneg_snoc (lots : list Lot) (lot : Lot) :
  lots_nonneg (lots ++ [lot]) <-> lots_nonneg lots /\ (0 <= quantity lot)%Q.
Proof.
  unfold lots_nonneg. rewrite Forall_app, Forall_singleton. reflexivity.
Qed.

Lemma lifo_body_matched asset y sp (s : Matching) :
  match_cond s = true -> matched_through asset y sp s (lifo_body asset y sp s).
Proof.
  intros Hc. pose proof Hc as Hc'. apply match_cond_true in Hc' as [Hpos Hne].
  destruct s as [lots rem g]; simpl in *.
  destruct (last_nonempty lots Hne) as [lot Hl].
  pose proof (last_removelast lots lot Hl) as Hsplit.
  unfold lifo_body; simpl. rewrite Hl.
  set (rest := removelast lots) in *. clearbody rest. subst lots.
  case_gt (quantity lot) rem.
  - split; [simpl; intros; lra |]. split; [simpl; intros; lra |].
    split; [simpl; rewrite !available_snoc; simpl; lra |].
    split; simpl.
    + eapply gained_compat; [apply gained_add_gain |].
      rewrite !lots_cost_snoc. simpl. ring.
    + rewrite !lots_nonneg_snoc. simpl. intros [Hn Hq]. split; [exact Hn | lra].
  - split; [simpl; intros; lra |]. split; [simpl; intros; lra |].
    split; [simpl; rewrite !available_snoc; lra |].
    split; simpl.
    + eapply gained_compat; [apply gained_add_gain |].
      rewrite !lots_cost_snoc. ring.
    + rewrite lots_nonneg_snoc. tauto.
Qed.

Lemma while_fifo_matched asset y sp (fuel : nat) (s t : Matching) (n : nat) :
  while_do match_cond (fifo_body asset y sp) fuel s = Some (t, n) ->
  matched_through asset y sp s t.
Proof.
  apply (while_do_relates match_cond (fifo_body asset y sp) (matched_through asset y sp)).
  - apply matched_through_refl.
  - intros u v Hc Hv. eapply matched_through_turn; [| apply fifo_body_matched, Hc | exact Hv].
    now apply match_cond_true in Hc.
Qed.

Lemma while_lifo_matched asset y sp (fuel : nat) (s t : Matching) (n : nat) :
  while_do match_cond (lifo_body asset y sp) fuel s = Some (t, n) ->
  matched_through asset y sp s t.
Proof.
  apply (while_do_relates match_cond (lifo_body asset y sp) (matched_through asset y sp)).
  - apply matched_through_refl.
  - intros u v Hc Hv. eapply matched_through_turn; [| apply lifo_body_matched, Hc | exact Hv].
    now apply match_cond_true in Hc.
Qed.

(** At the exit of a loop that was asked for no more than the lots hold,
    nothing remains to match. *)
Lemma matched_through_exit asset y sp (s t : Matching) :
  matched_through asset y sp s t -> match_cond t = false ->
  (0 <= m_remaining s)%Q -> (m_remaining s <= available (m_lots s))%Q ->
  (m_remaining t == 0)%Q.
Proof.
  intros (_ & P & A & _ & _) Hc H0 Hle. specialize (P H0).
  unfold match_cond in Hc. apply andb_false_iff in Hc as [Hc | Hc].
  - apply Qgtb_false in Hc. lra.
  - apply negb_false_iff, bool_decide_eq_true in Hc. rewrite Hc, available_nil in A. lra.
Qed.

(** What the loop takes out of the lots: the quantity asked for when it is
    positive, nothing otherwise. *)
Lemma matched_through_available asset y sp (s t : Matching) :
  matched_through asset y sp s t -> match_cond t = false ->
  (m_remaining s <= available (m_lots s))%Q ->
  (available (m_lots t) == available (m_lots s) - py_max 0 (m_remaining s))%Q.
Proof.
  intros M Hc Hle.
  destruct (py_max_spec 0 (m_remaining s)) as [[Hpos ->] | [Hneg ->]].
  - pose proof (matched_through_exit asset y sp s t M Hc) as Hz.
    destruct M as (_ & _ & A & _ & _). lra.
  - destruct M as (E & _). rewrite (E Hneg). lra.
Qed.

(** ** Which lots a matching loop consumes *)

(** The boundary lot after a split: same price and timestamp, the quantity
    reduced by [taken]. *)
Definition split_of (lot lot' : Lot) (taken : Q) : Prop :=
  (quantity lot' == quantity lot - taken)%Q /\
  price lot' = price lot /\ timestamp lot' = timestamp lot.

(** FIFO: the lots consumed whole are a prefix of the inventory; what is left
    is the rest, with its first lot split when the loop stopped inside it. *)
Definition fifo_shape (s t : Matching) : Prop :=
  exists consumed rest, m_lots s = consumed ++ rest /\
    ((m_lots t = rest /\ (m_remaining t == m_remaining s - available consumed)%Q) \/
     (exists lot lot' rest', rest = lot :: rest' /\ m_lots t = lot' :: rest' /\
        (0 < m_remaining s - available consumed)%Q /\
        (m_remaining s - available consumed < quantity lot)%Q /\
        split_of lot lot' (m_remaining s - available consumed) /\
        m_remaining t = 0%Q)).

(** LIFO: the lots consumed whole are a suffix of the inventory; what is left
    is the front, with its last lot split when the loop stopped inside it. *)
Definition lifo_shape (s t : Matching) : Prop :=
  exists rest consumed, m_lots s = rest ++ consumed /\
    ((m_lots t = rest /\ (m_remaining t == m_remaining s - available consumed)%Q) \/
     (exists lot lot' rest', rest = rest' ++ [lot] /\ m_lots t = rest' ++ [lot'] /\
        (0 < m_remaining s - available consumed)%Q /\
        (m_remaining s - available consumed < quantity lot)%Q /\
        split_of lot lot' (m_remaining s - available consumed) /\
        m_remaining t = 0%Q)).

Lemma split_of_compat (lot lot' : Lot) (a b : Q) :
  split_of lot lot' a -> (a == b)%Q -> split_of lot lot' b.
Proof.
  intros (Hq & Hp & Ht) E. repeat split; auto. rewrite Hq, E. reflexivity.
Qed.

Lemma while_fifo_shape asset y sp (fuel : nat) (s t : Matching) (n : nat) :
  while_do match_cond (fifo_body asset y sp) fuel s = Some (t, n) -> fifo_shape s t.
Proof.
  revert s t n. induction fuel as [| fuel IH]; intros s t n W.
  - simpl in W. destruct (match_cond s) eqn:Hc; [discriminate |].
    injection W as <- <-. exists [], (m_lots s). split; [reflexivity |].
    left. split; [reflexivity |]. rewrite available_nil. lra.
  - destruct (match_cond s) eqn:Hc.
    + destruct (while_do_turn _ _ _ _ _ _ Hc W) as (fuel' & n' & [= <-] & -> & W').
      pose proof Hc as Hpos. apply match_cond_true in Hpos as [Hpos _].
      destruct (fifo_body_step asset y sp s Hc)
        as [(lot & rest & Hl & Hlt & Hr & Hl') | (lot & rest & Hl & Hle & Hr & Hl')].
      * assert (Hstop : match_cond (fifo_body asset y sp s) = false)
          by (unfold match_cond; rewrite Hr; reflexivity).
        rewrite (while_do_stop _ _ _ _ Hstop) in W'. injection W' as <- <-.
        exists [], (m_lots s). split; [reflexivity |]. right.
        exists lot, (set_quantity lot (quantity lot - m_remaining s)), rest.
        rewrite available_nil.
        split; [exact Hl |]. split; [exact Hl' |]. split; [lra |]. split; [lra |].
        split; [| exact Hr].
        split; [simpl; lra | split; reflexivity].
      * destruct (IH _ _ _ W') as (consumed & rest' & Hsplit & Hcase).
        rewrite Hl' in Hsplit. rewrite Hr in Hcase.
        pose proof (available_cons lot consumed) as Hav.
        exists (lot :: consumed), rest'. split; [rewrite Hl, Hsplit; reflexivity |].
        destruct Hcase as [[Ht Hrem] | (b & b' & r' & Hb & Ht & H1 & H2 & H3 & H4)].
        -- left. split; [exact Ht | lra].
        -- right. exists b, b', r'.
           split; [exact Hb |]. split; [exact Ht |]. split; [lra |]. split; [lra |].
           split; [| exact H4].
           eapply split_of_compat; [exact H3 | lra].
    + rewrite (while_do_stop _ _ _ _ Hc) in W. injection W as <- <-.
      exists [], (m_lots s). split; [reflexivity |].
      left. split; [reflexivity |]. rewrite available_nil. lra.
Qed.

Lemma while_lifo_shape asset y sp (fuel : nat) (s t : Matching) (n : nat) :
  while_do match_cond (lifo_body asset y sp) fuel s = Some (t, n) -> lifo_shape s t.
Proof.
  revert s t n. induction fuel as [| fuel IH]; intros s t n W.
  - simpl in W. destruct (match_cond s) eqn:Hc; [discriminate |].
    injection W as <- <-. exists (m_lots s), []. split; [now rewrite app_nil_r |].
    left. split; [reflexivity |]. rewrite available_nil. lra.
  - destruct (match_cond s) eqn:Hc.
    + destruct (while_do_turn _ _ _ _ _ _ Hc W) as (fuel' & n' & [= <-] & -> & W').
      pose proof Hc as Hpos. apply match_cond_true in Hpos as [Hpos _].
      destruct (lifo_body_step asset y sp s Hc)
        as [(lot & rest & Hl & Hlt & Hr & Hl') | (lot & rest & Hl & Hle & Hr & Hl')].
      * assert (Hstop : match_cond (lifo_body asset y sp s) = false)
          by (unfold match_cond; rewrite Hr; reflexivity).
        rewrite (while_do_stop _ _ _ _ Hstop) in W'. injection W' as <- <-.
        exists (m_lots s), []. split; [now rewrite app_nil_r |]. right.
        exists lot, (set_quantity lot (quantity lot - m_remaining s)), rest.
        rewrite available_nil.
        split; [exact Hl |]. split; [exact Hl' |]. split; [lra |]. split; [lra |].
        split; [| exact Hr].
        split; [simpl; lra | split; reflexivity].
      * destruct (IH _ _ _ W') as (rest' & consumed & Hsplit & Hcase).
        rewrite Hl' in Hsplit. rewrite Hr in Hcase.
        pose proof (available_snoc consumed lot) as Hav.
        exists rest', (consumed ++ [lot]).
        split; [rewrite Hl, Hsplit, app_assoc; reflexivity |].
        destruct Hcase as [[Ht Hrem] | (b & b' & r' & Hb & Ht & H1 & H2 & H3 & H4)].
        -- left. split; [exact Ht | lra].
        -- right. exists b, b', r'.
           split; [exact Hb |]. split; [exact Ht |]. split; [lra |]. split; [lra |].
           split; [| exact H4].
           eapply split_of_compat; [exact H3 | lra].
    + rewrite (while_do_stop _ _ _ _ Hc) in W. injection W as <- <-.
      exists (m_lots s), []. split; [now rewrite app_nil_r |].
      left. split; [reflexivity |]. rewrite available_nil. lra.
Qed.

(** ** SELL, block by block *)

(** [sale_price = total_value / quantity], when the division goes through. *)
Definition sale_price_of (row : Row) : Q :=
  (Transaction_Value_in_CAD row / Quantity row)%Q.

(** [matched_fifo] and [matched_lifo]. *)
Definition matched_fifo_of (row : Row) (st : State) : Q :=
  py_min (Quantity row) (available (lots_of (buy_lots_fifo st) (Asset row))).

Definition matched_lifo_of (row : Row) (st : State) : Q :=
  py_min (Quantity row) (available (lots_of (buy_lots_lifo st) (Asset row))).

(** The variables of each loop when it is entered. *)
Definition fifo_entry (row : Row) (st : State) : Matching :=
  {| m_lots := lots_of (buy_lots_fifo st) (Asset row);
     m_remaining := matched_fifo_of row st;
     m_gains := fifo_gains st |}.

Definition lifo_entry (row : Row) (st : State) : Matching :=
  {| m_lots := lots_of (buy_lots_lifo st) (Asset row);
     m_remaining := matched_lifo_of row st;
     m_gains := lifo_gains st |}.

(** [avg_cost], computed from the totals before they are updated. *)
Definition avg_cost_of (avg : AvgTotals) : Q :=
  if Qgtb (avg_quantity avg) 0 then (total_cost avg / avg_quantity avg)%Q else 0%Q.

(** The enhanced-sales row that a sell appends. *)
Definition enhanced_row (row : Row) (st : State) : Enhanced :=
  {| e_UTC_Timestamp := UTC_Timestamp row;
     e_Asset := Asset row;
     e_Transaction_Type := Transaction_Type row;
     e_Quantity := Quantity row;
     e_Matched_Quantity := matched_fifo_of row st;
     e_Enhanced_Quantity := (Quantity row - matched_fifo_of row st)%Q;
     e_Sale_Price_in_CAD := sale_price_of row;
     e_Enhanced_Transaction_Value_in_CAD :=
       ((Quantity row - matched_fifo_of row st) * sale_price_of row)%Q;
     e_Data_Status := "enhanced" |}.

(** [sell_outcome row st f l st']: [st'] is what the sell leaves, given the
    exit states [f] and [l] of the FIFO and LIFO loops. *)
Definition sell_outcome (row : Row) (st : State) (f l : Matching) (st' : State) : Prop :=
  let asset := Asset row in
  let y := year (UTC_Timestamp row) in
  let qty := Quantity row in
  let sp := sale_price_of row in
  let avg := avg_of (avg_totals st) asset in
  buy_lots_fifo st' = <[asset := m_lots f]> (buy_lots_fifo st) /\
  buy_lots_lifo st' = <[asset := m_lots l]> (buy_lots_lifo st) /\
  avg_totals st' =
    <[asset := {| avg_quantity := py_max 0 (avg_quantity avg - qty);
                  total_cost := py_max 0 (total_cost avg
                                          - py_min qty (avg_quantity avg) * avg_cost_of avg) |}]>
      (avg_totals st) /\
  fifo_gains st' =
    (if Qgtb (qty - matched_fifo_of row st) 0
     then add_gain (m_gains f) asset y ((qty - matched_fifo_of row st) * sp)%Q
     else m_gains f) /\
  lifo_gains st' =
    (if Qgtb (qty - matched_lifo_of row st) 0
     then add_gain (m_gains l) asset y ((qty - matched_lifo_of row st) * sp)%Q
     else m_gains l) /\
  avg_cost_gains st' =
    add_gain (avg_cost_gains st) asset y (qty * (sp - avg_cost_of avg))%Q /\
  enhanced_transactions st' =
    (if Qgtb (qty - matched_fifo_of row st) 0
     then enhanced_transactions st ++ [enhanced_row row st]
     else enhanced_transactions st).

(** The two loops of a sell, run to their exit. *)
Definition sell_loops (row : Row) (st : State) (f l : Matching) : Prop :=
  let asset := Asset row in
  let y := year (UTC_Timestamp row) in
  let sp := sale_price_of row in
  (exists n, while_do match_cond (fifo_body asset y sp)
               (length (m_lots (fifo_entry row st))) (fifo_entry row st) = Some (f, n)) /\
  (exists n, while_do match_cond (lifo_body asset y sp)
               (length (m_lots (lifo_entry row st))) (lifo_entry row st) = Some (l, n)).

Lemma process_sell_inv (row : Row) (st st' : State) :
  process_sell row st = Return st' ->
  ~ (Quantity row == 0)%Q /\
  exists f l, sell_loops row st f l /\ sell_outcome row st f l st'.
Proof.
  unfold process_sell.
  destruct (py_div (Transaction_Value_in_CAD row) (Quantity row)) as [sp | |] eqn:D;
    simpl; try discriminate.
  apply py_div_Return in D as [Hq ->].
  destruct (run_matching (fifo_body _ _ _) _) as [f | |] eqn:RF; simpl; try discriminate.
  destruct (run_matching (lifo_body _ _ _) _) as [l | |] eqn:RL; simpl; try discriminate.
  intros [= <-]. split; [exact Hq |]. exists f, l. split.
  - split; [exact (run_matching_inv _ _ _ RF) | exact (run_matching_inv _ _ _ RL)].
  - repeat split.
Qed.

Lemma process_sell_returns (row : Row) (st : State) :
  ~ (Quantity row == 0)%Q -> exists st', process_sell row st = Return st'.
Proof.
  intros Hq. unfold process_sell. rewrite (py_div_nonzero _ _ Hq). simpl.
  destruct (run_matching_fifo_returns (Asset row) (year (UTC_Timestamp row))
              (Transaction_Value_in_CAD row / Quantity row)
              {| m_lots := lots_of (buy_lots_fifo st) (Asset row);
                 m_remaining := py_min (Quantity row)
                                  (available (lots_of (buy_lots_fifo st) (Asset row)));
                 m_gains := fifo_gains st |}) as (f & -> & _).
  simpl.
  destruct (run_matching_lifo_returns (Asset row) (year (UTC_Timestamp row))
              (Transaction_Value_in_CAD row / Quantity row)
              {| m_lots := lots_of (buy_lots_lifo st) (Asset row);
                 m_remaining := py_min (Quantity row)
                                  (available (lots_of (buy_lots_lifo st) (Asset row)));
                 m_gains := lifo_gains st |}) as (l & -> & _).
  simpl. eauto.
Qed.

Lemma process_sell_raises (row : Row) (st : State) :
  (Quantity row == 0)%Q -> process_sell row st = Raise ZeroDivisionError.
Proof.
  intros Hq. unfold process_sell. now rewrite (py_div_zero _ _ Hq).
Qed.

(** A sell returns or raises the division error; its loops never use up
    their budget. *)
Lemma process_sell_cases (row : Row) (st : State) :
  ((Quantity row == 0)%Q /\ process_sell row st = Raise ZeroDivisionError) \/
  (~ (Quantity row == 0)%Q /\ exists st', process_sell row st = Return st').
Proof.
  destruct (Qeq_dec (Quantity row) 0) as [Hq | Hq].
  - left. split; [exact Hq | now apply process_sell_raises].
  - right. split; [exact Hq | now apply process_sell_returns].
Qed.

Lemma lots_of_insert (m : gmap string (list Lot)) (asset : string) (lots : list Lot) :
  lots_of (<[asset := lots]> m) asset = lots.
Proof. unfold lots_of. now rewrite lookup_insert_eq. Qed.

Lemma lots_of_insert_ne (m : gmap string (list Lot)) (asset asset' : string) (lots : list Lot) :
  asset' <> asset -> lots_of (<[asset := lots]> m) asset' = lots_of m asset'.
Proof.
  intros Hne. unfold lots_of. rewrite lookup_insert_ne; [reflexivity | congruence].
Qed.

Lemma avg_of_insert (m : gmap string AvgTotals) (asset : string) (avg : AvgTotals) :
  avg_of (<[asset := avg]> m) asset = avg.
Proof. unfold avg_of. now rewrite lookup_insert_eq. Qed.

Lemma avg_of_insert_ne (m : gmap string AvgTotals) (asset asset' : string) (avg : AvgTotals) :
  asset' <> asset -> avg_of (<[asset := avg]> m) asset' = avg_of m asset'.
Proof.
  intros Hne. unfold avg_of. rewrite lookup_insert_ne; [reflexivity | congruence].
Qed.

(** * The claims *)

(** ** Rows used as concrete inputs *)

Definition ts2020 : Timestamp := {| year := 2020; instant := 0 |}.

Definition buy_row (asset : string) (q p : Q) : Row :=
  {| UTC_Timestamp := ts2020; Transaction_Type := "BUY"; ttype := "BUY";
     Asset := asset; Quantity := q; Asset_Price_in_CAD := p;
     Transaction_Value_in_CAD := (q * p)%Q |}.

Definition sell_row (asset : string) (q p : Q) : Row :=
  {| UTC_Timestamp := ts2020; Transaction_Type := "SELL"; ttype := "SELL";
     Asset := asset; Quantity := q; Asset_Price_in_CAD := p;
     Transaction_Value_in_CAD := (q * p)%Q |}.

(** The stores after [BUY 10 @ 100] of asset X. *)
Definition held_10 : State := process_buy (buy_row "X" 10 100) initial_state.

(** ** C10: the matching loops terminate *)

(** What one turn of a loop does to the lots: split the boundary lot and
    zero the remaining amount, or remove one lot. *)
Definition turn_progress (s s' : Matching) : Prop :=
  (m_remaining s' = 0%Q /\ length (m_lots s') = length (m_lots s)) \/
  (Datatypes.S (length (m_lots s')) = length (m_lots s)).

(** C10.  For every inventory (whatever the quantities of its lots, zero
    included), every amount to match and every ledger, the FIFO loop and the
    LIFO loop reach the failure of their test within the budget of one turn
    per lot plus one; each turn of the body either zeroes the remaining amount
    (the boundary lot strictly exceeds it) or removes one lot; and the loops
    of [process_sell], budgeted with one turn per lot, return. *)
Theorem matching_loops_terminate (asset : string) (y : Z) (sp : Q)
    (lots : list Lot) (remaining : Q) (gains : Ledger) :
  let s := {| m_lots := lots; m_remaining := remaining; m_gains := gains |} in
  (exists s' n,
     while_do match_cond (fifo_body asset y sp) (length lots + 1) s = Some (s', n) /\
     (n <= length lots + 1)%nat /\ match_cond s' = false) /\
  (exists s' n,
     while_do match_cond (lifo_body asset y sp) (length lots + 1) s = Some (s', n) /\
     (n <= length lots + 1)%nat /\ match_cond s' = false) /\
  (forall u, match_cond u = true -> turn_progress u (fifo_body asset y sp u)) /\
  (forall u, match_cond u = true -> turn_progress u (lifo_body asset y sp u)) /\
  (exists s', run_matching (fifo_body asset y sp) s = Return s') /\
  (exists s', run_matching (lifo_body asset y sp) s = Return s').
Proof.
  intros s.
  assert (Hfuel : (turns_left s <= length lots + 1)%nat)
    by (pose proof (turns_left_le s); simpl in *; lia).
  split; [| split; [| split; [| split; [| split]]]];
    [ | | | | destruct (run_matching_fifo_returns asset y sp s) as (s' & H & _); eauto
            | destruct (run_matching_lifo_returns asset y sp s) as (s' & H & _); eauto].
  - destruct (while_do_measure match_cond (fifo_body asset y sp) turns_left
                (fifo_turns_decrease asset y sp) _ s Hfuel) as (s' & n & W & Hn).
    exists s', n. split; [exact W |]. split.
    + pose proof (turns_left_le s). simpl in *. lia.
    + eapply while_do_exit, W.
  - destruct (while_do_measure match_cond (lifo_body asset y sp) turns_left
                (lifo_turns_decrease asset y sp) _ s Hfuel) as (s' & n & W & Hn).
    exists s', n. split; [exact W |]. split.
    + pose proof (turns_left_le s). simpl in *. lia.
    + eapply while_do_exit, W.
  - intros u Hc.
    destruct (fifo_body_step asset y sp u Hc)
      as [(lot & rest & Hl & _ & Hr & Hl') | (lot & rest & Hl & _ & _ & Hl')].
    + left. rewrite Hr, Hl', Hl. split; reflexivity.
    + right. rewrite Hl', Hl. reflexivity.
  - intros u Hc.
    destruct (lifo_body_step asset y sp u Hc)
      as [(lot & rest & Hl & _ & Hr & Hl') | (lot & rest & Hl & _ & _ & Hl')].
    + left. rewrite Hr, Hl', Hl, !length_app. split; reflexivity.
    + right. rewrite Hl', Hl, length_app. simpl. lia.
Qed.

(** ** C1: a sell of quantity zero *)

(** C1, as the code has it.  A sell whose declared quantity is zero raises
    [ZeroDivisionError] at [sale_price = total_value / quantity], before any
    store is touched, and the run of the driver stops with that error; any
    other sell returns.  The division is not guarded. *)
Theorem sell_zero_quantity_raises (row : Row) (st : State) :
  (process_sell row st = Raise ZeroDivisionError <-> (Quantity row == 0)%Q) /\
  (forall before after st0,
     (Quantity row == 0)%Q -> ttype row = "SELL" ->
     process_rows before st0 = Return st ->
     process_rows (before ++ row :: after) st0 = Raise ZeroDivisionError).
Proof.
  split.
  - split.
    + intros H. destruct (process_sell_cases row st) as [[Hq _] | [_ [st' H']]];
        [exact Hq | congruence].
    + apply process_sell_raises.
  - intros before after st0 Hq Ht. revert st0.
    induction before as [| r before IH]; intros st0; simpl.
    + intros [= ->]. unfold process_row. rewrite Ht. simpl.
      now rewrite (process_sell_raises row st Hq).
    + destruct (process_row r st0) as [st1 | |]; simpl; try discriminate.
      apply IH.
Qed.

(** The sell of quantity zero used against C1. *)
Definition zero_sell : Row :=
  {| UTC_Timestamp := ts2020; Transaction_Type := "SELL"; ttype := "SELL";
     Asset := "X"; Quantity := 0; Asset_Price_in_CAD := 150; Transaction_Value_in_CAD := 0 |}.

Lemma sell_zero_quantity_raises_witness :
  (process_sell zero_sell held_10 = Raise ZeroDivisionError <-> (Quantity zero_sell == 0)%Q) /\
  process_rows ([buy_row "X" 10 100] ++ zero_sell :: []) initial_state
    = Raise ZeroDivisionError.
Proof.
  destruct (sell_zero_quantity_raises zero_sell held_10) as [Hiff Hrun].
  split; [exact Hiff |].
  apply Hrun; reflexivity.
Defined.

(** Against C1 as stated: on holdings of 10 units, the sell of quantity zero
    does not return the stores unchanged, it raises; and so does the run. *)
Lemma sell_zero_quantity_counterexample :
  (Quantity zero_sell == 0)%Q /\
  process_sell zero_sell held_10 <> Return held_10 /\
  process_sell zero_sell held_10 = Raise ZeroDivisionError /\
  process_transactions [buy_row "X" 10 100; zero_sell] = Raise ZeroDivisionError.
Proof.
  split; [reflexivity |]. split; [discriminate |]. split; reflexivity.
Qed.

(** ** C4: the average-cost block of a sell *)




(** ** C5: the enhanced-sales row *)

(** What the claim says of a sell, given the exit state [f] of its FIFO loop:
    the row appended and the extra gain booked when the FIFO match falls
    short of the declared quantity, nothing otherwise. *)
Definition enhanced_sale (row : Row) (st : State) (f : Matching) (st' : State) : Prop :=
  let asset := Asset row in
  let y := year (UTC_Timestamp row) in
  let q := Quantity row in
  let m := matched_fifo_of row st in
  let p := sale_price_of row in
  ((m < q)%Q ->
     exists e : Enhanced,
       enhanced_transactions st' = enhanced_transactions st ++ [e] /\
       e_Asset e = asset /\ e_Quantity e = q /\ e_Matched_Quantity e = m /\
       e_Enhanced_Quantity e = (q - m)%Q /\
       e_Sale_Price_in_CAD e = p /\
       e_Enhanced_Transaction_Value_in_CAD e = ((q - m) * p)%Q /\
       fifo_gains st' = add_gain (m_gains f) asset y ((q - m) * p)%Q /\
       gain_of (fifo_gains st') asset y = (gain_of (m_gains f) asset y + (q - m) * p)%Q) /\
  (~ (m < q)%Q ->
     enhanced_transactions st' = enhanced_transactions st /\
     fifo_gains st' = m_gains f).

(** C5.  A sell of a non-zero quantity appends one enhanced-sales row when
    the quantity matched against the FIFO lots is strictly below the declared
    quantity, and none otherwise, whatever the LIFO lots hold; the row carries
    the quantity [declared - matched] and the value of that quantity at the
    sale price, and the same value is added to the FIFO ledger on top of what
    the FIFO loop booked. *)
Theorem sell_enhanced_record (row : Row) (st : State) :
  ~ (Quantity row == 0)%Q ->
  exists st' f l, process_sell row st = Return st' /\
                  sell_loops row st f l /\ enhanced_sale row st f st'.
Proof.
  intros Hq. destruct (process_sell_returns row st Hq) as [st' Hst'].
  pose proof Hst' as Hinv.
  apply process_sell_inv in Hinv as (_ & f & l & L & O).
  exists st', f, l. split; [exact Hst' |]. split; [exact L |].
  destruct O as (_ & _ & _ & Hfifo & _ & _ & Henh).
  unfold enhanced_sale. cbv zeta. split.
  - intros Hlt.
    assert (E : Qgtb (Quantity row - matched_fifo_of row st) 0 = true)
      by (apply Qgtb_true; lra).
    rewrite E in Hfifo, Henh.
    exists (enhanced_row row st). rewrite Henh, Hfifo, gain_of_add_gain.
    repeat split; reflexivity.
  - intros Hge.
    assert (E : Qgtb (Quantity row - matched_fifo_of row st) 0 = false)
      by (apply Qgtb_false; destruct (Qlt_le_dec (matched_fifo_of row st) (Quantity row));
          [contradiction | lra]).
    rewrite E in Hfifo, Henh. split; assumption.
Qed.

Lemma sell_enhanced_record_witness :
  ~ (Quantity (sell_row "X" 12 150) == 0)%Q /\
  exists st' f l, process_sell (sell_row "X" 12 150) held_10 = Return st' /\
                  sell_loops (sell_row "X" 12 150) held_10 f l /\
                  enhanced_sale (sell_row "X" 12 150) held_10 f st'.
Proof.
  assert (H : ~ (Quantity (sell_row "X" 12 150) == 0)%Q) by (intros E; discriminate E).
  split; [exact H |].
  exact (sell_enhanced_record (sell_row "X" 12 150) held_10 H).
Defined.

(** ** What the FIFO and LIFO blocks take out of the lots, in exact arithmetic *)

Lemma matched_through_gained asset y sp (s t : Matching) :
  matched_through asset y sp s t -> match_cond t = false ->
  (0 <= m_remaining s)%Q -> (m_remaining s <= available (m_lots s))%Q ->
  gained (m_gains s) (m_gains t) asset y
    (m_remaining s * sp - (lots_cost (m_lots s) - lots_cost (m_lots t)))%Q.
Proof.
  intros M Hc H0 Hle.
  pose proof (matched_through_exit asset y sp s t M Hc H0 Hle) as Hz.
  destruct M as (_ & _ & _ & G & _).
  eapply gained_compat; [exact G |].
  assert (E : ((m_remaining s - m_remaining t) * sp == m_remaining s * sp)%Q)
    by (apply Qmult_comp; [lra | reflexivity]).
  lra.
Qed.

(** The addend for the unmatched quantity completes the gain of the matched
    one to the whole proceeds [q * sp], less the cost [c] taken out. *)
Lemma unmatched_gained (g g' : Ledger) asset y (q m sp c : Q) :
  gained g g' asset y (m * sp - c)%Q -> (m <= q)%Q ->
  gained g (if Qgtb (q - m) 0 then add_gain g' asset y ((q - m) * sp)%Q else g')
    asset y (q * sp - c)%Q.
Proof.
  intros G Hle. case_gt (q - m)%Q 0%Q.
  - eapply gained_trans; [exact G | apply gained_add_gain | ring].
  - eapply gained_compat; [exact G |].
    assert (E : (m * sp == q * sp)%Q) by (apply Qmult_comp; [lra | reflexivity]).
    lra.
Qed.

(** FIFO: a prefix of lots is consumed whole, adding up to [m] unless the
    next lot is split; the split lot keeps a positive quantity. *)
Definition fifo_consumed (lots lots' : list Lot) (m : Q) : Prop :=
  exists consumed rest, lots = consumed ++ rest /\
    ((lots' = rest /\ (available consumed == m)%Q) \/
     (exists lot lot' rest', rest = lot :: rest' /\ lots' = lot' :: rest' /\
        (available consumed < m)%Q /\ (m < available consumed + quantity lot)%Q /\
        split_of lot lot' (m - available consumed) /\ (0 < quantity lot')%Q)).

(** LIFO: the same from the newest end. *)
Definition lifo_consumed (lots lots' : list Lot) (m : Q) : Prop :=
  exists rest consumed, lots = rest ++ consumed /\
    ((lots' = rest /\ (available consumed == m)%Q) \/
     (exists lot lot' rest', rest = rest' ++ [lot] /\ lots' = rest' ++ [lot'] /\
        (available consumed < m)%Q /\ (m < available consumed + quantity lot)%Q /\
        split_of lot lot' (m - available consumed) /\ (0 < quantity lot')%Q)).

Lemma fifo_shape_consumed (s t : Matching) (m : Q) :
  fifo_shape s t -> (m_remaining t == 0)%Q -> (m_remaining s == m)%Q ->
  fifo_consumed (m_lots s) (m_lots t) m.
Proof.
  intros (consumed & rest & Hs & Hcase) Hz Hm.
  exists consumed, rest. split; [exact Hs |].
  destruct Hcase as [[Ht Hrem] | (lot & lot' & rest' & Hr & Ht & H1 & H2 & H3 & _)].
  - left. split; [exact Ht | lra].
  - right. exists lot, lot', rest'.
    split; [exact Hr |]. split; [exact Ht |]. split; [lra |]. split; [lra |].
    split; [eapply split_of_compat; [exact H3 | lra] |].
    destruct H3 as (Hq & _). lra.
Qed.

Lemma lifo_shape_consumed (s t : Matching) (m : Q) :
  lifo_shape s t -> (m_remaining t == 0)%Q -> (m_remaining s == m)%Q ->
  lifo_consumed (m_lots s) (m_lots t) m.
Proof.
  intros (rest & consumed & Hs & Hcase) Hz Hm.
  exists rest, consumed. split; [exact Hs |].
  destruct Hcase as [[Ht Hrem] | (lot & lot' & rest' & Hr & Ht & H1 & H2 & H3 & _)].
  - left. split; [exact Ht | lra].
  - right. exists lot, lot', rest'.
    split; [exact Hr |]. split; [exact Ht |]. split; [lra |]. split; [lra |].
    split; [eapply split_of_compat; [exact H3 | lra] |].
    destruct H3 as (Hq & _). lra.
Qed.

(** What the claim says of a sell: the quantity leaving each inventory, the
    lots it leaves from, and the gain booked, the unmatched excess at zero
    cost basis. *)
Definition sell_consumes (row : Row) (st st' : State) : Prop :=
  let asset := Asset row in
  let y := year (UTC_Timestamp row) in
  let q := Quantity row in
  let p := sale_price_of row in
  let F := lots_of (buy_lots_fifo st) asset in
  let F' := lots_of (buy_lots_fifo st') asset in
  let L := lots_of (buy_lots_lifo st) asset in
  let L' := lots_of (buy_lots_lifo st') asset in
  let mF := Qmin q (available F) in
  let mL := Qmin q (available L) in
  (available F' == available F - mF)%Q /\
  (available L' == available L - mL)%Q /\
  fifo_consumed F F' mF /\
  lifo_consumed L L' mL /\
  (gain_of (fifo_gains st') asset y ==
     gain_of (fifo_gains st) asset y
     + (mF * p - (lots_cost F - lots_cost F')) + (q - mF) * p)%Q /\
  (gain_of (lifo_gains st') asset y ==
     gain_of (lifo_gains st) asset y
     + (mL * p - (lots_cost L - lots_cost L')) + (q - mL) * p)%Q.

(** In exact arithmetic, on inventories that hold a non-negative total, a
    sell of a positive quantity [q] takes exactly [min(q, available)] units
    out of the FIFO lots from the oldest end and out of the LIFO lots from the
    newest end: the lots consumed whole are removed, the boundary lot is split
    and keeps a positive quantity, and the excess [q - min(q, available)] is
    booked at the sale price with no cost against it. *)
Lemma sell_consumes_exact (row : Row) (st : State) :
  (0 < Quantity row)%Q ->
  (0 <= available (lots_of (buy_lots_fifo st) (Asset row)))%Q ->
  (0 <= available (lots_of (buy_lots_lifo st) (Asset row)))%Q ->
  exists st', process_sell row st = Return st' /\ sell_consumes row st st'.
Proof.
  intros Hq HF HL.
  assert (Hq0 : ~ (Quantity row == 0)%Q) by lra.
  destruct (process_sell_returns row st Hq0) as [st' Hst'].
  exists st'. split; [exact Hst' |].
  apply process_sell_inv in Hst' as (_ & f & l & ([nf Wf] & [nl Wl]) & O).
  destruct O as (HF' & HL' & _ & Gf & Gl & _ & _).
  pose proof (while_fifo_matched _ _ _ _ _ _ _ Wf) as Mf.
  pose proof (while_lifo_matched _ _ _ _ _ _ _ Wl) as Ml.
  pose proof (while_do_exit _ _ _ _ _ _ Wf) as Ef.
  pose proof (while_do_exit _ _ _ _ _ _ Wl) as El.
  pose proof (while_fifo_shape _ _ _ _ _ _ _ Wf) as Sf.
  pose proof (while_lifo_shape _ _ _ _ _ _ _ Wl) as Sl.
  set (F := lots_of (buy_lots_fifo st) (Asset row)) in *.
  set (L := lots_of (buy_lots_lifo st) (Asset row)) in *.
  pose proof (py_min_Qmin (Quantity row) (available F)) as EmF.
  pose proof (py_min_Qmin (Quantity row) (available L)) as EmL.
  pose proof (py_min_le_l (Quantity row) (available F)) as HlF.
  pose proof (py_min_le_l (Quantity row) (available L)) as HlL.
  pose proof (py_min_le_r (Quantity row) (available F)) as HrF.
  pose proof (py_min_le_r (Quantity row) (available L)) as HrL.
  assert (H0F : (0 <= py_min (Quantity row) (available F))%Q)
    by (destruct (py_min_spec (Quantity row) (available F)) as [[? ->] | [? ->]]; lra).
  assert (H0L : (0 <= py_min (Quantity row) (available L))%Q)
    by (destruct (py_min_spec (Quantity row) (available L)) as [[? ->] | [? ->]]; lra).
  pose proof (matched_through_exit _ _ _ _ _ Mf Ef H0F HrF) as Zf.
  pose proof (matched_through_exit _ _ _ _ _ Ml El H0L HrL) as Zl.
  pose proof (matched_through_gained _ _ _ _ _ Mf Ef H0F HrF) as Gnf.
  pose proof (matched_through_gained _ _ _ _ _ Ml El H0L HrL) as Gnl.
  pose proof (unmatched_gained _ _ _ _ (Quantity row) _ _ _ Gnf HlF) as (Tf & _).
  pose proof (unmatched_gained _ _ _ _ (Quantity row) _ _ _ Gnl HlL) as (Tl & _).
  destruct Mf as (_ & _ & Af & _ & _). destruct Ml as (_ & _ & Al & _ & _).
  unfold sell_consumes. cbv zeta.
  rewrite HF', HL', Gf, Gl, !lots_of_insert. fold F L.
  unfold fifo_entry, lifo_entry, matched_fifo_of, matched_lifo_of in *.
  cbn [m_lots m_remaining m_gains] in *. fold F L in Af, Al, Tf, Tl, Zf, Zl |- *.
  split; [lra |]. split; [lra |].
  split; [exact (fifo_shape_consumed _ _ _ Sf Zf EmF) |].
  split; [exact (lifo_shape_consumed _ _ _ Sl Zl EmL) |].
  split; lra.
Qed.

(** ** C2: the unmatched quantity under the average-cost method *)

(** The gain the average-cost block books for a sell: the whole declared
    quantity is charged the average unit cost, the part that exceeds the
    holdings included. *)
Lemma average_cost_charges_unmatched (row : Row) (st st' : State) :
  process_sell row st = Return st' ->
  let q := Quantity row in
  let p := sale_price_of row in
  let avg := avg_of (avg_totals st) (Asset row) in
  let m := py_min q (avg_quantity avg) in
  (gain_of (avg_cost_gains st') (Asset row) (year (UTC_Timestamp row)) ==
   gain_of (avg_cost_gains st) (Asset row) (year (UTC_Timestamp row))
   + m * (p - avg_cost_of avg) + (q - m) * (p - avg_cost_of avg))%Q.
Proof.
  intros H. apply process_sell_inv in H as (_ & f & l & _ & O).
  destruct O as (_ & _ & _ & _ & _ & Hgain & _).
  cbv zeta. rewrite Hgain, gain_of_add_gain. ring.
Qed.

(** C2, at [BUY 1 @ 100] then [SELL 2 @ 150] of one asset.  One unit is
    matched and one is not.  FIFO and LIFO book [1 * 150 - 100] for the
    matched unit and [1 * 150] for the unmatched one, 200 in all.  The
    average-cost block books [2 * (150 - 100) = 100]: the unmatched unit
    contributes [1 * (150 - 100)], not [1 * 150]. *)
Theorem average_cost_unmatched_divergence :
  exists st,
    process_transactions [buy_row "X" 1 100; sell_row "X" 2 150] = Return st /\
    (gain_of (fifo_gains st) "X" 2020 == (1 * 150 - 1 * 100) + 1 * 150)%Q /\
    (gain_of (lifo_gains st) "X" 2020 == (1 * 150 - 1 * 100) + 1 * 150)%Q /\
    (gain_of (avg_cost_gains st) "X" 2020 == 1 * (150 - 100) + 1 * (150 - 100))%Q /\
    ~ (gain_of (avg_cost_gains st) "X" 2020 == 1 * (150 - 100) + 1 * 150)%Q.
Proof.
  eexists. split; [vm_compute; reflexivity |].
  repeat split; try (vm_compute; reflexivity).
  vm_compute. discriminate.
Qed.

(** ** Reachable stores *)

Lemma bind_Return {A B : Type} (m : outcome A) (k : A -> outcome B) (b : B) :
  bind m k = Return b -> exists a, m = Return a /\ k a = Return b.
Proof. destruct m; simpl; try discriminate. eauto. Qed.

Lemma process_rows_app (rows1 rows2 : list Row) (st : State) :
  process_rows (rows1 ++ rows2) st = bind (process_rows rows1 st) (process_rows rows2).
Proof.
  revert st. induction rows1 as [| r rows1 IH]; intros st; simpl; [reflexivity |].
  destruct (process_row r st); simpl; auto.
Qed.

Lemma process_rows_snoc (rows : list Row) (r : Row) (st0 st' : State) :
  process_rows (rows ++ [r]) st0 = Return st' ->
  exists st, process_rows rows st0 = Return st /\ process_row r st = Return st'.
Proof.
  rewrite process_rows_app. intros H. apply bind_Return in H as (st & H1 & H2).
  exists st. split; [exact H1 |]. simpl in H2.
  destruct (process_row r st); simpl in H2; congruence.
Qed.

(** Induction over the stores the driver reaches from the empty ones. *)
Lemma reachable_ind (P : list Row -> State -> Prop) :
  P [] initial_state ->
  (forall rows r st st',
     process_rows rows initial_state = Return st -> P rows st ->
     process_row r st = Return st' -> P (rows ++ [r]) st') ->
  forall rows st, process_rows rows initial_state = Return st -> P rows st.
Proof.
  intros H0 Hstep rows. induction rows as [| r rows IH] using rev_ind; intros st H.
  - simpl in H. injection H as <-. exact H0.
  - apply process_rows_snoc in H as (st1 & H1 & H2). eauto.
Qed.

(** The three ways a row is handled. *)
Lemma process_row_inv (r : Row) (st st' : State) :
  process_row r st = Return st' ->
  (ttype r = "BUY" /\ st' = process_buy r st) \/
  (ttype r = "SELL" /\ process_sell r st = Return st') \/
  (ttype r <> "BUY" /\ ttype r <> "SELL" /\ st' = st).
Proof.
  unfold process_row.
  destruct (String.eqb_spec (ttype r) "BUY") as [Hb | Hb].
  - intros [= <-]. left. auto.
  - destruct (String.eqb_spec (ttype r) "SELL") as [Hs | Hs].
    + intros H. right. left. auto.
    + intros [= <-]. right. right. auto.
Qed.

(** The transactions of the data model: a positive quantity, a unit price and
    a total value that are not negative. *)
Definition valid_transaction (r : Row) : Prop :=
  (0 < Quantity r)%Q /\ (0 <= Asset_Price_in_CAD r)%Q /\
  (0 <= Transaction_Value_in_CAD r)%Q.

(** No sell of the stream declares the quantity zero. *)
Definition no_zero_sell (rows : list Row) : Prop :=
  Forall (fun r => ttype r = "SELL" -> ~ (Quantity r == 0)%Q) rows.

Lemma process_rows_returns (rows : list Row) (st : State) :
  no_zero_sell rows -> exists st', process_rows rows st = Return st'.
Proof.
  intros H. revert st. induction H as [| r rows Hr _ IH]; intros st; simpl; [eauto |].
  unfold process_row.
  destruct (String.eqb_spec (ttype r) "BUY") as [Hb | Hb]; simpl; [apply IH |].
  destruct (String.eqb_spec (ttype r) "SELL") as [Hs | Hs]; simpl; [| apply IH].
  destruct (process_sell_returns r st (Hr Hs)) as [st1 ->]. simpl. apply IH.
Qed.

Lemma valid_no_zero_sell (rows : list Row) :
  Forall valid_transaction rows -> no_zero_sell rows.
Proof.
  unfold no_zero_sell. intros H. eapply Forall_impl; [exact H |].
  intros r (Hq & _) _. lra.
Qed.

Lemma Forall_take_rows (P : Row -> Prop) (n : nat) (rows : list Row) :
  Forall P rows -> Forall P (take n rows).
Proof. apply Forall_take. Qed.

(** ** The FIFO and LIFO inventories hold the same total, in exact arithmetic *)


(** What a sell takes out of each inventory of its asset; the inventories of
    the other assets are not touched. *)
Lemma sell_available (r : Row) (st st' : State) :
  process_sell r st = Return st' ->
  (available (lots_of (buy_lots_fifo st') (Asset r)) ==
   available (lots_of (buy_lots_fifo st) (Asset r)) - py_max 0 (matched_fifo_of r st))%Q /\
  (available (lots_of (buy_lots_lifo st') (Asset r)) ==
   available (lots_of (buy_lots_lifo st) (Asset r)) - py_max 0 (matched_lifo_of r st))%Q /\
  (forall asset, asset <> Asset r ->
     lots_of (buy_lots_fifo st') asset = lots_of (buy_lots_fifo st) asset /\
     lots_of (buy_lots_lifo st') asset = lots_of (buy_lots_lifo st) asset).
Proof.
  intros H. apply process_sell_inv in H as (_ & f & l & ([nf Wf] & [nl Wl]) & O).
  destruct O as (HF' & HL' & _).
  pose proof (while_fifo_matched _ _ _ _ _ _ _ Wf) as Mf.
  pose proof (while_lifo_matched _ _ _ _ _ _ _ Wl) as Ml.
  pose proof (while_do_exit _ _ _ _ _ _ Wf) as Ef.
  pose proof (while_do_exit _ _ _ _ _ _ Wl) as El.
  rewrite HF', HL', !lots_of_insert.
  split; [| split].
  - apply (matched_through_available _ _ _ _ _ Mf Ef). apply py_min_le_r.
  - apply (matched_through_available _ _ _ _ _ Ml El). apply py_min_le_r.
  - intros asset Hne. now rewrite !lots_of_insert_ne.
Qed.

Lemma buy_lots (r : Row) (st : State) (asset : string) :
  let lot := {| quantity := Quantity r; price := Asset_Price_in_CAD r;
                timestamp := UTC_Timestamp r |} in
  (asset = Asset r ->
     lots_of (buy_lots_fifo (process_buy r st)) asset
       = lots_of (buy_lots_fifo st) asset ++ [lot] /\
     lots_of (buy_lots_lifo (process_buy r st)) asset
       = lots_of (buy_lots_lifo st) asset ++ [lot]) /\
  (asset <> Asset r ->
     lots_of (buy_lots_fifo (process_buy r st)) asset = lots_of (buy_lots_fifo st) asset /\
     lots_of (buy_lots_lifo (process_buy r st)) asset = lots_of (buy_lots_lifo st) asset).
Proof.
  cbv zeta. unfold process_buy. simpl. split.
  - intros ->. now rewrite !lots_of_insert.
  - intros Hne. now rewrite !lots_of_insert_ne.
Qed.



(** Three buys, then a sell that FIFO and LIFO match against different
    lots. *)
Definition three_lots_one_sell : list Row :=
  [buy_row "X" 1 10; buy_row "X" 2 20; buy_row "X" 3 30; sell_row "X" (5 # 2) 50].

(** The stores a stream leaves, the empty ones when the run fails. *)
Definition stores_after (rows : list Row) : State :=
  match process_rows rows initial_state with
  | Return st => st
  | _ => initial_state
  end.

(** ** C9: the average-cost totals are never negative *)

Lemma average_nonneg_step (r : Row) (st st' : State) :
  valid_transaction r ->
  (forall asset, (0 <= avg_quantity (avg_of (avg_totals st) asset))%Q /\
                 (0 <= total_cost (avg_of (avg_totals st) asset))%Q) ->
  process_row r st = Return st' ->
  forall asset, (0 <= avg_quantity (avg_of (avg_totals st') asset))%Q /\
                (0 <= total_cost (avg_of (avg_totals st') asset))%Q.
Proof.
  intros (Hq & _ & Hv) IH H asset.
  apply process_row_inv in H as [[_ ->] | [[_ H] | (_ & _ & ->)]]; [| | apply IH].
  - unfold process_buy. simpl.
    destruct (decide (asset = Asset r)) as [-> | E].
    + rewrite avg_of_insert. simpl. destruct (IH (Asset r)). split; lra.
    + rewrite avg_of_insert_ne by exact E. apply IH.
  - apply process_sell_inv in H as (_ & f & l & _ & O).
    destruct O as (_ & _ & -> & _).
    destruct (decide (asset = Asset r)) as [-> | E].
    + rewrite avg_of_insert. simpl. split; apply py_max_0_nonneg.
    + rewrite avg_of_insert_ne by exact E. apply IH.
Qed.

(** C9.  On a stream of transactions of the data model, the driver gets
    through every prefix, and after it the cumulative quantity and the
    cumulative cost of every asset are not negative. *)
Theorem average_cost_nonnegative (rows : list Row) (n : nat) :
  Forall valid_transaction rows ->
  exists st, process_rows (take n rows) initial_state = Return st /\
    forall asset, (0 <= avg_quantity (avg_of (avg_totals st) asset))%Q /\
                  (0 <= total_cost (avg_of (avg_totals st) asset))%Q.
Proof.
  intros Hv. apply (Forall_take_rows _ n) in Hv.
  destruct (process_rows_returns (take n rows) initial_state (valid_no_zero_sell _ Hv))
    as [st Hst].
  exists st. split; [exact Hst |].
  revert Hv. generalize (take n rows) st Hst. clear.
  apply (reachable_ind (fun pre st =>
           Forall valid_transaction pre ->
           forall asset, (0 <= avg_quantity (avg_of (avg_totals st) asset))%Q /\
                         (0 <= total_cost (avg_of (avg_totals st) asset))%Q)).
  - intros _ asset. unfold avg_of. simpl. rewrite lookup_empty. simpl. split; lra.
  - intros pre r st st' _ IH H Hv. apply Forall_app in Hv as [Hpre Hr].
    rewrite Forall_singleton in Hr.
    exact (average_nonneg_step r st st' Hr (IH Hpre) H).
Qed.

Lemma average_cost_nonnegative_witness :
  Forall valid_transaction three_lots_one_sell /\
  exists st, process_rows (take 4 three_lots_one_sell) initial_state = Return st /\
    forall asset, (0 <= avg_quantity (avg_of (avg_totals st) asset))%Q /\
                  (0 <= total_cost (avg_of (avg_totals st) asset))%Q.
Proof.
  assert (Hv : Forall valid_transaction three_lots_one_sell).
  { repeat constructor; simpl; try reflexivity; discriminate. }
  split; [exact Hv |].
  exact (average_cost_nonnegative three_lots_one_sell 4 Hv).
Defined.

(** ** C7: total gain when everything bought is sold, in exact arithmetic *)

(** The sum of [f] over the elements of a list that satisfy [p]. *)
Definition sum_where {A : Type} (p : A -> bool) (f : A -> Q) (l : list A) : Q :=
  fold_right (fun x acc => if p x then (f x + acc)%Q else acc) 0%Q l.

Definition is_buy_of (asset : string) (r : Row) : bool :=
  String.eqb (ttype r) "BUY" && String.eqb (Asset r) asset.

Definition is_sell_of (asset : string) (r : Row) : bool :=
  String.eqb (ttype r) "SELL" && String.eqb (Asset r) asset.

(** Quantity bought and sold, what the purchases cost and what the sales
    brought, for one asset over a stream. *)
Definition bought_quantity (rows : list Row) (asset : string) : Q :=
  sum_where (is_buy_of asset) Quantity rows.

Definition sold_quantity (rows : list Row) (asset : string) : Q :=
  sum_where (is_sell_of asset) Quantity rows.








Lemma row_kind_buy (r : Row) (asset : string) :
  ttype r = "BUY" ->
  is_buy_of asset r = String.eqb (Asset r) asset /\ is_sell_of asset r = false.
Proof. intros H. unfold is_buy_of, is_sell_of. rewrite H. split; reflexivity. Qed.

Lemma row_kind_sell (r : Row) (asset : string) :
  ttype r = "SELL" ->
  is_sell_of asset r = String.eqb (Asset r) asset /\ is_buy_of asset r = false.
Proof. intros H. unfold is_buy_of, is_sell_of. rewrite H. split; reflexivity. Qed.









(** Two buys sold off by one sell. *)
Definition two_lots_sold_off : list Row :=
  [buy_row "X" 1 10; buy_row "X" 2 20; sell_row "X" 3 50].



(** ** C8: the report *)

Lemma string_le_iff (s1 s2 : string) :
  string_le s1 s2 <-> s1 = s2 \/ String_as_OT.lt s1 s2.
Proof.
  unfold string_le, String.leb.
  destruct (String.compare s1 s2) eqn:E.
  - apply String_as_OT.cmp_eq in E. tauto.
  - apply String_as_OT.cmp_lt in E. tauto.
  - split; [discriminate |]. intros [H | H].
    + apply String_as_OT.cmp_eq in H. unfold String_as_OT.cmp in H. congruence.
    + apply String_as_OT.cmp_lt in H. unfold String_as_OT.cmp in H. congruence.
Qed.

#[global] Instance string_le_trans : Transitive string_le.
Proof.
  intros s1 s2 s3. rewrite !string_le_iff. intros [-> | H12] [-> | H23]; auto.
  right. eapply String_as_OT.lt_trans; eauto.
Qed.

#[global] Instance string_le_total : Total string_le.
Proof. intros s1 s2. apply String.leb_total. Qed.

#[global] Instance report_order_trans : Transitive report_order.
Proof.
  intros r1 r2 r3 [H12 | [E12 L12]] [H23 | [E23 L23]]; unfold report_order.
  - left. lia.
  - left. lia.
  - left. lia.
  - right. split; [lia |]. etrans; eauto.
Qed.

#[global] Instance report_order_total : Total report_order.
Proof.
  intros r1 r2. unfold report_order.
  destruct (Z.lt_trichotomy (Year r1) (Year r2)) as [H | [H | H]]; [right; left; lia | | tauto].
  destruct (string_le_total (r_Asset r1) (r_Asset r2)); [left | right]; right; auto.
Qed.

(** The (asset, year) pair is a key of the ledger. *)
Definition pair_in (g : Ledger) (asset : string) (y : Z) : Prop :=
  exists m, g !! asset = Some m /\ is_Some (m !! y).

Definition row_key (r : ReportRow) : string * Z := (r_Asset r, Year r).

Lemma pair_in_years (g : Ledger) (asset : string) (y : Z) :
  pair_in g asset y <-> y ∈ dom (years_of g asset).
Proof.
  rewrite elem_of_dom. unfold pair_in, years_of. split.
  - intros (m & -> & H). exact H.
  - destruct (g !! asset) as [m |]; simpl; [eauto |].
    rewrite lookup_empty. intros [? [=]].
Qed.

Lemma pair_in_asset (g : Ledger) (asset : string) (y : Z) :
  pair_in g asset y -> asset ∈ dom g.
Proof. intros (m & H & _). apply elem_of_dom. eauto. Qed.

Lemma gain_of_absent (g : Ledger) (asset : string) (y : Z) :
  ~ pair_in g asset y -> gain_of g asset y = 0%Q.
Proof.
  rewrite pair_in_years, not_elem_of_dom. unfold gain_of. now intros ->.
Qed.

Lemma report_years_spec (f l a : Ledger) (asset : string) (y : Z) :
  y ∈ report_years f l a asset <->
  pair_in f asset y \/ pair_in l asset y \/ pair_in a asset y.
Proof.
  unfold report_years. rewrite !elem_of_union, !pair_in_years. tauto.
Qed.

(** The rows before the final sort: one per asset of a ledger and year under
    which a ledger holds that asset. *)
Lemma report_rows_elem (f l a : Ledger) (r : ReportRow) :
  r ∈ data (generate_report_df f l a) <->
  exists asset y, r = report_row f l a asset y /\ y ∈ report_years f l a asset.
Proof.
  unfold generate_report_df. cbn [data].
  rewrite merge_sort_Permutation, list_elem_of_bind. split.
  - intros (asset & Hr & _). apply list_elem_of_fmap in Hr as (y & -> & Hy).
    rewrite merge_sort_Permutation, elem_of_elements in Hy. eauto.
  - intros (asset & y & -> & Hy). exists asset. split.
    + apply list_elem_of_fmap. exists y. split; [reflexivity |].
      now rewrite merge_sort_Permutation, elem_of_elements.
    + rewrite merge_sort_Permutation, elem_of_elements, !elem_of_union.
      apply report_years_spec in Hy as [H | [H | H]]; apply pair_in_asset in H; tauto.
Qed.

Lemma report_rows_NoDup (f l a : Ledger) :
  NoDup (row_key <$> data (generate_report_df f l a)).
Proof.
  unfold generate_report_df. cbn [data]. rewrite merge_sort_Permutation.
  apply NoDup_fmap_2_strong.
  - intros r1 r2 H1 H2 Hk.
    apply list_elem_of_bind in H1 as (a1 & H1 & _).
    apply list_elem_of_bind in H2 as (a2 & H2 & _).
    apply list_elem_of_fmap in H1 as (y1 & -> & _).
    apply list_elem_of_fmap in H2 as (y2 & -> & _).
    unfold row_key in Hk. simpl in Hk. now injection Hk as -> ->.
  - apply NoDup_bind.
    + intros a1 a2 r _ _ H1 H2.
      apply list_elem_of_fmap in H1 as (y1 & -> & _).
      apply list_elem_of_fmap in H2 as (y2 & E & _).
      now injection E.
    + intros asset _. apply NoDup_fmap_2_strong.
      * intros y1 y2 _ _ E. now injection E.
      * rewrite merge_sort_Permutation. apply NoDup_elements.
    + rewrite merge_sort_Permutation. apply NoDup_elements.
Qed.

(** C8.  For any three ledgers the report has the columns Year, Asset, LIFO
    gain, FIFO gain, ACB gain; it has exactly one row for each (asset, year)
    pair that is a key of one of the ledgers and no other row; a row carries
    the entry of each ledger for its pair, 0 where the ledger lacks the pair;
    the rows come by year descending, then by asset ascending. *)
Theorem report_rows (fifo lifo acb : Ledger) :
  let df := generate_report_df fifo lifo acb in
  columns df = ["Year"; "Asset"; "LIFO G&L"; "FIFO G&L"; "ACB G&L"] /\
  NoDup (row_key <$> data df) /\
  (forall asset y,
     (asset, y) ∈ row_key <$> data df <->
     pair_in fifo asset y \/ pair_in lifo asset y \/ pair_in acb asset y) /\
  (forall r, r ∈ data df ->
     LIFO_GL r = gain_of lifo (r_Asset r) (Year r) /\
     FIFO_GL r = gain_of fifo (r_Asset r) (Year r) /\
     ACB_GL r = gain_of acb (r_Asset r) (Year r)) /\
  (forall g asset y, ~ pair_in g asset y -> gain_of g asset y = 0%Q) /\
  StronglySorted report_order (data df).
Proof.
  cbv zeta. split; [reflexivity |]. split; [apply report_rows_NoDup |].
  split; [| split; [| split]].
  - intros asset y. rewrite list_elem_of_fmap. split.
    + intros (r & Hk & Hr). apply report_rows_elem in Hr as (asset' & y' & -> & Hy).
      unfold row_key in Hk. simpl in Hk. injection Hk as -> ->.
      now apply report_years_spec.
    + intros H. exists (report_row fifo lifo acb asset y). split; [reflexivity |].
      apply report_rows_elem. exists asset, y. split; [reflexivity |].
      now apply report_years_spec.
  - intros r Hr. apply report_rows_elem in Hr as (asset & y & -> & _).
    repeat split.
  - exact gain_of_absent.
  - unfold generate_report_df. cbn [data]. apply StronglySorted_merge_sort; apply _.
Qed.

(** ** The scenarios of the specification *)

(** [BUY 10 @ 100] then [SELL 4 @ 150]: each method books 200; one lot of 6
    at 100 stays in each inventory; the average-cost totals are 6 units and
    600. *)
Example scenario_partial_sell :
  exists st,
    process_transactions [buy_row "X" 10 100; sell_row "X" 4 150] = Return st /\
    (gain_of (fifo_gains st) "X" 2020 == 200)%Q /\
    (gain_of (lifo_gains st) "X" 2020 == 200)%Q /\
    (gain_of (avg_cost_gains st) "X" 2020 == 200)%Q /\
    lots_of (buy_lots_fifo st) "X" = [{| quantity := 6; price := 100; timestamp := ts2020 |}] /\
    lots_of (buy_lots_lifo st) "X" = [{| quantity := 6; price := 100; timestamp := ts2020 |}] /\
    (avg_quantity (avg_of (avg_totals st) "X") == 6)%Q /\
    (total_cost (avg_of (avg_totals st) "X") == 600)%Q /\
    enhanced_transactions st = [].
Proof.
  eexists. split; [vm_compute; reflexivity |].
  repeat split; vm_compute; reflexivity.
Qed.

(** [SELL 2 @ 50] of an asset never bought: each method books 100 and one
    enhanced row is recorded, matched 0 and enhanced 2. *)
Example scenario_enhanced_sell :
  exists st e,
    process_transactions [sell_row "ETH" 2 50] = Return st /\
    (gain_of (fifo_gains st) "ETH" 2020 == 100)%Q /\
    (gain_of (lifo_gains st) "ETH" 2020 == 100)%Q /\
    (gain_of (avg_cost_gains st) "ETH" 2020 == 100)%Q /\
    enhanced_transactions st = [e] /\
    (e_Matched_Quantity e == 0)%Q /\ (e_Enhanced_Quantity e == 2)%Q.
Proof.
  eexists. eexists. split; [vm_compute; reflexivity |].
  repeat split; vm_compute; reflexivity.
Qed.

(** The report of the two-asset ledgers of a small run. *)
Example scenario_report :
  exists st,
    process_transactions
      [buy_row "ETH" 1 10; buy_row "BTC" 1 20; sell_row "ETH" 1 30; sell_row "BTC" 1 50]
      = Return st /\
    (fun r => (Year r, r_Asset r)) <$>
      data (generate_report_df (fifo_gains st) (lifo_gains st) (avg_cost_gains st))
      = [(2020%Z, "BTC"); (2020%Z, "ETH")].
Proof.
  eexists. split; [vm_compute; reflexivity |]. vm_compute. reflexivity.
Qed.

(** * Beyond the claims *)

(** ** The driver skips the rows it does not recognise *)

(** The rows the driver dispatches: those of type BUY or SELL. *)
Definition recognised (r : Row) : bool :=
  String.eqb (ttype r) "BUY" || String.eqb (ttype r) "SELL".

Lemma process_row_unrecognised (r : Row) (st : State) :
  recognised r = false -> process_row r st = Return st.
Proof.
  unfold recognised, process_row. intros H. apply orb_false_iff in H as [-> ->].
  reflexivity.
Qed.

Lemma process_rows_cons (r : Row) (rows : list Row) (st : State) :
  process_rows (r :: rows) st = bind (process_row r st) (process_rows rows).
Proof. reflexivity. Qed.

(** A stream and the stream without its rows of other types run alike: the
    same stores, or the same error. *)
Theorem unrecognised_rows_ignored (rows : list Row) (st : State) :
  process_rows rows st = process_rows (List.filter recognised rows) st.
Proof.
  revert st. induction rows as [| r rows IH]; intros st; [reflexivity |].
  cbn [List.filter]. destruct (recognised r) eqn:E.
  - rewrite !process_rows_cons. destruct (process_row r st); simpl; auto.
  - rewrite process_rows_cons, (process_row_unrecognised r st E). simpl. apply IH.
Qed.

(** ** The list of enhanced sales *)

Lemma process_row_enhanced (r : Row) (st st' : State) :
  process_row r st = Return st' ->
  enhanced_transactions st' = enhanced_transactions st \/
  (ttype r = "SELL" /\
   (matched_fifo_of r st < Quantity r)%Q /\
   enhanced_transactions st' = enhanced_transactions st ++ [enhanced_row r st]).
Proof.
  intros H. apply process_row_inv in H as [[_ ->] | [[Ht H] | (_ & _ & ->)]]; auto.
  apply process_sell_inv in H as (_ & f & l & _ & O).
  destruct O as (_ & _ & _ & _ & _ & _ & Henh).
  revert Henh. case_gt (Quantity r - matched_fifo_of r st)%Q 0%Q; intros ->; auto.
  right. split; [exact Ht |]. split; [lra | reflexivity].
Qed.

Lemma process_rows_enhanced_prefix (rows : list Row) (st st' : State) :
  process_rows rows st = Return st' ->
  enhanced_transactions st `prefix_of` enhanced_transactions st'.
Proof.
  revert st. induction rows as [| r rows IH]; intros st H.
  - injection H as <-. reflexivity.
  - rewrite process_rows_cons in H. apply bind_Return in H as (st1 & H1 & H2).
    etrans; [| exact (IH _ H2)].
    destruct (process_row_enhanced r st st1 H1) as [-> | (_ & _ & ->)];
      [reflexivity | now apply prefix_app_r].
Qed.

(** The list only grows at its end: what a prefix of the stream has
    recorded stays, in place and unchanged, when the rest is processed. *)
Theorem enhanced_append_only (rows1 rows2 : list Row) (st0 st1 st2 : State) :
  process_rows rows1 st0 = Return st1 ->
  process_rows (rows1 ++ rows2) st0 = Return st2 ->
  enhanced_transactions st1 `prefix_of` enhanced_transactions st2.
Proof.
  intros H1 H2. rewrite process_rows_app, H1 in H2. simpl in H2.
  exact (process_rows_enhanced_prefix rows2 st1 st2 H2).
Qed.

Lemma enhanced_append_only_witness :
  process_rows [sell_row "X" 1 7] initial_state
    = Return (stores_after [sell_row "X" 1 7]) /\
  process_rows ([sell_row "X" 1 7] ++ [buy_row "X" 1 10; sell_row "X" 3 5]) initial_state
    = Return (stores_after ([sell_row "X" 1 7] ++ [buy_row "X" 1 10; sell_row "X" 3 5])) /\
  enhanced_transactions (stores_after [sell_row "X" 1 7]) `prefix_of`
    enhanced_transactions
      (stores_after ([sell_row "X" 1 7] ++ [buy_row "X" 1 10; sell_row "X" 3 5])).
Proof.
  assert (H1 : process_rows [sell_row "X" 1 7] initial_state
               = Return (stores_after [sell_row "X" 1 7])) by (vm_compute; reflexivity).
  assert (H2 : process_rows ([sell_row "X" 1 7] ++ [buy_row "X" 1 10; sell_row "X" 3 5])
                 initial_state
               = Return (stores_after
                           ([sell_row "X" 1 7] ++ [buy_row "X" 1 10; sell_row "X" 3 5])))
    by (vm_compute; reflexivity).
  split; [exact H1 |]. split; [exact H2 |].
  exact (enhanced_append_only _ _ _ _ _ H1 H2).
Defined.

(** What every recorded row says: it comes from a row of the stream that the
    driver dispatched as a SELL, copies its timestamp, asset and quantity and
    its type cell as the frame holds it (not the normalised type), carries a
    positive enhanced quantity equal to the declared less the matched one,
    valued at the sale price, and the status "enhanced". *)
Definition enhanced_of_row (r : Row) (e : Enhanced) : Prop :=
  ttype r = "SELL" /\
  e_UTC_Timestamp e = UTC_Timestamp r /\
  e_Asset e = Asset r /\
  e_Transaction_Type e = Transaction_Type r /\
  e_Quantity e = Quantity r /\
  e_Sale_Price_in_CAD e = sale_price_of r.

Definition enhanced_well_formed (e : Enhanced) : Prop :=
  e_Data_Status e = "enhanced" /\
  (0 < e_Enhanced_Quantity e)%Q /\
  e_Enhanced_Quantity e = (e_Quantity e - e_Matched_Quantity e)%Q /\
  e_Enhanced_Transaction_Value_in_CAD e
    = (e_Enhanced_Quantity e * e_Sale_Price_in_CAD e)%Q.

(** The SELL rows of a stream. *)
Definition sell_rows (rows : list Row) : list Row :=
  List.filter (fun r => String.eqb (ttype r) "SELL") rows.

Lemma sell_rows_snoc (rows : list Row) (r : Row) :
  sell_rows (rows ++ [r]) =
  sell_rows rows ++ (if String.eqb (ttype r) "SELL" then [r] else []).
Proof.
  unfold sell_rows. rewrite List.filter_app. simpl.
  destruct (String.eqb (ttype r) "SELL"); reflexivity.
Qed.

Theorem enhanced_rows_sound (rows : list Row) (st : State) :
  process_rows rows initial_state = Return st ->
  Forall (fun e => enhanced_well_formed e /\ exists r, r ∈ rows /\ enhanced_of_row r e)
    (enhanced_transactions st) /\
  (length (enhanced_transactions st) <= length (sell_rows rows))%nat.
Proof.
  revert rows st.
  apply (reachable_ind (fun rows st =>
    Forall (fun e => enhanced_well_formed e /\ exists r, r ∈ rows /\ enhanced_of_row r e)
      (enhanced_transactions st) /\
    (length (enhanced_transactions st) <= length (sell_rows rows))%nat)).
  - split; [constructor | simpl; lia].
  - intros rows r st st' _ [IH Hlen] H.
    assert (IH' : Forall (fun e => enhanced_well_formed e /\
                            exists r0, r0 ∈ rows ++ [r] /\ enhanced_of_row r0 e)
                    (enhanced_transactions st)).
    { eapply Forall_impl; [exact IH |]. intros e (Hw & r0 & Hin & Hr0).
      split; [exact Hw |]. exists r0. split; [| exact Hr0].
      apply elem_of_app. now left. }
    rewrite sell_rows_snoc, length_app.
    destruct (process_row_enhanced r st st' H) as [-> | (Ht & Hlt & ->)].
    + split; [exact IH' | lia].
    + split.
      * apply Forall_app. split; [exact IH' |]. apply Forall_singleton. split.
        -- repeat split; simpl. lra.
        -- exists r. split; [apply elem_of_app; right; apply list_elem_of_singleton;
                             reflexivity |].
           repeat split; auto.
      * rewrite length_app, Ht. simpl. lia.
Qed.

(** A sell whose type cell is not in normal form, then a buy. *)
Definition sold_in_lower_case : list Row :=
  [{| UTC_Timestamp := ts2020; Transaction_Type := " sell "; ttype := "SELL";
      Asset := "X"; Quantity := 1; Asset_Price_in_CAD := 7;
      Transaction_Value_in_CAD := 7 |};
   buy_row "X" 1 10].

Lemma enhanced_rows_sound_witness :
  process_rows sold_in_lower_case initial_state = Return (stores_after sold_in_lower_case) /\
  Forall (fun e => enhanced_well_formed e /\
                   exists r, r ∈ sold_in_lower_case /\ enhanced_of_row r e)
    (enhanced_transactions (stores_after sold_in_lower_case)) /\
  (length (enhanced_transactions (stores_after sold_in_lower_case))
   <= length (sell_rows sold_in_lower_case))%nat.
Proof.
  assert (H : process_rows sold_in_lower_case initial_state
              = Return (stores_after sold_in_lower_case)) by (vm_compute; reflexivity).
  split; [exact H |].
  exact (enhanced_rows_sound sold_in_lower_case _ H).
Defined.

(** ** The three methods hold the same quantity, in exact arithmetic *)



(** ** No lot of quantity zero is kept *)

(** Every lot of the inventory holds a positive quantity. *)
Definition lots_positive (lots : list Lot) : Prop :=
  Forall (fun lot => (0 < quantity lot)%Q) lots.

Lemma lots_positive_nonneg (lots : list Lot) : lots_positive lots -> lots_nonneg lots.
Proof. intros H. eapply Forall_impl; [exact H |]. intros lot Hq. simpl in Hq. lra. Qed.

Lemma lots_positive_empty (lots : list Lot) :
  lots_positive lots -> (available lots == 0)%Q -> lots = [].
Proof.
  intros Hp Hz. destruct Hp as [| lot lots Hq Hrest]; [reflexivity |].
  pose proof (available_cons lot lots).
  pose proof (available_nonneg lots (lots_positive_nonneg lots Hrest)). lra.
Qed.

Lemma fifo_body_positive asset y sp (s : Matching) :
  match_cond s = true -> lots_positive (m_lots s) ->
  lots_positive (m_lots (fifo_body asset y sp s)).
Proof.
  intros Hc Hp.
  destruct (fifo_body_step asset y sp s Hc)
    as [(lot & rest & Hl & Hlt & _ & ->) | (lot & rest & Hl & _ & _ & ->)];
    rewrite Hl in Hp; inversion Hp as [| ? ? Hq Hrest]; subst.
  - constructor; [simpl; lra | exact Hrest].
  - exact Hrest.
Qed.

Lemma lifo_body_positive asset y sp (s : Matching) :
  match_cond s = true -> lots_positive (m_lots s) ->
  lots_positive (m_lots (lifo_body asset y sp s)).
Proof.
  intros Hc Hp.
  destruct (lifo_body_step asset y sp s Hc)
    as [(lot & rest & Hl & Hlt & _ & ->) | (lot & rest & Hl & _ & _ & ->)];
    rewrite Hl in Hp; apply Forall_app in Hp as [Hrest Hq];
    rewrite Forall_singleton in Hq.
  - apply Forall_app. split; [exact Hrest |]. apply Forall_singleton. simpl. lra.
  - exact Hrest.
Qed.

Lemma sell_lots_positive (r : Row) (st st' : State) (asset : string) :
  process_sell r st = Return st' ->
  lots_positive (lots_of (buy_lots_fifo st) asset) ->
  lots_positive (lots_of (buy_lots_lifo st) asset) ->
  lots_positive (lots_of (buy_lots_fifo st') asset) /\
  lots_positive (lots_of (buy_lots_lifo st') asset).
Proof.
  intros H PF PL.
  destruct (sell_available r st st' H) as (_ & _ & Hother).
  apply process_sell_inv in H as (_ & f & l & ([nf Wf] & [nl Wl]) & O).
  destruct O as (HF' & HL' & _).
  destruct (decide (asset = Asset r)) as [-> | E].
  - rewrite HF', HL', !lots_of_insert. split.
    + exact (while_do_invariant _ _ (fun s => lots_positive (m_lots s))
               (fifo_body_positive _ _ _) _ _ _ _ Wf PF).
    + exact (while_do_invariant _ _ (fun s => lots_positive (m_lots s))
               (lifo_body_positive _ _ _) _ _ _ _ Wl PL).
  - destruct (Hother asset E) as [-> ->]. split; assumption.
Qed.

(** Over a stream of transactions of the data model, every lot kept in the
    FIFO or in the LIFO inventory of an asset holds a positive quantity: a lot
    that a sell brings to zero is removed. *)
Theorem lots_stay_positive (rows : list Row) (st : State) (asset : string) :
  Forall valid_transaction rows ->
  process_rows rows initial_state = Return st ->
  lots_positive (lots_of (buy_lots_fifo st) asset) /\
  lots_positive (lots_of (buy_lots_lifo st) asset).
Proof.
  intros Hv H. revert asset. revert Hv. revert rows st H.
  apply (reachable_ind (fun rows st =>
           Forall valid_transaction rows ->
           forall asset, lots_positive (lots_of (buy_lots_fifo st) asset) /\
                         lots_positive (lots_of (buy_lots_lifo st) asset))).
  - intros _ asset. unfold lots_of. simpl. rewrite !lookup_empty. split; constructor.
  - intros rows r st st' _ IH H Hv asset.
    apply Forall_app in Hv as [Hrows Hr]. rewrite Forall_singleton in Hr.
    destruct (IH Hrows asset) as [PF PL]. destruct Hr as (Hq & _).
    apply process_row_inv in H as [[_ ->] | [[_ H] | (_ & _ & ->)]]; [| | auto].
    + destruct (buy_lots r st asset) as [Heq Hne].
      destruct (decide (asset = Asset r)) as [E | E].
      * destruct (Heq E) as [-> ->].
        split; (apply Forall_app; split; [assumption |]);
          apply Forall_singleton; exact Hq.
      * destruct (Hne E) as [-> ->]. auto.
    + exact (sell_lots_positive r st st' asset H PF PL).
Qed.

Lemma lots_stay_positive_witness :
  Forall valid_transaction three_lots_one_sell /\
  process_rows three_lots_one_sell initial_state
    = Return (stores_after three_lots_one_sell) /\
  lots_positive (lots_of (buy_lots_fifo (stores_after three_lots_one_sell)) "X") /\
  lots_positive (lots_of (buy_lots_lifo (stores_after three_lots_one_sell)) "X").
Proof.
  assert (Hv : Forall valid_transaction three_lots_one_sell).
  { repeat constructor; simpl; try reflexivity; discriminate. }
  assert (H : process_rows three_lots_one_sell initial_state
              = Return (stores_after three_lots_one_sell)) by (vm_compute; reflexivity).
  split; [exact Hv |]. split; [exact H |].
  exact (lots_stay_positive three_lots_one_sell _ "X" Hv H).
Defined.

(** ** The keys of the ledgers are the sells *)

Lemma while_do_relates_exit {S : Type} (cond : S -> bool) (body : S -> S)
    (R : S -> S -> Prop) :
  (forall s, cond s = false -> R s s) ->
  (forall s t, cond s = true -> R (body s) t -> R s t) ->
  forall fuel s s' n, while_do cond body fuel s = Some (s', n) -> R s s'.
Proof.
  intros Hstop Hstep fuel. induction fuel as [| fuel IH]; intros s s' n; simpl.
  - destruct (cond s) eqn:E; [discriminate |]. intros [= <- <-]. now apply Hstop.
  - destruct (cond s) eqn:E; [| intros [= <- <-]; now apply Hstop].
    destruct (while_do cond body fuel (body s)) as [[s1 n1] |] eqn:W; [| discriminate].
    intros [= <- <-]. apply Hstep; [exact E |]. eapply IH, W.
Qed.

Lemma pair_in_add_gain (g : Ledger) (asset asset' : string) (y y' : Z) (x : Q) :
  pair_in (add_gain g asset y x) asset' y' <->
  pair_in g asset' y' \/ (asset' = asset /\ y' = y).
Proof.
  rewrite !pair_in_years.
  destruct (decide (asset' = asset)) as [-> | E].
  - rewrite years_of_add_gain, dom_insert, elem_of_union, elem_of_singleton. tauto.
  - rewrite years_of_add_gain_ne by exact E. tauto.
Qed.

(** [keys_through asset y s t]: from [s] to [t] the ledger of the loop keeps
    its keys and gains at most the key [(asset, y)], which it has at [t] when
    the loop took a turn. *)
Definition keys_through (asset : string) (y : Z) (s t : Matching) : Prop :=
  (forall a' y', pair_in (m_gains s) a' y' -> pair_in (m_gains t) a' y') /\
  (forall a' y', pair_in (m_gains t) a' y' ->
     pair_in (m_gains s) a' y' \/ (a' = asset /\ y' = y)) /\
  (match_cond s = true -> pair_in (m_gains t) asset y).

Lemma fifo_body_gains asset y sp (s : Matching) :
  match_cond s = true ->
  exists x, m_gains (fifo_body asset y sp s) = add_gain (m_gains s) asset y x.
Proof.
  intros Hc. apply match_cond_true in Hc as [_ Hne].
  destruct s as [lots rem g]; simpl in *.
  destruct lots as [| lot rest]; [contradiction |].
  unfold fifo_body; simpl. destruct (Qgtb (quantity lot) rem); simpl; eauto.
Qed.

Lemma lifo_body_gains asset y sp (s : Matching) :
  match_cond s = true ->
  exists x, m_gains (lifo_body asset y sp s) = add_gain (m_gains s) asset y x.
Proof.
  intros Hc. apply match_cond_true in Hc as [_ Hne].
  destruct s as [lots rem g]; simpl in *.
  destruct (last_nonempty lots Hne) as [lot Hl].
  unfold lifo_body; simpl. rewrite Hl. destruct (Qgtb (quantity lot) rem); simpl; eauto.
Qed.

Lemma keys_through_turn asset y (s u t : Matching) (x : Q) :
  m_gains u = add_gain (m_gains s) asset y x ->
  keys_through asset y u t -> keys_through asset y s t.
Proof.
  intros Hu (K1 & K2 & _). split; [| split].
  - intros a' y' H. apply K1. rewrite Hu. apply pair_in_add_gain. now left.
  - intros a' y' H. apply K2 in H as [H | H]; [| now right].
    rewrite Hu in H. now apply pair_in_add_gain in H.
  - intros _. apply K1. rewrite Hu. apply pair_in_add_gain. now right.
Qed.

Lemma while_fifo_keys asset y sp (fuel : nat) (s t : Matching) (n : nat) :
  while_do match_cond (fifo_body asset y sp) fuel s = Some (t, n) ->
  keys_through asset y s t.
Proof.
  apply (while_do_relates_exit match_cond (fifo_body asset y sp) (keys_through asset y)).
  - intros u Hc. split; [auto |]. split; [auto | congruence].
  - intros u v Hc Hv. destruct (fifo_body_gains asset y sp u Hc) as [x Hx].
    exact (keys_through_turn asset y u _ v x Hx Hv).
Qed.

Lemma while_lifo_keys asset y sp (fuel : nat) (s t : Matching) (n : nat) :
  while_do match_cond (lifo_body asset y sp) fuel s = Some (t, n) ->
  keys_through asset y s t.
Proof.
  apply (while_do_relates_exit match_cond (lifo_body asset y sp) (keys_through asset y)).
  - intros u Hc. split; [auto |]. split; [auto | congruence].
  - intros u v Hc Hv. destruct (lifo_body_gains asset y sp u Hc) as [x Hx].
    exact (keys_through_turn asset y u _ v x Hx Hv).
Qed.

(** [keys_grow g g' asset y]: [g'] has the keys of [g] and at most
    [(asset, y)] more. *)
Definition keys_grow (g g' : Ledger) (asset : string) (y : Z) : Prop :=
  (forall a' y', pair_in g a' y' -> pair_in g' a' y') /\
  (forall a' y', pair_in g' a' y' -> pair_in g a' y' \/ (a' = asset /\ y' = y)).

(** The ledger of a method after the loop and the addend for the unmatched
    quantity: it has the key of the sell when the declared quantity is
    positive. *)
Lemma method_keys asset y (s t : Matching) (q sp : Q) :
  keys_through asset y s t ->
  m_remaining s = py_min q (available (m_lots s)) ->
  let g' := if Qgtb (q - m_remaining s) 0
            then add_gain (m_gains t) asset y ((q - m_remaining s) * sp)%Q
            else m_gains t in
  keys_grow (m_gains s) g' asset y /\ ((0 < q)%Q -> pair_in g' asset y).
Proof.
  intros (K1 & K2 & K3) Hm. cbv zeta. case_gt (q - m_remaining s)%Q 0%Q.
  - split; [split |].
    + intros a' y' H. apply pair_in_add_gain. left. now apply K1.
    + intros a' y' H. apply pair_in_add_gain in H as [H | H]; [now apply K2 | now right].
    + intros _. apply pair_in_add_gain. now right.
  - split; [split; assumption |]. intros Hq. apply K3. apply match_cond_true.
    pose proof (py_min_le_r q (available (m_lots s))) as Hle. rewrite <- Hm in Hle.
    split; [lra |]. intros E. rewrite E, available_nil in Hle. lra.
Qed.

Lemma sell_keys (r : Row) (st st' : State) :
  process_sell r st = Return st' ->
  let asset := Asset r in
  let y := year (UTC_Timestamp r) in
  keys_grow (fifo_gains st) (fifo_gains st') asset y /\
  keys_grow (lifo_gains st) (lifo_gains st') asset y /\
  keys_grow (avg_cost_gains st) (avg_cost_gains st') asset y /\
  pair_in (avg_cost_gains st') asset y /\
  ((0 < Quantity r)%Q ->
     pair_in (fifo_gains st') asset y /\ pair_in (lifo_gains st') asset y).
Proof.
  intros H. apply process_sell_inv in H as (_ & f & l & ([nf Wf] & [nl Wl]) & O).
  destruct O as (_ & _ & _ & -> & -> & -> & _). cbv zeta.
  pose proof (while_fifo_keys _ _ _ _ _ _ _ Wf) as Kf.
  pose proof (while_lifo_keys _ _ _ _ _ _ _ Wl) as Kl.
  destruct (method_keys _ _ _ _ (Quantity r) (sale_price_of r) Kf eq_refl) as [GF PF].
  destruct (method_keys _ _ _ _ (Quantity r) (sale_price_of r) Kl eq_refl) as [GL PL].
  split; [exact GF |]. split; [exact GL |]. split; [| split].
  - split.
    + intros a' y' H. apply pair_in_add_gain. now left.
    + intros a' y' H. now apply pair_in_add_gain in H.
  - apply pair_in_add_gain. now right.
  - intros Hq. split; [exact (PF Hq) | exact (PL Hq)].
Qed.

(** The (asset, year) pair of a SELL row of the stream. *)
Definition sold_in (rows : list Row) (asset : string) (y : Z) : Prop :=
  exists r, r ∈ rows /\ ttype r = "SELL" /\
            Asset r = asset /\ year (UTC_Timestamp r) = y.

Lemma sold_in_snoc (rows : list Row) (r : Row) (asset : string) (y : Z) :
  sold_in (rows ++ [r]) asset y <->
  sold_in rows asset y \/
  (ttype r = "SELL" /\ Asset r = asset /\ year (UTC_Timestamp r) = y).
Proof.
  unfold sold_in. split.
  - intros (r0 & Hin & H). apply elem_of_app in Hin as [Hin | Hin].
    + left. eauto.
    + apply list_elem_of_singleton in Hin. subst r0. now right.
  - intros [(r0 & Hin & H) | H].
    + exists r0. split; [apply elem_of_app; now left | exact H].
    + exists r. split; [apply elem_of_app; right; now apply list_elem_of_singleton | exact H].
Qed.

Lemma pair_in_empty (asset : string) (y : Z) : ~ pair_in (∅ : Ledger) asset y.
Proof. intros (m & H & _). rewrite lookup_empty in H. discriminate. Qed.

Lemma ledger_keys_from_sells (rows : list Row) (st : State) :
  process_rows rows initial_state = Return st ->
  forall asset y,
    pair_in (fifo_gains st) asset y \/ pair_in (lifo_gains st) asset y \/
    pair_in (avg_cost_gains st) asset y ->
    sold_in rows asset y.
Proof.
  revert rows st.
  apply (reachable_ind (fun rows st =>
    forall asset y,
      pair_in (fifo_gains st) asset y \/ pair_in (lifo_gains st) asset y \/
      pair_in (avg_cost_gains st) asset y -> sold_in rows asset y)).
  - intros asset y [H | [H | H]]; exfalso; exact (pair_in_empty _ _ H).
  - intros rows r st st' _ IH H asset y Hk. apply sold_in_snoc.
    apply process_row_inv in H as [[_ ->] | [[Ht H] | (_ & _ & ->)]]; [left; auto | | left; auto].
    pose proof (sell_keys r st st' H) as K. cbv zeta in K.
    destruct K as ((_ & KF) & (_ & KL) & (_ & KA) & _).
    destruct Hk as [Hk | [Hk | Hk]];
      [apply KF in Hk | apply KL in Hk | apply KA in Hk];
      (destruct Hk as [Hk | [-> ->]]; [left; apply IH; tauto | right; auto]).
Qed.

Lemma sells_in_ledger_keys (rows : list Row) (st : State) :
  Forall valid_transaction rows ->
  process_rows rows initial_state = Return st ->
  forall asset y, sold_in rows asset y ->
    pair_in (fifo_gains st) asset y /\ pair_in (lifo_gains st) asset y /\
    pair_in (avg_cost_gains st) asset y.
Proof.
  intros Hv H. revert Hv. revert rows st H.
  apply (reachable_ind (fun rows st =>
    Forall valid_transaction rows ->
    forall asset y, sold_in rows asset y ->
      pair_in (fifo_gains st) asset y /\ pair_in (lifo_gains st) asset y /\
      pair_in (avg_cost_gains st) asset y)).
  - intros _ asset y (r & Hin & _). inversion Hin.
  - intros rows r st st' _ IH H Hv asset y Hs.
    apply Forall_app in Hv as [Hrows Hr]. rewrite Forall_singleton in Hr.
    destruct Hr as (Hq & _). specialize (IH Hrows asset y).
    apply sold_in_snoc in Hs.
    apply process_row_inv in H as [[Ht ->] | [[Ht H] | (_ & Ht & ->)]].
    + destruct Hs as [Hs | (Hs & _)]; [exact (IH Hs) | congruence].
    + pose proof (sell_keys r st st' H) as K. cbv zeta in K.
      destruct K as ((KF & _) & (KL & _) & (KA & _) & PA & PFL).
      destruct (PFL Hq) as [PF PL].
      destruct Hs as [Hs | (_ & <- & <-)].
      * destruct (IH Hs) as (? & ? & ?). auto.
      * auto.
    + destruct Hs as [Hs | (Hs & _)]; [exact (IH Hs) | congruence].
Qed.

(** Over a stream of transactions of the data model, the three ledgers have
    the same keys: the (asset, year) pairs of the SELL rows of the stream. *)
Theorem ledger_keys_are_the_sells (rows : list Row) (st : State) (asset : string) (y : Z) :
  Forall valid_transaction rows ->
  process_rows rows initial_state = Return st ->
  (pair_in (fifo_gains st) asset y <-> sold_in rows asset y) /\
  (pair_in (lifo_gains st) asset y <-> sold_in rows asset y) /\
  (pair_in (avg_cost_gains st) asset y <-> sold_in rows asset y).
Proof.
  intros Hv H.
  pose proof (ledger_keys_from_sells rows st H asset y) as K1.
  pose proof (sells_in_ledger_keys rows st Hv H asset y) as K2.
  repeat split; intros; try tauto.
Qed.

Lemma ledger_keys_are_the_sells_witness :
  Forall valid_transaction three_lots_one_sell /\
  process_rows three_lots_one_sell initial_state
    = Return (stores_after three_lots_one_sell) /\
  (pair_in (fifo_gains (stores_after three_lots_one_sell)) "X" 2020
   <-> sold_in three_lots_one_sell "X" 2020) /\
  (pair_in (lifo_gains (stores_after three_lots_one_sell)) "X" 2020
   <-> sold_in three_lots_one_sell "X" 2020) /\
  (pair_in (avg_cost_gains (stores_after three_lots_one_sell)) "X" 2020
   <-> sold_in three_lots_one_sell "X" 2020).
Proof.
  assert (Hv : Forall valid_transaction three_lots_one_sell).
  { repeat constructor; simpl; try reflexivity; discriminate. }
  assert (H : process_rows three_lots_one_sell initial_state
              = Return (stores_after three_lots_one_sell)) by (vm_compute; reflexivity).
  split; [exact Hv |]. split; [exact H |].
  exact (ledger_keys_are_the_sells three_lots_one_sell _ "X" 2020 Hv H).
Defined.

(** The report of a run over such a stream has one row for each (asset,
    year) pair of its SELL rows and no other; no entry of a row is a default:
    each of the three ledgers holds the pair. *)
Theorem report_lists_the_sells (rows : list Row) (st : State) :
  Forall valid_transaction rows ->
  process_rows rows initial_state = Return st ->
  let df := generate_report_df (fifo_gains st) (lifo_gains st) (avg_cost_gains st) in
  NoDup (row_key <$> data df) /\
  (forall asset y, (asset, y) ∈ row_key <$> data df <-> sold_in rows asset y) /\
  (forall r, r ∈ data df ->
     pair_in (fifo_gains st) (r_Asset r) (Year r) /\
     pair_in (lifo_gains st) (r_Asset r) (Year r) /\
     pair_in (avg_cost_gains st) (r_Asset r) (Year r)).
Proof.
  intros Hv H. cbv zeta. split; [apply report_rows_NoDup |]. split.
  - intros asset y. rewrite list_elem_of_fmap. split.
    + intros (r & Hk & Hr). apply report_rows_elem in Hr as (asset' & y' & -> & Hy).
      unfold row_key in Hk. simpl in Hk. injection Hk as -> ->.
      apply report_years_spec in Hy.
      exact (ledger_keys_from_sells rows st H asset' y' Hy).
    + intros Hs.
      destruct (sells_in_ledger_keys rows st Hv H asset y Hs) as (PF & _).
      exists (report_row (fifo_gains st) (lifo_gains st) (avg_cost_gains st) asset y).
      split; [reflexivity |]. apply report_rows_elem. exists asset, y.
      split; [reflexivity |]. apply report_years_spec. now left.
  - intros r Hr. apply report_rows_elem in Hr as (asset & y & -> & Hy). simpl.
    apply report_years_spec in Hy.
    apply (sells_in_ledger_keys rows st Hv H asset y).
    exact (ledger_keys_from_sells rows st H asset y Hy).
Qed.

Lemma report_lists_the_sells_witness :
  Forall valid_transaction three_lots_one_sell /\
  process_rows three_lots_one_sell initial_state
    = Return (stores_after three_lots_one_sell) /\
  let st := stores_after three_lots_one_sell in
  let df := generate_report_df (fifo_gains st) (lifo_gains st) (avg_cost_gains st) in
  NoDup (row_key <$> data df) /\
  (forall asset y, (asset, y) ∈ row_key <$> data df <->
                   sold_in three_lots_one_sell asset y) /\
  (forall r, r ∈ data df ->
     pair_in (fifo_gains st) (r_Asset r) (Year r) /\
     pair_in (lifo_gains st) (r_Asset r) (Year r) /\
     pair_in (avg_cost_gains st) (r_Asset r) (Year r)).
Proof.
  assert (Hv : Forall valid_transaction three_lots_one_sell).
  { repeat constructor; simpl; try reflexivity; discriminate. }
  assert (H : process_rows three_lots_one_sell initial_state
              = Return (stores_after three_lots_one_sell)) by (vm_compute; reflexivity).
  split; [exact Hv |]. split; [exact H |].
  exact (report_lists_the_sells three_lots_one_sell _ Hv H).
Defined.

(** ** The report, built twice *)

Lemma years_of_read_entry (g : Ledger) (asset asset' : string) :
  years_of (read_entry g asset) asset' = years_of g asset'.
Proof.
  unfold read_entry, years_of. destruct (g !! asset) as [m |] eqn:E; [reflexivity |].
  destruct (decide (asset' = asset)) as [-> | Hne].
  - now rewrite lookup_insert_eq, E.
  - rewrite lookup_insert_ne; [reflexivity | congruence].
Qed.

Lemma dom_read_entry (g : Ledger) (asset x : string) :
  x ∈ dom (read_entry g asset) <-> x = asset \/ x ∈ dom g.
Proof.
  unfold read_entry. destruct (g !! asset) as [m |] eqn:E.
  - split; [tauto |]. intros [-> | H]; [| exact H]. apply elem_of_dom. eauto.
  - rewrite dom_insert, elem_of_union, elem_of_singleton. reflexivity.
Qed.

Lemma years_of_after_report (g : Ledger) (assets : list string) (asset : string) :
  years_of (ledger_after_report g assets) asset = years_of g asset.
Proof.
  unfold ledger_after_report. revert g.
  induction assets as [| a assets IH]; intros g; simpl; [reflexivity |].
  now rewrite IH, years_of_read_entry.
Qed.

Lemma dom_after_report (g : Ledger) (assets : list string) (x : string) :
  x ∈ dom (ledger_after_report g assets) <-> x ∈ assets \/ x ∈ dom g.
Proof.
  unfold ledger_after_report. revert g.
  induction assets as [| a assets IH]; intros g; simpl.
  - rewrite elem_of_nil. tauto.
  - rewrite IH, dom_read_entry, elem_of_cons. tauto.
Qed.

Lemma gain_of_after_report (g : Ledger) (assets : list string) (asset : string) (y : Z) :
  gain_of (ledger_after_report g assets) asset y = gain_of g asset y.
Proof. unfold gain_of. now rewrite years_of_after_report. Qed.

Lemma report_assets_elem (f l a : Ledger) (x : string) :
  x ∈ report_assets f l a <-> x ∈ dom f ∪ dom l ∪ dom a.
Proof.
  unfold report_assets. now rewrite merge_sort_Permutation, elem_of_elements.
Qed.

(** The first call of [generate_report_df] leaves in each ledger an empty
    entry for every asset the ledger lacked and another ledger has; it changes
    no gain, and a second call on the ledgers so left gives the same frame. *)
Theorem report_built_twice (fifo lifo acb : Ledger) :
  let assets := report_assets fifo lifo acb in
  let fifo' := ledger_after_report fifo assets in
  let lifo' := ledger_after_report lifo assets in
  let acb' := ledger_after_report acb assets in
  generate_report_df fifo' lifo' acb' = generate_report_df fifo lifo acb /\
  dom fifo' = dom fifo ∪ dom lifo ∪ dom acb /\
  dom lifo' = dom fifo ∪ dom lifo ∪ dom acb /\
  dom acb' = dom fifo ∪ dom lifo ∪ dom acb /\
  (forall asset, years_of fifo' asset = years_of fifo asset /\
                 years_of lifo' asset = years_of lifo asset /\
                 years_of acb' asset = years_of acb asset).
Proof.
  cbv zeta.
  assert (D : forall g, g = fifo \/ g = lifo \/ g = acb ->
            dom (ledger_after_report g (report_assets fifo lifo acb))
            = dom fifo ∪ dom lifo ∪ dom acb).
  { intros g Hg. apply set_eq. intros x.
    rewrite dom_after_report, report_assets_elem.
    split; [| tauto]. intros [H | H]; [exact H |].
    rewrite !elem_of_union. destruct Hg as [-> | [-> | ->]]; tauto. }
  pose proof (D fifo (or_introl eq_refl)) as DF.
  pose proof (D lifo (or_intror (or_introl eq_refl))) as DL.
  pose proof (D acb (or_intror (or_intror eq_refl))) as DA.
  split; [| split; [exact DF | split; [exact DL | split; [exact DA |]]]].
  - unfold generate_report_df. f_equal. f_equal.
    apply list_bind_ext.
    + intros asset. unfold report_years. rewrite !years_of_after_report.
      apply list_fmap_ext. intros _ y _. unfold report_row.
      now rewrite !gain_of_after_report.
    + rewrite DF, DL, DA. f_equal. f_equal. apply set_eq. intros x.
      rewrite !elem_of_union. tauto.
  - intros asset. now rewrite !years_of_after_report.
Qed.

(** ** The report does not depend on how the rows are sorted *)

Lemma report_order_antisym_on_rows (f l a : Ledger) (r1 r2 : ReportRow) :
  r1 ∈ data (generate_report_df f l a) -> r2 ∈ data (generate_report_df f l a) ->
  report_order r1 r2 -> report_order r2 r1 -> r1 = r2.
Proof.
  intros H1 H2 O12 O21.
  apply report_rows_elem in H1 as (a1 & y1 & -> & _).
  apply report_rows_elem in H2 as (a2 & y2 & -> & _).
  unfold report_order in *. simpl in *.
  destruct O12 as [O12 | [E12 L12]]; destruct O21 as [O21 | [E21 L21]]; try lia.
  subst y2. now rewrite (String.leb_antisym a1 a2 L12 L21).
Qed.

(** Any arrangement of the rows of the report that goes by year descending
    and then by asset ascending is the report: the order of the rows is fixed
    by the sort keys, whatever the sorting algorithm. *)
Theorem report_order_fixes_the_rows (fifo lifo acb : Ledger) (rows : list ReportRow) :
  rows ≡ₚ data (generate_report_df fifo lifo acb) ->
  StronglySorted report_order rows ->
  rows = data (generate_report_df fifo lifo acb).
Proof.
  intros Hp Hs. symmetry.
  apply (StronglySorted_unique_strong report_order); [| | exact Hs | now symmetry].
  - intros r1 r2 H1 H2. rewrite Hp in H2.
    exact (report_order_antisym_on_rows fifo lifo acb r1 r2 H1 H2).
  - unfold generate_report_df. cbn [data]. apply StronglySorted_merge_sort; apply _.
Qed.

(** Two ledgers with literal entries, and the rows of their report. *)
Definition ledger_2020 : Ledger := {[ "ETH" := {[ 2020%Z := 5%Q ]} ]}.
Definition ledger_2021 : Ledger := {[ "BTC" := {[ 2021%Z := 7%Q ]} ]}.

Definition rows_2021_2020 : list ReportRow :=
  [ {| Year := 2021; r_Asset := "BTC"; LIFO_GL := 7; FIFO_GL := 0; ACB_GL := 0 |};
    {| Year := 2020; r_Asset := "ETH"; LIFO_GL := 0; FIFO_GL := 5; ACB_GL := 0 |} ].

Lemma report_order_fixes_the_rows_witness :
  rows_2021_2020 ≡ₚ data (generate_report_df ledger_2020 ledger_2021 ∅) /\
  StronglySorted report_order rows_2021_2020 /\
  rows_2021_2020 = data (generate_report_df ledger_2020 ledger_2021 ∅).
Proof.
  assert (Hp : rows_2021_2020 ≡ₚ data (generate_report_df ledger_2020 ledger_2021 ∅)).
  { replace (data (generate_report_df ledger_2020 ledger_2021 ∅)) with rows_2021_2020
      by (vm_compute; reflexivity).
    reflexivity. }
  assert (Hs : StronglySorted report_order rows_2021_2020).
  { repeat constructor. }
  split; [exact Hp |]. split; [exact Hs |].
  exact (report_order_fixes_the_rows ledger_2020 ledger_2021 ∅ rows_2021_2020 Hp Hs).
Defined.

(** ** The assets do not interact *)

(** Two sets of stores hold the same for one asset: its lots, its
    average-cost totals, its gains in the three ledgers and its enhanced
    sales. *)
Definition same_books (asset : string) (st1 st2 : State) : Prop :=
  lots_of (buy_lots_fifo st1) asset = lots_of (buy_lots_fifo st2) asset /\
  lots_of (buy_lots_lifo st1) asset = lots_of (buy_lots_lifo st2) asset /\
  avg_of (avg_totals st1) asset = avg_of (avg_totals st2) asset /\
  years_of (fifo_gains st1) asset = years_of (fifo_gains st2) asset /\
  years_of (lifo_gains st1) asset = years_of (lifo_gains st2) asset /\
  years_of (avg_cost_gains st1) asset = years_of (avg_cost_gains st2) asset /\
  List.filter (fun e => String.eqb (e_Asset e) asset) (enhanced_transactions st1)
  = List.filter (fun e => String.eqb (e_Asset e) asset) (enhanced_transactions st2).

Lemma same_books_refl (asset : string) (st : State) : same_books asset st st.
Proof. repeat split. Qed.

Lemma same_books_trans (asset : string) (st1 st2 st3 : State) :
  same_books asset st1 st2 -> same_books asset st2 st3 -> same_books asset st1 st3.
Proof.
  intros (A1 & A2 & A3 & A4 & A5 & A6 & A7) (B1 & B2 & B3 & B4 & B5 & B6 & B7).
  repeat split; etrans; eauto.
Qed.

Lemma same_books_sym (asset : string) (st1 st2 : State) :
  same_books asset st1 st2 -> same_books asset st2 st1.
Proof. intros (A1 & A2 & A3 & A4 & A5 & A6 & A7). repeat split; auto. Qed.

Lemma add_gain_same_years (g1 g2 : Ledger) (asset : string) (y : Z) (x : Q) :
  years_of g1 asset = years_of g2 asset ->
  years_of (add_gain g1 asset y x) asset = years_of (add_gain g2 asset y x) asset.
Proof.
  intros E. rewrite !years_of_add_gain. unfold gain_of. now rewrite E.
Qed.

(** Two loop states with the same lots, the same amount to match and the same
    gains of the asset. *)
Definition same_matching (asset : string) (s1 s2 : Matching) : Prop :=
  m_lots s1 = m_lots s2 /\ m_remaining s1 = m_remaining s2 /\
  years_of (m_gains s1) asset = years_of (m_gains s2) asset.

Lemma same_matching_cond (asset : string) (s1 s2 : Matching) :
  same_matching asset s1 s2 -> match_cond s1 = match_cond s2.
Proof. intros (El & Er & _). unfold match_cond. now rewrite El, Er. Qed.

Lemma fifo_body_same asset y sp (s1 s2 : Matching) :
  same_matching asset s1 s2 ->
  same_matching asset (fifo_body asset y sp s1) (fifo_body asset y sp s2).
Proof.
  destruct s1 as [lots1 rem1 g1], s2 as [lots2 rem2 g2].
  intros (El & Er & Eg). simpl in *. subst lots2 rem2.
  unfold fifo_body. simpl. destruct lots1 as [| lot rest]; [repeat split; auto |].
  destruct (Qgtb (quantity lot) rem1); repeat split; simpl; auto using add_gain_same_years.
Qed.

Lemma lifo_body_same asset y sp (s1 s2 : Matching) :
  same_matching asset s1 s2 ->
  same_matching asset (lifo_body asset y sp s1) (lifo_body asset y sp s2).
Proof.
  destruct s1 as [lots1 rem1 g1], s2 as [lots2 rem2 g2].
  intros (El & Er & Eg). simpl in *. subst lots2 rem2.
  unfold lifo_body. simpl. destruct (last lots1) as [lot |]; [| repeat split; auto].
  destruct (Qgtb (quantity lot) rem1); repeat split; simpl; auto using add_gain_same_years.
Qed.

Lemma while_do_same (asset : string) (body : Matching -> Matching) :
  (forall s1 s2, same_matching asset s1 s2 -> same_matching asset (body s1) (body s2)) ->
  forall fuel s1 s2 t1 t2 n1 n2,
    same_matching asset s1 s2 ->
    while_do match_cond body fuel s1 = Some (t1, n1) ->
    while_do match_cond body fuel s2 = Some (t2, n2) ->
    same_matching asset t1 t2.
Proof.
  intros Hbody fuel. induction fuel as [| fuel IH]; intros s1 s2 t1 t2 n1 n2 Hs; simpl;
    rewrite <- (same_matching_cond asset s1 s2 Hs); destruct (match_cond s1).
  - discriminate.
  - now intros [= <- <-] [= <- <-].
  - destruct (while_do match_cond body fuel (body s1)) as [[u1 m1] |] eqn:W1; [| discriminate].
    destruct (while_do match_cond body fuel (body s2)) as [[u2 m2] |] eqn:W2; [| discriminate].
    intros [= <- <-] [= <- <-]. exact (IH _ _ _ _ _ _ (Hbody _ _ Hs) W1 W2).
  - now intros [= <- <-] [= <- <-].
Qed.

Lemma filter_enhanced_snoc (asset : string) (es : list Enhanced) (e : Enhanced) :
  List.filter (fun e => String.eqb (e_Asset e) asset) (es ++ [e]) =
  List.filter (fun e => String.eqb (e_Asset e) asset) es
  ++ (if String.eqb (e_Asset e) asset then [e] else []).
Proof.
  rewrite List.filter_app. simpl. destruct (String.eqb (e_Asset e) asset); reflexivity.
Qed.

(** A sell does to the books of its asset the same thing on any two stores
    that hold the same for that asset. *)
Lemma sell_same_books (r : Row) (st1 st2 st1' st2' : State) :
  same_books (Asset r) st1 st2 ->
  process_sell r st1 = Return st1' -> process_sell r st2 = Return st2' ->
  same_books (Asset r) st1' st2'.
Proof.
  intros (A1 & A2 & A3 & A4 & A5 & A6 & A7) H1 H2.
  apply process_sell_inv in H1 as (_ & f1 & l1 & ([nf1 Wf1] & [nl1 Wl1]) & O1).
  apply process_sell_inv in H2 as (_ & f2 & l2 & ([nf2 Wf2] & [nl2 Wl2]) & O2).
  assert (Em : matched_fifo_of r st1 = matched_fifo_of r st2)
    by (unfold matched_fifo_of; now rewrite A1).
  assert (El : matched_lifo_of r st1 = matched_lifo_of r st2)
    by (unfold matched_lifo_of; now rewrite A2).
  assert (Sf : same_matching (Asset r) (fifo_entry r st1) (fifo_entry r st2))
    by (repeat split; simpl; auto).
  assert (Sl : same_matching (Asset r) (lifo_entry r st1) (lifo_entry r st2))
    by (repeat split; simpl; auto).
  assert (Lf : length (m_lots (fifo_entry r st1)) = length (m_lots (fifo_entry r st2)))
    by (simpl; now rewrite A1).
  assert (Ll : length (m_lots (lifo_entry r st1)) = length (m_lots (lifo_entry r st2)))
    by (simpl; now rewrite A2).
  rewrite Lf in Wf1. rewrite Ll in Wl1.
  destruct (while_do_same (Asset r) _ (fifo_body_same _ _ _) _ _ _ _ _ _ _ Sf Wf1 Wf2)
    as (F1 & _ & F3).
  destruct (while_do_same (Asset r) _ (lifo_body_same _ _ _) _ _ _ _ _ _ _ Sl Wl1 Wl2)
    as (L1 & _ & L3).
  destruct O1 as (P1 & P2 & P3 & P4 & P5 & P6 & P7).
  destruct O2 as (Q1 & Q2 & Q3 & Q4 & Q5 & Q6 & Q7).
  unfold same_books.
  rewrite P1, P2, P3, P4, P5, P6, P7, Q1, Q2, Q3, Q4, Q5, Q6, Q7.
  rewrite !lots_of_insert, !avg_of_insert, <- Em, <- El, <- A3.
  split; [exact F1 |]. split; [exact L1 |]. split; [reflexivity |].
  split; [| split; [| split]].
  - destruct (Qgtb (Quantity r - matched_fifo_of r st1) 0);
      auto using add_gain_same_years.
  - destruct (Qgtb (Quantity r - matched_lifo_of r st1) 0);
      auto using add_gain_same_years.
  - now apply add_gain_same_years.
  - assert (Er : enhanced_row r st1 = enhanced_row r st2)
      by (unfold enhanced_row; now rewrite Em).
    destruct (Qgtb (Quantity r - matched_fifo_of r st1) 0); [| exact A7].
    rewrite !filter_enhanced_snoc, A7, Er. reflexivity.
Qed.

Lemma buy_same_books (r : Row) (st1 st2 : State) :
  same_books (Asset r) st1 st2 ->
  same_books (Asset r) (process_buy r st1) (process_buy r st2).
Proof.
  intros (A1 & A2 & A3 & A4 & A5 & A6 & A7).
  unfold same_books, process_buy. simpl.
  rewrite !lots_of_insert, !avg_of_insert, A1, A2, A3.
  repeat split; assumption.
Qed.

(** A row of another asset leaves the books of the asset as they are. *)
Lemma other_asset_same_books (r : Row) (st st' : State) (asset : string) :
  Asset r <> asset -> process_row r st = Return st' -> same_books asset st' st.
Proof.
  intros Hne H.
  apply process_row_inv in H as [[_ ->] | [[_ H] | (_ & _ & ->)]];
    [| | apply same_books_refl].
  - unfold same_books, process_buy. simpl.
    rewrite !lots_of_insert_ne, !avg_of_insert_ne by congruence. repeat split.
  - destruct (sell_available r st st' H) as (_ & _ & Hother).
    destruct (Hother asset (not_eq_sym Hne)) as [HF HL].
    apply process_sell_inv in H as (_ & f & l & ([nf Wf] & [nl Wl]) & O).
    destruct (while_fifo_matched _ _ _ _ _ _ _ Wf) as (_ & _ & _ & (_ & _ & _ & YF) & _).
    destruct (while_lifo_matched _ _ _ _ _ _ _ Wl) as (_ & _ & _ & (_ & _ & _ & YL) & _).
    specialize (YF asset (not_eq_sym Hne)). specialize (YL asset (not_eq_sym Hne)).
    simpl in YF, YL.
    destruct O as (_ & _ & P3 & P4 & P5 & P6 & P7).
    unfold same_books. rewrite HF, HL, P3, P4, P5, P6, P7.
    rewrite avg_of_insert_ne by congruence.
    split; [reflexivity |]. split; [reflexivity |]. split; [reflexivity |].
    split; [| split; [| split]].
    + destruct (Qgtb (Quantity r - matched_fifo_of r st) 0); [| exact YF].
      rewrite years_of_add_gain_ne by congruence. exact YF.
    + destruct (Qgtb (Quantity r - matched_lifo_of r st) 0); [| exact YL].
      rewrite years_of_add_gain_ne by congruence. exact YL.
    + rewrite years_of_add_gain_ne by congruence. reflexivity.
    + destruct (Qgtb (Quantity r - matched_fifo_of r st) 0); [| reflexivity].
      rewrite filter_enhanced_snoc. simpl.
      destruct (String.eqb_spec (Asset r) asset); [contradiction |].
      now rewrite app_nil_r.
Qed.

Lemma process_rows_same_books (asset : string) (rows : list Row) (st1 st2 st1' : State) :
  same_books asset st1 st2 ->
  process_rows rows st1 = Return st1' ->
  exists st2',
    process_rows (List.filter (fun r => String.eqb (Asset r) asset) rows) st2 = Return st2' /\
    same_books asset st1' st2'.
Proof.
  revert st1 st2. induction rows as [| r rows IH]; intros st1 st2 Hs H.
  - injection H as <-. exists st2. split; [reflexivity | exact Hs].
  - rewrite process_rows_cons in H. apply bind_Return in H as (u1 & H1 & H2).
    cbn [List.filter]. destruct (String.eqb_spec (Asset r) asset) as [E | E].
    + subst asset. rewrite process_rows_cons.
      pose proof H1 as H1'.
      apply process_row_inv in H1' as [[Ht ->] | [[Ht Hsell] | (Hb & Hsl & ->)]].
      * assert (E2 : process_row r st2 = Return (process_buy r st2))
          by (unfold process_row; now rewrite Ht).
        rewrite E2. simpl. apply (IH _ _ (buy_same_books r st1 st2 Hs) H2).
      * destruct (process_sell_inv r st1 u1 Hsell) as (Hq0 & _).
        destruct (process_sell_returns r st2 Hq0) as [u2 Hu2].
        assert (E2 : process_row r st2 = Return u2).
        { unfold process_row. rewrite Ht. simpl. exact Hu2. }
        rewrite E2. simpl.
        apply (IH _ _ (sell_same_books r st1 st2 u1 u2 Hs Hsell Hu2) H2).
      * assert (E2 : process_row r st2 = Return st2).
        { apply process_row_unrecognised. unfold recognised.
          apply orb_false_iff. split; now apply String.eqb_neq. }
        rewrite E2. simpl. apply (IH _ _ Hs H2).
    + apply (IH u1 st2); [| exact H2].
      eapply same_books_trans; [exact (other_asset_same_books r st1 u1 asset E H1) | exact Hs].
Qed.

(** What a run leaves for an asset is what the run over the rows of that
    asset alone leaves for it: the rows of the other assets change neither its
    lots, nor its average-cost totals, nor its gains, nor its enhanced
    sales. *)
Theorem assets_do_not_interact (rows : list Row) (st : State) (asset : string) :
  process_rows rows initial_state = Return st ->
  exists st_a,
    process_rows (List.filter (fun r => String.eqb (Asset r) asset) rows) initial_state
      = Return st_a /\
    same_books asset st st_a.
Proof.
  intros H.
  exact (process_rows_same_books asset rows initial_state initial_state st
           (same_books_refl asset initial_state) H).
Qed.

(** Two assets, their rows interleaved. *)
Definition two_assets : list Row :=
  [buy_row "X" 2 10; buy_row "Y" 1 5; sell_row "X" 3 20; sell_row "Y" 1 8].

Lemma assets_do_not_interact_witness :
  process_rows two_assets initial_state = Return (stores_after two_assets) /\
  exists st_a,
    process_rows (List.filter (fun r => String.eqb (Asset r) "X") two_assets) initial_state
      = Return st_a /\
    same_books "X" (stores_after two_assets) st_a.
Proof.
  assert (H : process_rows two_assets initial_state = Return (stores_after two_assets))
    by (vm_compute; reflexivity).
  split; [exact H |].
  exact (assets_do_not_interact two_assets _ "X" H).
Defined.

(** ** Validation of the input frame *)

Lemma has_column_true (cols : list string) (col : string) :
  has_column cols col = true <-> col ∈ cols.
Proof.
  unfold has_column. rewrite existsb_exists, list_elem_of_In. split.
  - intros (c & Hin & E). apply String.eqb_eq in E. now subst c.
  - intros H. exists col. split; [exact H | apply String.eqb_refl].
Qed.

Lemma missing_columns_elem (cols : list string) (col : string) :
  col ∈ missing_columns cols <-> col ∈ REQUIRED_COLUMNS /\ col ∉ cols.
Proof.
  unfold missing_columns. rewrite list_elem_of_In, filter_In, <- list_elem_of_In.
  rewrite negb_true_iff, <- not_true_iff_false, has_column_true. reflexivity.
Qed.

Lemma missing_columns_nil (cols : list string) :
  missing_columns cols = [] <-> forall col, col ∈ REQUIRED_COLUMNS -> col ∈ cols.
Proof.
  split.
  - intros E col Hreq. destruct (decide (col ∈ cols)) as [H | H]; [exact H |].
    assert (Hm : col ∈ missing_columns cols) by (apply missing_columns_elem; auto).
    rewrite E in Hm. inversion Hm.
  - intros H. destruct (missing_columns cols) as [| c l] eqn:E; [reflexivity |].
    assert (Hm : c ∈ missing_columns cols) by (rewrite E; left).
    apply missing_columns_elem in Hm as [Hreq Hn]. destruct (Hn (H c Hreq)).
Qed.

Lemma list_filter_sublist {A : Type} (f : A -> bool) (l : list A) :
  sublist (List.filter f l) l.
Proof.
  induction l as [| x l IH]; simpl; [constructor |].
  destruct (f x); [now apply sublist_skip | now apply sublist_cons].
Qed.

(** The frame passes the validation exactly when it has every required
    column and at least one row; other columns and the order of the columns
    do not matter.  When a required column is missing the error names the
    missing columns, in the order of [REQUIRED_COLUMNS], whether or not the
    frame has rows; a frame with all the columns and no row is refused for
    having no data. *)
Theorem validate_dataframe_accepts (cols : list string) (rows : list Row) :
  (validate_dataframe cols rows = Validated <->
   (forall col, col ∈ REQUIRED_COLUMNS -> col ∈ cols) /\ rows <> []) /\
  (missing_columns cols <> [] ->
   validate_dataframe cols rows =
   Invalid ("Missing required columns: " ++ String.concat ", " (missing_columns cols)) /\
   sublist (missing_columns cols) REQUIRED_COLUMNS /\
   forall col, col ∈ missing_columns cols <-> col ∈ REQUIRED_COLUMNS /\ col ∉ cols) /\
  ((forall col, col ∈ REQUIRED_COLUMNS -> col ∈ cols) -> rows = [] ->
   validate_dataframe cols rows = Invalid "Input file contains no data").
Proof.
  split; [| split].
  - unfold validate_dataframe. cbv zeta. split.
    + destruct (missing_columns cols) as [| c l] eqn:E; [| discriminate].
      pose proof (proj1 (missing_columns_nil cols) E) as E'. clear E. rename E' into E.
      unfold frame_empty. destruct rows as [| r rows]; [| intros _; split; [exact E | discriminate]].
      rewrite orb_true_r. discriminate.
    + intros [Hc Hr].
      assert (Hcols : cols <> []).
      { intros ->. assert (H : "Asset" ∈ REQUIRED_COLUMNS)
          by (unfold REQUIRED_COLUMNS; do 2 right; left).
        specialize (Hc "Asset" H). inversion Hc. }
      rewrite (proj2 (missing_columns_nil cols) Hc).
      unfold frame_empty. destruct cols; [contradiction |]. destruct rows; [contradiction |].
      reflexivity.
  - intros Hm. split; [| split].
    + unfold validate_dataframe. cbv zeta.
      destruct (missing_columns cols) as [| c l]; [contradiction | reflexivity].
    + unfold missing_columns. apply list_filter_sublist.
    + apply missing_columns_elem.
  - intros Hc ->. unfold validate_dataframe. cbv zeta.
    rewrite (proj2 (missing_columns_nil cols) Hc).
    unfold frame_empty. now rewrite orb_true_r.
Qed.

Lemma validate_dataframe_accepts_witness :
  missing_columns ["Quantity"; "Asset"] <> [] /\
  validate_dataframe ["Quantity"; "Asset"] [] =
  Invalid "Missing required columns: UTC Timestamp, Transaction Type, Asset Price in CAD, Transaction Value in CAD".
Proof.
  assert (Hm : missing_columns ["Quantity"; "Asset"] <> []) by discriminate.
  split; [exact Hm |].
  destruct (validate_dataframe_accepts ["Quantity"; "Asset"] []) as (_ & H & _).
  destruct (H Hm) as (E & _). exact E.
Defined.

(** With every required column in the frame, [process_transactions] on the
    frame is the run over its rows from the empty stores, the empty frame
    being refused; with a required column missing it raises
    [InvalidDataError] and no row is processed, even when a row would raise
    the division error. *)
Theorem process_frame_validates (cols : list string) (rows : list Row) :
  ((forall col, col ∈ REQUIRED_COLUMNS -> col ∈ cols) ->
   process_frame cols rows = process_transactions rows) /\
  (missing_columns cols <> [] -> process_frame cols rows = Raise InvalidDataError).
Proof.
  unfold process_frame. split.
  - intros Hc. destruct rows as [| r rows].
    + destruct (validate_dataframe_accepts cols []) as (_ & _ & H).
      now rewrite (H Hc eq_refl).
    + destruct (validate_dataframe_accepts cols (r :: rows)) as ((_ & H) & _).
      rewrite H by (split; [exact Hc | discriminate]). reflexivity.
  - intros Hm. destruct (validate_dataframe_accepts cols rows) as (_ & H & _).
    destruct (H Hm) as (-> & _). reflexivity.
Qed.

Lemma process_frame_validates_witness :
  (forall col, col ∈ REQUIRED_COLUMNS -> col ∈ "Comments" :: rev REQUIRED_COLUMNS) /\
  process_frame ("Comments" :: rev REQUIRED_COLUMNS) [zero_sell]
    = process_transactions [zero_sell] /\
  missing_columns ["Quantity"; "Asset"] <> [] /\
  process_frame ["Quantity"; "Asset"] [zero_sell] = Raise InvalidDataError.
Proof.
  assert (Hc : forall col, col ∈ REQUIRED_COLUMNS -> col ∈ "Comments" :: rev REQUIRED_COLUMNS).
  { intros col H. right. apply list_elem_of_In, in_rev. rewrite rev_involutive.
    now apply list_elem_of_In. }
  assert (Hm : missing_columns ["Quantity"; "Asset"] <> []) by discriminate.
  split; [exact Hc |].
  split; [exact (proj1 (process_frame_validates _ [zero_sell]) Hc) |].
  split; [exact Hm |].
  exact (proj2 (process_frame_validates _ [zero_sell]) Hm).
Defined.

(** ** Where the lots of an inventory come from *)

(** The lot a BUY row creates. *)
Definition lot_of_row (r : Row) : Lot :=
  {| quantity := Quantity r; price := Asset_Price_in_CAD r; timestamp := UTC_Timestamp r |}.

(** The lots bought for an asset over a stream, in the order of the
    stream. *)
Definition bought_lots (rows : list Row) (asset : string) : list Lot :=
  map lot_of_row (List.filter (is_buy_of asset) rows).

(** [part_of lot lot']: [lot'] is what is left of [lot] after a part of it
    was sold: same price, same timestamp, a positive quantity below that of
    [lot]. *)
Definition part_of (lot lot' : Lot) : Prop :=
  price lot' = price lot /\ timestamp lot' = timestamp lot /\
  (0 < quantity lot')%Q /\ (quantity lot' < quantity lot)%Q.

(** [remnant bought lots]: [lots] is [bought] with some lots gone and some
    lots reduced to a part, the order kept. *)
Inductive remnant : list Lot -> list Lot -> Prop :=
  | remnant_nil : remnant [] []
  | remnant_gone lot bought lots :
      remnant bought lots -> remnant (lot :: bought) lots
  | remnant_whole lot bought lots :
      remnant bought lots -> remnant (lot :: bought) (lot :: lots)
  | remnant_part lot lot' bought lots :
      part_of lot lot' -> remnant bought lots -> remnant (lot :: bought) (lot' :: lots).

(** [fifo_tail bought lots]: [lots] is a tail of [bought], its first lot
    possibly reduced to a part. *)
Definition fifo_tail (bought lots : list Lot) : Prop :=
  exists sold kept, bought = sold ++ kept /\
    (lots = kept \/
     exists lot lot' kept', kept = lot :: kept' /\ lots = lot' :: kept' /\ part_of lot lot').

Lemma part_of_trans (a b c : Lot) : part_of a b -> part_of b c -> part_of a c.
Proof.
  intros (P1 & T1 & _ & L1) (P2 & T2 & H2 & L2).
  repeat split; [congruence | congruence | exact H2 | lra].
Qed.

Lemma split_part_of (lot lot' : Lot) (taken : Q) :
  split_of lot lot' taken -> (0 < taken)%Q -> (taken < quantity lot)%Q -> part_of lot lot'.
Proof.
  intros (Hq & Hp & Ht) H0 H1. repeat split; auto; lra.
Qed.

Lemma remnant_refl (lots : list Lot) : remnant lots lots.
Proof.
  induction lots as [| lot lots IH]; [apply remnant_nil | now apply remnant_whole].
Qed.

Lemma remnant_all_gone (lots : list Lot) : remnant lots [].
Proof.
  induction lots as [| lot lots IH]; [apply remnant_nil | now apply remnant_gone].
Qed.

Lemma remnant_app (b1 l1 b2 l2 : list Lot) :
  remnant b1 l1 -> remnant b2 l2 -> remnant (b1 ++ b2) (l1 ++ l2).
Proof.
  intros H1 H2. induction H1; simpl;
    [exact H2 | now apply remnant_gone | now apply remnant_whole | now apply remnant_part].
Qed.

Lemma remnant_trans (b l : list Lot) :
  remnant b l -> forall l', remnant l l' -> remnant b l'.
Proof.
  induction 1 as [| lot b l _ IH | lot b l _ IH | lot lot' b l Hp _ IH]; intros l' H'.
  - exact H'.
  - apply remnant_gone. auto.
  - inversion H'; subst.
    + apply remnant_gone. auto.
    + apply remnant_whole. auto.
    + apply remnant_part; auto.
  - inversion H'; subst.
    + apply remnant_gone. auto.
    + apply remnant_part; auto.
    + apply remnant_part; [eapply part_of_trans; eauto | auto].
Qed.

Lemma fifo_shape_remnant (s t : Matching) :
  fifo_shape s t -> remnant (m_lots s) (m_lots t).
Proof.
  intros (consumed & rest & -> & Hcase).
  destruct Hcase as [[-> _] | (lot & lot' & rest' & -> & -> & H1 & H2 & H3 & _)].
  - apply (remnant_app consumed [] rest rest); [apply remnant_all_gone | apply remnant_refl].
  - apply (remnant_app consumed [] (lot :: rest') (lot' :: rest'));
      [apply remnant_all_gone |].
    apply remnant_part; [exact (split_part_of _ _ _ H3 H1 H2) | apply remnant_refl].
Qed.

Lemma lifo_shape_remnant (s t : Matching) :
  lifo_shape s t -> remnant (m_lots s) (m_lots t).
Proof.
  intros (rest & consumed & -> & Hcase).
  destruct Hcase as [[-> _] | (lot & lot' & rest' & -> & -> & H1 & H2 & H3 & _)].
  - rewrite <- (app_nil_r rest) at 2.
    apply remnant_app; [apply remnant_refl | apply remnant_all_gone].
  - rewrite <- (app_assoc rest' [lot] consumed).
    apply (remnant_app rest' rest' ([lot] ++ consumed) [lot']); [apply remnant_refl |].
    simpl.
    apply remnant_part; [exact (split_part_of _ _ _ H3 H1 H2) | apply remnant_all_gone].
Qed.

Lemma fifo_shape_tail (bought : list Lot) (s t : Matching) :
  fifo_tail bought (m_lots s) -> fifo_shape s t -> fifo_tail bought (m_lots t).
Proof.
  intros (sold & kept & -> & Hprev) (consumed & rest & Hs & Hcase).
  assert (Hnew : forall sold0,
            (m_lots t = rest \/
             exists lot lot' rest', rest = lot :: rest' /\ m_lots t = lot' :: rest' /\
                                    part_of lot lot') ->
            fifo_tail (sold0 ++ rest) (m_lots t)).
  { intros sold0 H. exists sold0, rest. split; [reflexivity | exact H]. }
  assert (Hcase' : m_lots t = rest \/
            exists lot lot' rest', rest = lot :: rest' /\ m_lots t = lot' :: rest' /\
                                   part_of lot lot').
  { destruct Hcase as [[Ht _] | (lot & lot' & rest' & Hr & Ht & H1 & H2 & H3 & _)];
      [left; exact Ht | right].
    exists lot, lot', rest'. split; [exact Hr |]. split; [exact Ht |].
    exact (split_part_of _ _ _ H3 H1 H2). }
  destruct Hprev as [Hk | (lot & lot' & kept' & -> & Hl & Hp)].
  - rewrite <- Hk, Hs, app_assoc. now apply Hnew.
  - rewrite Hl in Hs. destruct consumed as [| c consumed'].
    + simpl in Hs. subst rest.
      destruct Hcase' as [Ht | (b & b' & rest' & [= <- <-] & Ht & Hp')].
      * exists sold, (lot :: kept'). split; [reflexivity |]. right.
        exists lot, lot', kept'. rewrite Ht. auto.
      * exists sold, (lot :: kept'). split; [reflexivity |]. right.
        exists lot, b', kept'. split; [reflexivity |]. split; [exact Ht |].
        eapply part_of_trans; eauto.
    + simpl in Hs. injection Hs as <- ->.
      replace (sold ++ lot :: consumed' ++ rest) with ((sold ++ lot :: consumed') ++ rest)
        by (rewrite <- app_assoc; reflexivity).
      now apply Hnew.
Qed.

Lemma bought_lots_snoc (rows : list Row) (r : Row) (asset : string) :
  bought_lots (rows ++ [r]) asset =
  bought_lots rows asset ++ (if is_buy_of asset r then [lot_of_row r] else []).
Proof.
  unfold bought_lots. rewrite List.filter_app, map_app. simpl.
  destruct (is_buy_of asset r); reflexivity.
Qed.

Lemma fifo_tail_buy (bought lots : list Lot) (lot : Lot) :
  fifo_tail bought lots -> fifo_tail (bought ++ [lot]) (lots ++ [lot]).
Proof.
  intros (sold & kept & -> & Hcase). exists sold, (kept ++ [lot]).
  split; [now rewrite app_assoc |].
  destruct Hcase as [-> | (b & b' & kept' & -> & -> & Hp)]; [now left | right].
  exists b, b', (kept' ++ [lot]). auto.
Qed.

(** What a row does to the lots of an asset, as lists. *)
Lemma process_row_lots (r : Row) (st st' : State) (asset : string) :
  process_row r st = Return st' ->
  let F := lots_of (buy_lots_fifo st) asset in
  let L := lots_of (buy_lots_lifo st) asset in
  let F' := lots_of (buy_lots_fifo st') asset in
  let L' := lots_of (buy_lots_lifo st') asset in
  (is_buy_of asset r = true /\ F' = F ++ [lot_of_row r] /\ L' = L ++ [lot_of_row r]) \/
  (is_buy_of asset r = false /\
   (exists s t, m_lots s = F /\ m_lots t = F' /\ fifo_shape s t) /\
   (exists s t, m_lots s = L /\ m_lots t = L' /\ lifo_shape s t)).
Proof.
  intros H. cbv zeta.
  assert (Hsame : forall lots : list Lot,
            exists s t, m_lots s = lots /\ m_lots t = lots /\ fifo_shape s t).
  { intros lots. exists (mkMatching lots 0 ∅), (mkMatching lots 0 ∅).
    split; [reflexivity |]. split; [reflexivity |].
    exists [], lots. split; [reflexivity |]. left. split; [reflexivity |].
    rewrite available_nil. simpl. lra. }
  assert (Hsame' : forall lots : list Lot,
            exists s t, m_lots s = lots /\ m_lots t = lots /\ lifo_shape s t).
  { intros lots. exists (mkMatching lots 0 ∅), (mkMatching lots 0 ∅).
    split; [reflexivity |]. split; [reflexivity |].
    exists lots, []. split; [simpl; now rewrite app_nil_r |]. left.
    split; [reflexivity |]. rewrite available_nil. simpl. lra. }
  apply process_row_inv in H as [[Ht ->] | [[Ht H] | (Hb & _ & ->)]].
  - destruct (row_kind_buy r asset Ht) as [Eb _]. rewrite Eb.
    destruct (buy_lots r st asset) as [Heq Hne].
    destruct (String.eqb_spec (Asset r) asset) as [E | E].
    + left. destruct (Heq (eq_sym E)) as [-> ->]. auto.
    + right. destruct (Hne (not_eq_sym E)) as [-> ->]. auto.
  - destruct (row_kind_sell r asset Ht) as [_ Eb]. rewrite Eb. right.
    split; [reflexivity |].
    destruct (sell_available r st st' H) as (_ & _ & Hother).
    apply process_sell_inv in H as (_ & f & l & ([nf Wf] & [nl Wl]) & O).
    destruct O as (HF' & HL' & _).
    destruct (decide (asset = Asset r)) as [-> | E].
    + rewrite HF', HL', !lots_of_insert. split.
      * exists (fifo_entry r st), f. split; [reflexivity |]. split; [reflexivity |].
        exact (while_fifo_shape _ _ _ _ _ _ _ Wf).
      * exists (lifo_entry r st), l. split; [reflexivity |]. split; [reflexivity |].
        exact (while_lifo_shape _ _ _ _ _ _ _ Wl).
    + destruct (Hother asset E) as [-> ->]. auto.
  - assert (Eb : is_buy_of asset r = false).
    { unfold is_buy_of. destruct (String.eqb_spec (ttype r) "BUY");
        [contradiction | reflexivity]. }
    rewrite Eb. right. auto.
Qed.

(** The FIFO inventory of an asset is always a tail of its purchases, in the
    order of the stream: the oldest lots are the ones gone, and only the
    oldest lot kept may be reduced, to a positive part at its price and
    timestamp. *)
Theorem fifo_holds_latest_purchases (rows : list Row) (st : State) (asset : string) :
  process_rows rows initial_state = Return st ->
  fifo_tail (bought_lots rows asset) (lots_of (buy_lots_fifo st) asset).
Proof.
  intros H. revert asset. revert rows st H.
  apply (reachable_ind (fun rows st =>
           forall asset,
             fifo_tail (bought_lots rows asset) (lots_of (buy_lots_fifo st) asset))).
  - intros asset. exists [], []. split; [reflexivity |]. left.
    unfold lots_of. simpl. now rewrite lookup_empty.
  - intros rows r st st' _ IH H asset. rewrite bought_lots_snoc.
    pose proof (process_row_lots r st st' asset H) as L. cbv zeta in L.
    destruct L as [(-> & -> & _) | (-> & (s & t & Hs & Ht & Sh) & _)].
    + apply fifo_tail_buy, IH.
    + rewrite app_nil_r, <- Ht. apply (fifo_shape_tail _ s t); [| exact Sh].
      rewrite Hs. apply IH.
Qed.

Lemma fifo_holds_latest_purchases_witness :
  process_rows three_lots_one_sell initial_state
    = Return (stores_after three_lots_one_sell) /\
  fifo_tail (bought_lots three_lots_one_sell "X")
    (lots_of (buy_lots_fifo (stores_after three_lots_one_sell)) "X").
Proof.
  assert (H : process_rows three_lots_one_sell initial_state
              = Return (stores_after three_lots_one_sell)) by (vm_compute; reflexivity).
  split; [exact H |].
  exact (fifo_holds_latest_purchases three_lots_one_sell _ "X" H).
Defined.

Lemma lots_remnant_reachable (rows : list Row) (st : State) (asset : string) :
  process_rows rows initial_state = Return st ->
  remnant (bought_lots rows asset) (lots_of (buy_lots_fifo st) asset) /\
  remnant (bought_lots rows asset) (lots_of (buy_lots_lifo st) asset).
Proof.
  intros H. revert asset. revert rows st H.
  apply (reachable_ind (fun rows st =>
           forall asset,
             remnant (bought_lots rows asset) (lots_of (buy_lots_fifo st) asset) /\
             remnant (bought_lots rows asset) (lots_of (buy_lots_lifo st) asset))).
  - intros asset. unfold lots_of. simpl. rewrite !lookup_empty. split; constructor.
  - intros rows r st st' _ IH H asset. rewrite bought_lots_snoc.
    destruct (IH asset) as [RF RL].
    pose proof (process_row_lots r st st' asset H) as L. cbv zeta in L.
    destruct L as [(-> & -> & ->) |
                   (-> & (s & t & Hs & Ht & Sh) & (s' & t' & Hs' & Ht' & Sh'))].
    + split; (apply remnant_app; [assumption | apply remnant_refl]).
    + rewrite app_nil_r. split.
      * apply (remnant_trans _ _ RF). rewrite <- Hs, <- Ht.
        now apply fifo_shape_remnant.
      * apply (remnant_trans _ _ RL). rewrite <- Hs', <- Ht'.
        now apply lifo_shape_remnant.
Qed.

Lemma remnant_elem (bought lots : list Lot) (lot' : Lot) :
  remnant bought lots -> lot' ∈ lots ->
  exists lot, lot ∈ bought /\ (lot' = lot \/ part_of lot lot').
Proof.
  induction 1 as [| lot b l _ IH | lot b l _ IH | lot lot1 b l Hp _ IH]; intros Hin.
  - inversion Hin.
  - destruct (IH Hin) as (x & Hx & Hc). exists x. split; [now right | exact Hc].
  - apply elem_of_cons in Hin as [-> | Hin].
    + exists lot. split; [left | now left].
    + destruct (IH Hin) as (x & Hx & Hc). exists x. split; [now right | exact Hc].
  - apply elem_of_cons in Hin as [-> | Hin].
    + exists lot. split; [left | now right].
    + destruct (IH Hin) as (x & Hx & Hc). exists x. split; [now right | exact Hc].
Qed.

(** [from_purchase rows asset lot]: a BUY row of the asset in the stream has
    the price and the timestamp of the lot, and a quantity the lot does not
    exceed. *)
Definition from_purchase (rows : list Row) (asset : string) (lot : Lot) : Prop :=
  exists r, r ∈ rows /\ ttype r = "BUY" /\ Asset r = asset /\
            price lot = Asset_Price_in_CAD r /\ timestamp lot = UTC_Timestamp r /\
            (quantity lot <= Quantity r)%Q.

Lemma bought_lots_elem (rows : list Row) (asset : string) (lot : Lot) :
  lot ∈ bought_lots rows asset ->
  exists r, r ∈ rows /\ ttype r = "BUY" /\ Asset r = asset /\ lot = lot_of_row r.
Proof.
  unfold bought_lots. rewrite list_elem_of_In, in_map_iff.
  intros (r & <- & Hin). apply filter_In in Hin as [Hin Hb].
  unfold is_buy_of in Hb. apply andb_true_iff in Hb as [Ht Ha].
  apply String.eqb_eq in Ht, Ha.
  exists r. split; [now apply list_elem_of_In |]. auto.
Qed.

Lemma remnant_from_purchase (rows : list Row) (asset : string) (lots : list Lot) :
  remnant (bought_lots rows asset) lots -> Forall (from_purchase rows asset) lots.
Proof.
  intros R. apply Forall_forall. intros lot' Hin.
  destruct (remnant_elem _ _ lot' R Hin) as (lot & Hb & Hc).
  apply bought_lots_elem in Hb as (r & Hr & Ht & Ha & ->).
  exists r. split; [exact Hr |]. split; [exact Ht |]. split; [exact Ha |].
  destruct Hc as [-> | (Hp & Hts & _ & Hq)]; simpl in *.
  - repeat split; lra.
  - repeat split; auto. lra.
Qed.

(** Every lot of the FIFO and of the LIFO inventory of an asset is what is
    left of a purchase of that asset in the stream: the lots kept come in the
    order of their purchases, each whole or reduced to a positive part; so
    every lot has the price and the timestamp of a BUY row of the asset and at
    most its quantity. *)
Theorem lots_are_remnants_of_purchases (rows : list Row) (st : State) (asset : string) :
  process_rows rows initial_state = Return st ->
  remnant (bought_lots rows asset) (lots_of (buy_lots_fifo st) asset) /\
  remnant (bought_lots rows asset) (lots_of (buy_lots_lifo st) asset) /\
  Forall (from_purchase rows asset) (lots_of (buy_lots_fifo st) asset) /\
  Forall (from_purchase rows asset) (lots_of (buy_lots_lifo st) asset).
Proof.
  intros H. destruct (lots_remnant_reachable rows st asset H) as [RF RL].
  split; [exact RF |]. split; [exact RL |].
  split; now apply remnant_from_purchase.
Qed.

Lemma lots_are_remnants_of_purchases_witness :
  process_rows three_lots_one_sell initial_state
    = Return (stores_after three_lots_one_sell) /\
  remnant (bought_lots three_lots_one_sell "X")
    (lots_of (buy_lots_fifo (stores_after three_lots_one_sell)) "X") /\
  remnant (bought_lots three_lots_one_sell "X")
    (lots_of (buy_lots_lifo (stores_after three_lots_one_sell)) "X") /\
  Forall (from_purchase three_lots_one_sell "X")
    (lots_of (buy_lots_fifo (stores_after three_lots_one_sell)) "X") /\
  Forall (from_purchase three_lots_one_sell "X")
    (lots_of (buy_lots_lifo (stores_after three_lots_one_sell)) "X").
Proof.
  assert (H : process_rows three_lots_one_sell initial_state
              = Return (stores_after three_lots_one_sell)) by (vm_compute; reflexivity).
  split; [exact H |].
  exact (lots_are_remnants_of_purchases three_lots_one_sell _ "X" H).
Defined.

(** ** Which gains a row changes *)

(** Only a SELL row changes gains, and only the gains of its asset in the
    calendar year of its timestamp: every other entry of the three ledgers
    reads the same before and after the row. *)
Theorem row_books_its_asset_and_year_only (r : Row) (st st' : State)
    (asset : string) (y : Z) :
  process_row r st = Return st' ->
  ttype r <> "SELL" \/ asset <> Asset r \/ y <> year (UTC_Timestamp r) ->
  gain_of (fifo_gains st') asset y = gain_of (fifo_gains st) asset y /\
  gain_of (lifo_gains st') asset y = gain_of (lifo_gains st) asset y /\
  gain_of (avg_cost_gains st') asset y = gain_of (avg_cost_gains st) asset y.
Proof.
  intros H Hne.
  apply process_row_inv in H as [[_ ->] | [[Ht H] | (_ & _ & ->)]]; [auto | | auto].
  assert (Hk : asset <> Asset r \/ y <> year (UTC_Timestamp r)) by tauto.
  apply process_sell_inv in H as (_ & f & l & ([nf Wf] & [nl Wl]) & O).
  destruct (while_fifo_matched _ _ _ _ _ _ _ Wf) as (_ & _ & _ & (_ & _ & GF & _) & _).
  destruct (while_lifo_matched _ _ _ _ _ _ _ Wl) as (_ & _ & _ & (_ & _ & GL & _) & _).
  specialize (GF asset y Hk). specialize (GL asset y Hk). simpl in GF, GL.
  destruct O as (_ & _ & _ & -> & -> & -> & _).
  split; [| split].
  - destruct (Qgtb (Quantity r - matched_fifo_of r st) 0); [| exact GF].
    now rewrite gain_of_add_gain_other.
  - destruct (Qgtb (Quantity r - matched_lifo_of r st) 0); [| exact GL].
    now rewrite gain_of_add_gain_other.
  - now apply gain_of_add_gain_other.
Qed.

(** A sell of 2021 on stores that hold gains of 2020. *)
Definition sell_2021 : Row :=
  {| UTC_Timestamp := {| year := 2021; instant := 0 |};
     Transaction_Type := "SELL"; ttype := "SELL";
     Asset := "X"; Quantity := 1; Asset_Price_in_CAD := 40;
     Transaction_Value_in_CAD := 40 |}.

Lemma row_books_its_asset_and_year_only_witness :
  process_row sell_2021 (stores_after three_lots_one_sell)
    = Return (stores_after (three_lots_one_sell ++ [sell_2021])) /\
  (ttype sell_2021 <> "SELL" \/ "X" <> Asset sell_2021 \/
   (2020 <> year (UTC_Timestamp sell_2021))%Z) /\
  gain_of (fifo_gains (stores_after (three_lots_one_sell ++ [sell_2021]))) "X" 2020
    = gain_of (fifo_gains (stores_after three_lots_one_sell)) "X" 2020 /\
  gain_of (lifo_gains (stores_after (three_lots_one_sell ++ [sell_2021]))) "X" 2020
    = gain_of (lifo_gains (stores_after three_lots_one_sell)) "X" 2020 /\
  gain_of (avg_cost_gains (stores_after (three_lots_one_sell ++ [sell_2021]))) "X" 2020
    = gain_of (avg_cost_gains (stores_after three_lots_one_sell)) "X" 2020.
Proof.
  assert (H : process_row sell_2021 (stores_after three_lots_one_sell)
              = Return (stores_after (three_lots_one_sell ++ [sell_2021])))
    by (vm_compute; reflexivity).
  assert (Hne : ttype sell_2021 <> "SELL" \/ "X" <> Asset sell_2021 \/
                (2020 <> year (UTC_Timestamp sell_2021))%Z)
    by (right; right; discriminate).
  split; [exact H |]. split; [exact Hne |].
  exact (row_books_its_asset_and_year_only sell_2021 _ _ "X" 2020 H Hne).
Defined.

(** ** When a sale is recorded as enhanced, in exact arithmetic *)






(** ** Purchases at one price, in exact arithmetic *)





(** * The binary64 program: the matching loops *)

Module Binary64Facts.
Import PrimFloat Binary64.

Lemma float_match_cond_true (s : Matching) :
  match_cond s = true <-> py_gt (m_remaining s) 0 = true /\ m_lots s <> [].
Proof.
  unfold match_cond. rewrite andb_true_iff.
  destruct (m_lots s); split; intros [H1 H2]; split; auto; congruence.
Qed.

Lemma float_match_cond_false (s : Matching) :
  match_cond s = false -> py_gt (m_remaining s) 0 = false \/ m_lots s = [].
Proof.
  unfold match_cond. destruct (py_gt (m_remaining s) 0); [| now left].
  destruct (m_lots s); [now right | discriminate].
Qed.

Lemma float_match_cond_zero (lots : list Lot) (g : Ledger) :
  match_cond {| m_lots := lots; m_remaining := 0; m_gains := g |} = false.
Proof. reflexivity. Qed.

Definition float_turns_left (s : Matching) : nat :=
  if match_cond s then length (m_lots s) else O.

Lemma float_fifo_turns_decrease asset y sp (s : Matching) :
  match_cond s = true ->
  (float_turns_left (fifo_body asset y sp s) < float_turns_left s)%nat.
Proof.
  intros Hc. unfold float_turns_left at 2. rewrite Hc.
  apply float_match_cond_true in Hc as [_ Hne].
  destruct s as [lots rem g]; simpl in *.
  destruct lots as [| lot rest]; [contradiction |].
  unfold fifo_body; simpl. destruct (py_gt (quantity lot) rem).
  - unfold float_turns_left. rewrite float_match_cond_zero. simpl. lia.
  - unfold float_turns_left. simpl. destruct (match_cond _); simpl; lia.
Qed.

Lemma float_lifo_turns_decrease asset y sp (s : Matching) :
  match_cond s = true ->
  (float_turns_left (lifo_body asset y sp s) < float_turns_left s)%nat.
Proof.
  intros Hc. unfold float_turns_left at 2. rewrite Hc.
  apply float_match_cond_true in Hc as [_ Hne].
  destruct s as [lots rem g]; simpl in *.
  destruct (last lots) as [lot |] eqn:Hl; [| apply last_None in Hl; contradiction].
  apply last_Some in Hl as [front ->].
  unfold lifo_body; simpl. rewrite last_snoc, removelast_last, length_app. simpl.
  destruct (py_gt (quantity lot) rem).
  - unfold float_turns_left. rewrite float_match_cond_zero. simpl. lia.
  - unfold float_turns_left. simpl. destruct (match_cond _); simpl; lia.
Qed.

Lemma float_turns_left_le (s : Matching) : (float_turns_left s <= length (m_lots s))%nat.
Proof. unfold float_turns_left. destruct (match_cond s); lia. Qed.

Lemma float_run_matching_fifo asset y sp (s : Matching) :
  exists t n, run_matching (fifo_body asset y sp) s = Return t /\
    while_do match_cond (fifo_body asset y sp) (length (m_lots s)) s = Some (t, n) /\
    (n <= length (m_lots s))%nat.
Proof.
  destruct (while_do_measure match_cond (fifo_body asset y sp) float_turns_left
              (float_fifo_turns_decrease asset y sp) (length (m_lots s)) s
              (float_turns_left_le s)) as (t & n & W & Hn).
  exists t, n. unfold run_matching. rewrite W.
  pose proof (float_turns_left_le s). repeat split; auto; lia.
Qed.

Lemma float_run_matching_lifo asset y sp (s : Matching) :
  exists t n, run_matching (lifo_body asset y sp) s = Return t /\
    while_do match_cond (lifo_body asset y sp) (length (m_lots s)) s = Some (t, n) /\
    (n <= length (m_lots s))%nat.
Proof.
  destruct (while_do_measure match_cond (lifo_body asset y sp) float_turns_left
              (float_lifo_turns_decrease asset y sp) (length (m_lots s)) s
              (float_turns_left_le s)) as (t & n & W & Hn).
  exists t, n. unfold run_matching. rewrite W.
  pose proof (float_turns_left_le s). repeat split; auto; lia.
Qed.

(** The loop stops where it stands. *)
Lemma takes_stop asset y sp (s : Matching) :
  match_cond s = false -> takes asset y sp s s.
Proof.
  intros Hc. exists [], (m_lots s). split; [reflexivity |]. split; [exact I |].
  left. split; [exact (float_match_cond_false s Hc) |]. now destruct s.
Qed.

(** One more turn in front of a run of turns. *)
Lemma takes_turn asset y sp (s t : Matching) :
  match_cond s = true -> takes asset y sp (fifo_body asset y sp s) t ->
  takes asset y sp s t.
Proof.
  intros Hc. apply float_match_cond_true in Hc as [Hpos Hne].
  destruct s as [lots rem g]; simpl in *.
  destruct lots as [| lot rest0]; [contradiction |].
  unfold fifo_body; simpl. destruct (py_gt (quantity lot) rem) eqn:Hgt.
  - intros (consumed & rest & Hl & Hw & Hcase). simpl in *.
    destruct consumed as [| c more].
    + simpl in *. subst rest.
      destruct Hcase as [[_ ->] | (lot' & rest' & _ & H0 & _)]; [| discriminate H0].
      exists [], (lot :: rest0). split; [reflexivity |]. split; [exact I |].
      right. exists lot, rest0. simpl. auto.
    + destruct Hw as [H0 _]. discriminate H0.
  - intros (consumed & rest & Hl & Hw & Hcase). simpl in *.
    exists (lot :: consumed), rest. split; [now rewrite Hl |].
    split; [simpl; auto |]. exact Hcase.
Qed.

Lemma while_fifo_takes asset y sp (fuel : nat) (s t : Matching) (n : nat) :
  while_do match_cond (fifo_body asset y sp) fuel s = Some (t, n) -> takes asset y sp s t.
Proof.
  apply (while_do_relates_exit match_cond (fifo_body asset y sp) (takes asset y sp)).
  - apply takes_stop.
  - apply takes_turn.
Qed.

(** The LIFO loop is the FIFO loop on the inventory read from its newest
    end. *)
Lemma newest_first_cond (s : Matching) : match_cond (newest_first s) = match_cond s.
Proof.
  unfold match_cond, newest_first. simpl. f_equal.
  destruct (m_lots s) as [| lot rest]; [reflexivity |]. simpl.
  destruct (rev rest ++ [lot]) eqn:E; [| reflexivity].
  now apply app_nil in E as [_ E].
Qed.

Lemma newest_first_body asset y sp (s : Matching) :
  newest_first (lifo_body asset y sp s) = fifo_body asset y sp (newest_first s).
Proof.
  destruct s as [lots rem g]. unfold lifo_body, fifo_body, newest_first. simpl.
  destruct (last lots) as [lot |] eqn:Hl.
  - apply last_Some in Hl as [front ->].
    rewrite removelast_last, rev_unit.
    destruct (py_gt (quantity lot) rem); simpl; [now rewrite rev_unit | reflexivity].
  - apply last_None in Hl. subst lots. reflexivity.
Qed.

Lemma while_lifo_newest_first asset y sp (fuel : nat) (s t : Matching) (n : nat) :
  while_do match_cond (lifo_body asset y sp) fuel s = Some (t, n) ->
  while_do match_cond (fifo_body asset y sp) fuel (newest_first s)
    = Some (newest_first t, n).
Proof.
  revert s t n. induction fuel as [| fuel IH]; intros s t n; simpl;
    rewrite newest_first_cond; destruct (match_cond s); try discriminate.
  - now intros [= <- <-].
  - destruct (while_do match_cond (lifo_body asset y sp) fuel (lifo_body asset y sp s))
      as [[t1 n1] |] eqn:W; [| discriminate].
    intros [= <- <-]. rewrite <- newest_first_body, (IH _ _ _ W). reflexivity.
  - now intros [= <- <-].
Qed.

Lemma while_lifo_takes asset y sp (fuel : nat) (s t : Matching) (n : nat) :
  while_do match_cond (lifo_body asset y sp) fuel s = Some (t, n) ->
  takes asset y sp (newest_first s) (newest_first t).
Proof.
  intros W. exact (while_fifo_takes _ _ _ _ _ _ _ (while_lifo_newest_first _ _ _ _ _ _ _ W)).
Qed.

Lemma float_py_div_Return (a b x : float) :
  py_div a b = Return x <-> (b =? 0)%float = false /\ x = (a / b)%float.
Proof.
  unfold py_div. destruct (b =? 0)%float; split.
  - discriminate.
  - intros [H _]. discriminate H.
  - intros [= <-]. auto.
  - intros [_ ->]. reflexivity.
Qed.

Lemma float_lots_of_insert (m : gmap string (list Lot)) (asset : string) (lots : list Lot) :
  lots_of (<[asset := lots]> m) asset = lots.
Proof. unfold lots_of. now rewrite lookup_insert_eq. Qed.

End Binary64Facts.

Import PrimFloat.

(** ** C3: what a sell takes out of the lots *)

(** The states in which the two loops of a sell start. *)
Definition float_fifo_entry (py_sum : list float -> float)
    (row : Binary64.Row) (st : Binary64.State) : Binary64.Matching :=
  let lots := Binary64.lots_of (Binary64.buy_lots_fifo st) (Binary64.Asset row) in
  {| Binary64.m_lots := lots;
     Binary64.m_remaining :=
       Binary64.py_min (Binary64.Quantity row) (Binary64.available py_sum lots);
     Binary64.m_gains := Binary64.fifo_gains st |}.

Definition float_lifo_entry (py_sum : list float -> float)
    (row : Binary64.Row) (st : Binary64.State) : Binary64.Matching :=
  let lots := Binary64.lots_of (Binary64.buy_lots_lifo st) (Binary64.Asset row) in
  {| Binary64.m_lots := lots;
     Binary64.m_remaining :=
       Binary64.py_min (Binary64.Quantity row) (Binary64.available py_sum lots);
     Binary64.m_gains := Binary64.lifo_gains st |}.

(** What a sell does to the two inventories and the two ledgers of its
    asset, [f] and [l] being the states in which the two loops stop. *)
Definition float_sell_consumes (py_sum : list float -> float)
    (row : Binary64.Row) (st st' : Binary64.State) : Prop :=
  let asset := Binary64.Asset row in
  let y := year (Binary64.UTC_Timestamp row) in
  let qty := Binary64.Quantity row in
  let sale_price := (Binary64.Transaction_Value_in_CAD row / qty)%float in
  let F := float_fifo_entry py_sum row st in
  let L := float_lifo_entry py_sum row st in
  exists f l,
    Binary64.takes asset y sale_price F f /\
    Binary64.takes asset y sale_price (Binary64.newest_first L) (Binary64.newest_first l) /\
    Binary64.lots_of (Binary64.buy_lots_fifo st') asset = Binary64.m_lots f /\
    Binary64.lots_of (Binary64.buy_lots_lifo st') asset = Binary64.m_lots l /\
    Binary64.fifo_gains st' =
      Binary64.unmatched asset y sale_price qty (Binary64.m_remaining F) (Binary64.m_gains f) /\
    Binary64.lifo_gains st' =
      Binary64.unmatched asset y sale_price qty (Binary64.m_remaining L) (Binary64.m_gains l).

(** C3, as the code has it.  A sell whose quantity is not zero returns.  Each
    of its two loops sets out to consume [min(quantity, available)]: it takes
    lots whole, from the oldest end under FIFO and from the newest end under
    LIFO, as long as something is left to consume and the lot does not exceed
    it; it splits the first lot that exceeds what is left, which ends the
    loop; and it stops when nothing is left to consume or no lot is left.
    The inventories after the sell are the ones the loops leave, and the
    excess of the quantity over [min(quantity, available)], when positive, is
    booked at the sale price with no cost against it.  All amounts are the
    floats the code computes: what the lots lose need not add up to
    [min(quantity, available)]. *)
Theorem sell_consumes_lots (py_sum : list float -> float)
    (row : Binary64.Row) (st : Binary64.State) :
  (Binary64.Quantity row =? 0)%float = false ->
  exists st', Binary64.process_sell py_sum row st = Return st' /\
              float_sell_consumes py_sum row st st'.
Proof.
  intros Hq. unfold Binary64.process_sell, Binary64.py_div. rewrite Hq. simpl.
  destruct (Binary64Facts.float_run_matching_fifo (Binary64.Asset row)
              (year (Binary64.UTC_Timestamp row))
              (Binary64.Transaction_Value_in_CAD row / Binary64.Quantity row)%float
              (float_fifo_entry py_sum row st)) as (f & nf & Rf & Wf & _).
  destruct (Binary64Facts.float_run_matching_lifo (Binary64.Asset row)
              (year (Binary64.UTC_Timestamp row))
              (Binary64.Transaction_Value_in_CAD row / Binary64.Quantity row)%float
              (float_lifo_entry py_sum row st)) as (l & nl & Rl & Wl & _).
  unfold float_fifo_entry in Rf. unfold float_lifo_entry in Rl.
  cbv zeta in Rf, Rl. rewrite Rf. simpl. rewrite Rl. simpl.
  eexists. split; [reflexivity |].
  exists f, l. simpl. rewrite !Binary64Facts.float_lots_of_insert.
  split; [exact (Binary64Facts.while_fifo_takes _ _ _ _ _ _ _ Wf) |].
  split; [exact (Binary64Facts.while_lifo_takes _ _ _ _ _ _ _ Wl) |].
  repeat split.
Qed.

(** * The binary64 run against exact arithmetic *)

(** The rational a finite float stands for; 0 for an infinity or NaN. *)
Definition value (x : float) : Q :=
  match FloatOps.Prim2SF x with
  | SpecFloat.S754_finite s m e =>
      ((if s then -1 else 1) * inject_Z (Z.pos m) * 2 ^ e)%Q
  | _ => 0%Q
  end.

Definition finite (x : float) : bool :=
  match FloatOps.Prim2SF x with
  | SpecFloat.S754_zero _ | SpecFloat.S754_finite _ _ _ => true
  | _ => false
  end.

(** The float [x] is the number [q], with no rounding error. *)
Definition exact (x : float) (q : Q) : Prop := finite x = true /\ (value x == q)%Q.

(** The row, the lot, the ledger and the enhanced-sales row that the float
    ones stand for. *)
Definition exact_row (r : Binary64.Row) : Row :=
  {| UTC_Timestamp := Binary64.UTC_Timestamp r;
     Transaction_Type := Binary64.Transaction_Type r;
     ttype := Binary64.ttype r;
     Asset := Binary64.Asset r;
     Quantity := value (Binary64.Quantity r);
     Asset_Price_in_CAD := value (Binary64.Asset_Price_in_CAD r);
     Transaction_Value_in_CAD := value (Binary64.Transaction_Value_in_CAD r) |}.

Definition exact_lot (lot : Binary64.Lot) : Lot :=
  {| quantity := value (Binary64.quantity lot);
     price := value (Binary64.price lot);
     timestamp := Binary64.timestamp lot |}.

Definition exact_gains (g : Binary64.Ledger) : Ledger :=
  (fun years : gmap Z float => value <$> years) <$> g.





(** The quantity a float inventory holds, the cost it carries, the gain a
    float ledger has for an asset over all years and the quantity a float
    list records as enhanced: the sums of the numbers the floats stand for. *)
Definition held (lots : list Binary64.Lot) : Q := available (exact_lot <$> lots).


Definition total_gain (g : Binary64.Ledger) (asset : string) : Q :=
  ledger_total (exact_gains g) asset.


(** The stores a float run leaves, the empty ones when it fails. *)
Definition float_stores_after (py_sum : list float -> float) (rows : list Binary64.Row)
    : Binary64.State :=
  match Binary64.process_rows py_sum rows Binary64.initial_state with
  | Return st => st
  | _ => Binary64.initial_state
  end.








(** * The binary64 program: the claims about quantities and gains *)

(** ** Float inputs *)

Definition float_buy (asset : string) (q p : float) : Binary64.Row :=
  {| Binary64.UTC_Timestamp := ts2020;
     Binary64.Transaction_Type := "BUY"; Binary64.ttype := "BUY";
     Binary64.Asset := asset; Binary64.Quantity := q;
     Binary64.Asset_Price_in_CAD := p;
     Binary64.Transaction_Value_in_CAD := (q * p)%float |}.

Definition float_sell (asset : string) (q v : float) : Binary64.Row :=
  {| Binary64.UTC_Timestamp := ts2020;
     Binary64.Transaction_Type := "SELL"; Binary64.ttype := "SELL";
     Binary64.Asset := asset; Binary64.Quantity := q;
     Binary64.Asset_Price_in_CAD := (v / q)%float;
     Binary64.Transaction_Value_in_CAD := v |}.

(** [BUY 0.1 @ 1], [BUY 0.4 @ 1], then [SELL 0.5 for 0.5]: the quantities
    are the floats nearest to the decimals. *)
Definition tenths_rows : list Binary64.Row :=
  [float_buy "X" (1 / 10) 1; float_buy "X" (4 / 10) 1; float_sell "X" (5 / 10) (5 / 10)].

(** [BUY 1 @ 0.1], [BUY 1 @ 0.2], [BUY 1 @ 0.3], then [SELL 3 for 3]. *)
Definition tenth_prices_rows : list Binary64.Row :=
  [float_buy "X" 1 (1 / 10); float_buy "X" 1 (2 / 10); float_buy "X" 1 (3 / 10);
   float_sell "X" 3 3].





(** ** A sell returns unless its quantity is zero *)

Lemma float_process_sell_returns (py_sum : list float -> float)
    (row : Binary64.Row) (st : Binary64.State) :
  (Binary64.Quantity row =? 0)%float = false ->
  exists st', Binary64.process_sell py_sum row st = Return st'.
Proof.
  intros Hq. unfold Binary64.process_sell, Binary64.py_div. rewrite Hq. simpl.
  destruct (Binary64Facts.float_run_matching_fifo (Binary64.Asset row)
              (year (Binary64.UTC_Timestamp row))
              (Binary64.Transaction_Value_in_CAD row / Binary64.Quantity row)%float
              (float_fifo_entry py_sum row st)) as (f & nf & Rf & _).
  destruct (Binary64Facts.float_run_matching_lifo (Binary64.Asset row)
              (year (Binary64.UTC_Timestamp row))
              (Binary64.Transaction_Value_in_CAD row / Binary64.Quantity row)%float
              (float_lifo_entry py_sum row st)) as (l & nl & Rl & _).
  unfold float_fifo_entry in Rf. unfold float_lifo_entry in Rl.
  cbv zeta in Rf, Rl. rewrite Rf. simpl. rewrite Rl. simpl. eauto.
Qed.




(** ** C3: a sell that leaves a residue *)

Lemma sell_consumes_lots_witness :
  (Binary64.Quantity (float_sell "X" (5 / 10) (5 / 10)) =? 0)%float = false /\
  exists st',
    Binary64.process_sell Binary64.sum_left (float_sell "X" (5 / 10) (5 / 10))
      (float_stores_after Binary64.sum_left (take 2 tenths_rows)) = Return st' /\
    float_sell_consumes Binary64.sum_left (float_sell "X" (5 / 10) (5 / 10))
      (float_stores_after Binary64.sum_left (take 2 tenths_rows)) st'.
Proof.
  assert (Hq : (Binary64.Quantity (float_sell "X" (5 / 10) (5 / 10)) =? 0)%float = false)
    by reflexivity.
  split; [exact Hq |].
  exact (sell_consumes_lots Binary64.sum_left (float_sell "X" (5 / 10) (5 / 10))
           (float_stores_after Binary64.sum_left (take 2 tenths_rows)) Hq).
Defined.

(** What the sell of [tenths_rows] does to the two inventories, both
    [[0.1; 0.4]] before it, under a given [sum]. *)
Definition tenths_sold (py_sum : list float -> float) : Prop :=
  let before := float_stores_after py_sum (take 2 tenths_rows) in
  let after := float_stores_after py_sum tenths_rows in
  let sell := float_sell "X" (5 / 10) (5 / 10) in
  let F := Binary64.lots_of (Binary64.buy_lots_fifo before) "X" in
  let L := Binary64.lots_of (Binary64.buy_lots_lifo before) "X" in
  let F' := Binary64.lots_of (Binary64.buy_lots_fifo after) "X" in
  let L' := Binary64.lots_of (Binary64.buy_lots_lifo after) "X" in
  let m := Binary64.py_min (Binary64.Quantity sell) (Binary64.available py_sum F) in
  Binary64.process_sell py_sum sell before = Return after /\
  F = L /\ m = 0.5%float /\
  F' = [] /\ Binary64.quantity <$> L' = [0x1p-55%float] /\
  ~ (held F - held F' == value m)%Q /\
  Binary64.available py_sum L' <> (Binary64.available py_sum L - m)%float.

(** Against C3 as stated.  The two inventories hold the lots 0.1 and 0.4 and
    the sell is of 0.5, so [min(q, available)] is 0.5 for both.  The FIFO loop
    pops both lots: it takes out the 0.1 and the 0.4 the lots stand for,
    which is more than 0.5.  The LIFO loop pops the 0.4 and finds
    [0.5 - 0.4 < 0.1]: it splits the 0.1 and leaves a lot of [2^-55], so the
    quantity available afterwards is not the one before less 0.5.  This is
    so with the plain and with the compensated [sum]. *)
Lemma sell_consumes_lots_counterexample :
  tenths_sold Binary64.sum_left /\ tenths_sold Binary64.sum_compensated.
Proof.
  split; unfold tenths_sold; cbv zeta.
  - split; [vm_compute; reflexivity |]. split; [vm_compute; reflexivity |].
    split; [vm_compute; reflexivity |]. split; [vm_compute; reflexivity |].
    split; [vm_compute; reflexivity |].
    split; [vm_compute; discriminate |].
    intros E. apply (f_equal (fun x => (x =? 0)%float)) in E. vm_compute in E. discriminate.
  - split; [vm_compute; reflexivity |]. split; [vm_compute; reflexivity |].
    split; [vm_compute; reflexivity |]. split; [vm_compute; reflexivity |].
    split; [vm_compute; reflexivity |].
    split; [vm_compute; discriminate |].
    intros E. apply (f_equal (fun x => (x =? 0)%float)) in E. vm_compute in E. discriminate.
Qed.

(** ** C6: the FIFO and LIFO inventories hold the same total *)









(** ** C7: total gain when everything bought is sold *)



(** What the stream [tenth_prices_rows] books under a given [sum]. *)
Definition tenth_prices_booked (py_sum : list float -> float) : Prop :=
  let after := float_stores_after py_sum tenth_prices_rows in
  Binary64.process_rows py_sum tenth_prices_rows Binary64.initial_state = Return after /\
  Forall valid_transaction (exact_row <$> tenth_prices_rows) /\
  (bought_quantity (exact_row <$> tenth_prices_rows) "X" ==
   sold_quantity (exact_row <$> tenth_prices_rows) "X")%Q /\
  Binary64.enhanced_transactions after = [] /\
  Binary64.gain_of (Binary64.fifo_gains after) "X" 2020 = 0x1.3333333333334p+1%float /\
  Binary64.gain_of (Binary64.lifo_gains after) "X" 2020 = 0x1.3333333333333p+1%float /\
  ~ (total_gain (Binary64.fifo_gains after) "X" ==
     total_gain (Binary64.lifo_gains after) "X")%Q.

(** Rounding alone separates the two totals: the three lots are sold off by
    one sell, nothing is enhanced, and the FIFO ledger holds
    2.4000000000000004 where the LIFO ledger holds 2.4. *)
Lemma fifo_lifo_total_gain_rounding :
  tenth_prices_booked Binary64.sum_left /\ tenth_prices_booked Binary64.sum_compensated.
Proof.
  split; unfold tenth_prices_booked; cbv zeta.
  - split; [vm_compute; reflexivity |].
    split; [repeat constructor; vm_compute; congruence |].
    split; [vm_compute; reflexivity |]. split; [vm_compute; reflexivity |].
    split; [vm_compute; reflexivity |]. split; [vm_compute; reflexivity |].
    vm_compute. discriminate.
  - split; [vm_compute; reflexivity |].
    split; [repeat constructor; vm_compute; congruence |].
    split; [vm_compute; reflexivity |]. split; [vm_compute; reflexivity |].
    split; [vm_compute; reflexivity |]. split; [vm_compute; reflexivity |].
    vm_compute. discriminate.
Qed.

(** * Beyond the claims, in binary floating point *)

(** ** A float sell raises or returns *)

(** Whatever floats the row and the stores hold, infinities and NaN
    included, and whatever [sum] computes, a sell never runs out of turns: it
    raises [ZeroDivisionError] when its quantity is a zero, of either sign,
    and returns otherwise. *)
Theorem binary64_sell_raises_or_returns (py_sum : list float -> float)
    (row : Binary64.Row) (st : Binary64.State) :
  match Binary64.process_sell py_sum row st with
  | Return _ => (Binary64.Quantity row =? 0)%float = false
  | Raise e => e = ZeroDivisionError /\ (Binary64.Quantity row =? 0)%float = true
  | OutOfFuel => False
  end.
Proof.
  destruct (Binary64.Quantity row =? 0)%float eqn:Hq.
  - unfold Binary64.process_sell, Binary64.py_div. rewrite Hq. simpl. auto.
  - destruct (float_process_sell_returns py_sum row st Hq) as [st' ->]. reflexivity.
Qed.

(** ** What an asset holds, and what it has gained *)





(** ** The three methods hold the same quantity *)



(** ** When a sale is recorded as enhanced *)



(** ** Purchases at one price *)


